(** * Expression Language Parser: a shallow embedding

    A model of [assets/scripts/components/expression-language-parser.js],
    the string-driven evaluator behind the Expression Language REPL.

    The JavaScript class works on the text of the expression directly
    (regular expressions, [includes], [indexOf], [split], [substring]);
    the embedding keeps that shape.  Strings are sequences of 8-bit code
    units ([string]), numbers are IEEE 754 binary64 values ([spec_float]
    at precision 53), the environment object is a finite map from
    property names to values, and [throw] is an error result threaded
    through a small state-and-error monad. *)

From Stdlib Require Import ZArith NArith String Ascii List Bool Lia.
From Stdlib Require Import DecimalString.
From Stdlib Require Import Floats.SpecFloat.
From stdpp Require Import base option gmap strings.

Import ListNotations.
Local Open Scope string_scope.
Local Open Scope Z_scope.

(** ** JavaScript strings *)

Module JsString.

(** [WhiteSpace] and [LineTerminator] code units below 256: what
    [String.prototype.trim] strips and what [\s] matches. *)
Definition isWhiteSpace (c : ascii) : bool :=
  match N_of_ascii c with
  | 9%N | 10%N | 11%N | 12%N | 13%N | 32%N | 160%N => true
  | _ => false
  end.

(** [LineTerminator] code units below 256: what [.] refuses. *)
Definition isLineTerminator (c : ascii) : bool :=
  match N_of_ascii c with
  | 10%N | 13%N => true
  | _ => false
  end.

Definition isDigit (c : ascii) : bool :=
  let n := N_of_ascii c in (48 <=? n)%N && (n <=? 57)%N.

Definition isLower (c : ascii) : bool :=
  let n := N_of_ascii c in (97 <=? n)%N && (n <=? 122)%N.

Definition isUpper (c : ascii) : bool :=
  let n := N_of_ascii c in (65 <=? n)%N && (n <=? 90)%N.

(** [[a-zA-Z_]] *)
Definition isIdentStart (c : ascii) : bool :=
  isLower c || isUpper c || Ascii.eqb c "_".

(** [[a-zA-Z0-9_]] *)
Definition isIdentPart (c : ascii) : bool :=
  isIdentStart c || isDigit c.

Fixpoint trimStart (s : string) : string :=
  match s with
  | EmptyString => EmptyString
  | String c s' => if isWhiteSpace c then trimStart s' else s
  end.

Fixpoint trimEnd (s : string) : string :=
  match s with
  | EmptyString => EmptyString
  | String c s' =>
      match trimEnd s' with
      | EmptyString => if isWhiteSpace c then EmptyString else String c EmptyString
      | r => String c r
      end
  end.

(** [s.trim()] *)
Definition trim (s : string) : string := trimEnd (trimStart s).

(** [s.startsWith(p)] *)
Definition startsWith (s p : string) : bool := String.prefix p s.

Fixpoint drop (n : nat) (s : string) : string :=
  match n, s with
  | O, _ => s
  | S _, EmptyString => EmptyString
  | S n', String _ s' => drop n' s'
  end.

(** [s.endsWith(p)] *)
Definition endsWith (s p : string) : bool :=
  (String.length p <=? String.length s)%nat
  && String.eqb (drop (String.length s - String.length p) s) p.

Fixpoint indexOf_go (sub s : string) (i : Z) : Z :=
  if String.prefix sub s then i
  else match s with
       | EmptyString => -1
       | String _ s' => indexOf_go sub s' (i + 1)
       end.

Definition clamp (len : nat) (i : Z) : nat :=
  Z.to_nat (Z.min (Z.max i 0) (Z.of_nat len)).

(** [s.indexOf(sub, from)]; [-1] when there is no occurrence. *)
Definition indexOfFrom (s sub : string) (from : Z) : Z :=
  let k := clamp (String.length s) from in
  indexOf_go sub (drop k s) (Z.of_nat k).

(** [s.indexOf(sub)] *)
Definition indexOf (s sub : string) : Z := indexOf_go sub s 0.

(** [s.includes(sub)] *)
Definition includes (s sub : string) : bool := 0 <=? indexOf s sub.

Fixpoint lastIndexOf_go (sub s : string) (i : Z) (last : Z) : Z :=
  let last' := if String.prefix sub s then i else last in
  match s with
  | EmptyString => last'
  | String _ s' => lastIndexOf_go sub s' (i + 1) last'
  end.

(** [s.lastIndexOf(sub)] *)
Definition lastIndexOf (s sub : string) : Z := lastIndexOf_go sub s 0 (-1).

(** [s.substring(a, b)]: both ends clamped to [0 .. length], swapped when
    out of order. *)
Definition substring (s : string) (a b : Z) : string :=
  let len := String.length s in
  let a' := clamp len a in
  let b' := clamp len b in
  String.substring (Nat.min a' b') (Nat.max a' b' - Nat.min a' b') s.

(** [s.substring(a)] *)
Definition substringFrom (s : string) (a : Z) : string :=
  drop (clamp (String.length s) a) s.

(** [s[i]], [None] for [undefined]. *)
Definition charAt (s : string) (i : Z) : option ascii :=
  if i <? 0 then None else String.get (Z.to_nat i) s.

Definition ofRev (l : list ascii) : string :=
  string_of_list_ascii (List.rev l).

Fixpoint split_go (sep s : string) (skip : nat) (cur : list ascii) : list string :=
  match s with
  | EmptyString => [ofRev cur]
  | String c s' =>
      match skip with
      | S k => split_go sep s' k cur
      | O =>
          if String.prefix sep s
          then ofRev cur :: split_go sep s' (String.length sep - 1) []
          else split_go sep s' 0 (c :: cur)
      end
  end.

(** [s.split(sep)] for a separator that is not empty. *)
Definition split (s sep : string) : list string := split_go sep s 0 [].

Fixpoint join (sep : string) (l : list string) : string :=
  match l with
  | [] => ""
  | [x] => x
  | x :: rest => x +:+ sep +:+ join sep rest
  end.

(** [s.search(/[...]/)] for a one-character class: the index of the first
    code unit in the class, [-1] when there is none. *)
Fixpoint search_go (cls : ascii -> bool) (s : string) (i : Z) : Z :=
  match s with
  | EmptyString => -1
  | String c s' => if cls c then i else search_go cls s' (i + 1)
  end.

Definition search (s : string) (cls : ascii -> bool) : Z := search_go cls s 0.

(** Code-unit order on strings, as [<] on two strings compares them. *)
Fixpoint ltb (a b : string) : bool :=
  match a, b with
  | _, EmptyString => false
  | EmptyString, String _ _ => true
  | String x a', String y b' =>
      if (N_of_ascii x <? N_of_ascii y)%N then true
      else if (N_of_ascii y <? N_of_ascii x)%N then false
      else ltb a' b'
  end.

End JsString.

(** ** Regular expressions

    The source leans on a dozen regular-expression literals.  They are
    written here in a small abstract syntax and run by a backtracking
    matcher with the priorities of the ECMAScript one: alternatives left
    to right, quantifiers greedy, an iteration that consumes nothing
    refused. *)

Module Regex.

Inductive regex : Type :=
| Eps
| Chr (c : ascii)
| Class (cls : ascii -> bool)
| Seq (r1 r2 : regex)
| Alt (r1 r2 : regex)
| Star (r : regex)
| Group (n : nat) (r : regex)
| Bos
| Eos.

Definition captures : Type := list (nat * string).

Definition consumed (s s' : string) : string :=
  String.substring 0 (String.length s - String.length s') s.

Definition orElse {A} (x y : option A) : option A :=
  match x with
  | Some _ => x
  | None => y
  end.

(** [run total r s c k]: match [r] at the front of [s], a suffix of an
    input of [total] code units, then hand what is left to [k]. *)
Fixpoint run (total : nat) (r : regex) (s : string) (c : captures)
    (k : string -> captures -> option captures) {struct r} : option captures :=
  match r with
  | Eps => k s c
  | Chr a =>
      match s with
      | String b s' => if Ascii.eqb a b then k s' c else None
      | EmptyString => None
      end
  | Class cls =>
      match s with
      | String b s' => if cls b then k s' c else None
      | EmptyString => None
      end
  | Seq r1 r2 => run total r1 s c (fun s' c' => run total r2 s' c' k)
  | Alt r1 r2 => orElse (run total r1 s c k) (run total r2 s c k)
  | Star r0 =>
      (fix loop (n : nat) (s : string) (c : captures) {struct n} : option captures :=
         match n with
         | O => k s c
         | S n' =>
             orElse
               (run total r0 s c (fun s' c' =>
                  if (String.length s' <? String.length s)%nat
                  then loop n' s' c' else None))
               (k s c)
         end) (String.length s) s c
  | Group n r0 => run total r0 s c (fun s' c' => k s' ((n, consumed s s') :: c'))
  | Bos => if (String.length s =? total)%nat then k s c else None
  | Eos =>
      match s with
      | EmptyString => k s c
      | String _ _ => None
      end
  end.

Definition Plus (r : regex) : regex := Seq r (Star r).

Definition Opt (r : regex) : regex := Alt r Eps.

Fixpoint Lit (s : string) : regex :=
  match s with
  | EmptyString => Eps
  | String c s' => Seq (Chr c) (Lit s')
  end.

Definition Cat (l : list regex) : regex := List.fold_right Seq Eps l.

(** [\s], [\d], [.] and the bracketed classes the source uses. *)
Definition ws : regex := Class JsString.isWhiteSpace.
Definition digit : regex := Class JsString.isDigit.
Definition dot : regex := Class (fun c => negb (JsString.isLineTerminator c)).
Definition noneOf (s : string) : regex :=
  Class (fun c => negb (JsString.includes s (String c EmptyString))).
Definition oneOf (s : string) : regex :=
  Class (fun c => JsString.includes s (String c EmptyString)).

(** The first match of [r] in [s], trying the start offsets left to
    right as [RegExp.prototype.exec] does. *)
Fixpoint execFrom (total : nat) (r : regex) (s : string) : option captures :=
  match run total r s [] (fun _ c => Some c) with
  | Some c => Some c
  | None =>
      match s with
      | EmptyString => None
      | String _ s' => execFrom total r s'
      end
  end.

(** [s.match(r)]: the capture groups of the first match, [None] for
    [null]. *)
Definition exec (r : regex) (s : string) : option captures :=
  execFrom (String.length s) r s.

(** [r.test(s)] *)
Definition test (r : regex) (s : string) : bool :=
  match exec r s with
  | Some _ => true
  | None => false
  end.

(** [match[n]] *)
Fixpoint group (c : captures) (n : nat) : string :=
  match c with
  | [] => ""
  | (m, s) :: rest => if (m =? n)%nat then s else group rest n
  end.

(** *** [new RegExp(pattern)]

    The pattern syntax read here: literals, [.], escapes, bracketed
    classes with ranges, groups, alternation, the anchors and the
    quantifiers [*], [+], [?].  A pattern outside this fragment is
    reported as [Unsupported]; a malformed one as [Invalid]. *)

Inductive parsed : Type :=
| Parsed (r : regex) (rest : string)
| Invalid
| Unsupported.

Definition isWord (c : ascii) : bool := JsString.isIdentPart c.

(** The class a backslash escape stands for, when it stands for one. *)
Definition classEscape (c : ascii) : option (ascii -> bool) :=
  if Ascii.eqb c "d" then Some JsString.isDigit
  else if Ascii.eqb c "D" then Some (fun x => negb (JsString.isDigit x))
  else if Ascii.eqb c "w" then Some isWord
  else if Ascii.eqb c "W" then Some (fun x => negb (isWord x))
  else if Ascii.eqb c "s" then Some JsString.isWhiteSpace
  else if Ascii.eqb c "S" then Some (fun x => negb (JsString.isWhiteSpace x))
  else None.

(** The character a backslash escape stands for; [None] for the escapes
    that are outside the fragment. *)
Definition charEscape (c : ascii) : option ascii :=
  if Ascii.eqb c "n" then Some "010"%char
  else if Ascii.eqb c "r" then Some "013"%char
  else if Ascii.eqb c "t" then Some "009"%char
  else if Ascii.eqb c "f" then Some "012"%char
  else if Ascii.eqb c "v" then Some "011"%char
  else if JsString.isDigit c || JsString.isLower c || JsString.isUpper c then None
  else Some c.

Definition inRange (a b x : ascii) : bool :=
  (N_of_ascii a <=? N_of_ascii x)%N && (N_of_ascii x <=? N_of_ascii b)%N.

Definition orClass (f g : ascii -> bool) : ascii -> bool :=
  fun x => f x || g x.

Inductive parsedClass : Type :=
| ParsedClass (cls : ascii -> bool) (rest : string)
| InvalidClass
| UnsupportedClass.

(** A member of a bracketed class: one character, written as itself or
    escaped, or the set a class escape stands for. *)
Inductive classAtom : Type :=
| AtomChar (c : ascii)
| AtomSet (cls : ascii -> bool).

Inductive parsedAtom : Type :=
| ParsedAtom (a : classAtom) (rest : string)
| InvalidAtom
| UnsupportedAtom.

Definition classAtomOf (s : string) : parsedAtom :=
  match s with
  | EmptyString => InvalidAtom
  | String "\" EmptyString => InvalidAtom
  | String "\" (String e rest) =>
      match classEscape e with
      | Some cls => ParsedAtom (AtomSet cls) rest
      | None =>
          match charEscape e with
          | Some x => ParsedAtom (AtomChar x) rest
          | None => UnsupportedAtom
          end
      end
  | String c rest => ParsedAtom (AtomChar c) rest
  end.

Definition atomClass (a : classAtom) : ascii -> bool :=
  match a with
  | AtomChar c => Ascii.eqb c
  | AtomSet cls => cls
  end.

(** The members of a class, up to its closing bracket.  Two atoms with a
    dash between them are a range when both are characters (escaped or
    not), and the two atoms and the dash when one of them is a class
    escape; a dash just before the closing bracket is a dash.  Every
    step reads at least one character, so a budget of the length of the
    text is never used up. *)
Fixpoint parseClass (fuel : nat) (s : string) (acc : ascii -> bool)
  : parsedClass :=
  match fuel with
  | O => UnsupportedClass
  | S f =>
      match s with
      | String "]" rest => ParsedClass acc rest
      | _ =>
          match classAtomOf s with
          | InvalidAtom => InvalidClass
          | UnsupportedAtom => UnsupportedClass
          | ParsedAtom a rest =>
              match rest with
              | String "-" (String b _ as second) =>
                  if Ascii.eqb b "]" then parseClass f rest (orClass acc (atomClass a))
                  else
                    match classAtomOf second with
                    | InvalidAtom => InvalidClass
                    | UnsupportedAtom => UnsupportedClass
                    | ParsedAtom a' rest' =>
                        match a, a' with
                        | AtomChar x, AtomChar y =>
                            if (N_of_ascii y <? N_of_ascii x)%N then InvalidClass
                            else parseClass f rest' (orClass acc (inRange x y))
                        | _, _ =>
                            parseClass f rest'
                              (orClass acc
                                 (orClass (atomClass a)
                                    (orClass (Ascii.eqb "-") (atomClass a'))))
                        end
                    end
              | _ => parseClass f rest (orClass acc (atomClass a))
              end
          end
      end
  end.

(** One quantifier, if any, after an atom; a lazy mark after it changes
    which match is found, not whether there is one. *)
Definition quantified (atom : regex) (s : string) : regex * string :=
  let lazy (rest : string) :=
    match rest with
    | String "?" rest' => rest'
    | _ => rest
    end in
  match s with
  | String "*" rest => (Star atom, lazy rest)
  | String "+" rest => (Plus atom, lazy rest)
  | String "?" rest => (Opt atom, lazy rest)
  | _ => (atom, s)
  end.

(** A disjunction, up to the end of the pattern or to the parenthesis
    that closes the group being read; [acc] is the alternative read so
    far. *)
Fixpoint parse (fuel : nat) (s : string) (acc : regex) : parsed :=
  match fuel with
  | O => Unsupported
  | S f =>
      let continue (atom : regex) (rest : string) :=
        match rest with
        | String "{" _ => Unsupported
        | _ =>
            let '(r, rest') := quantified atom rest in
            parse f rest' (Seq acc r)
        end in
      let assertion (r : regex) (rest : string) :=
        match rest with
        | String "*" _ | String "+" _ | String "?" _ => Invalid
        | String "{" _ => Unsupported
        | _ => parse f rest (Seq acc r)
        end in
      match s with
      | EmptyString => Parsed acc s
      | String ")" _ => Parsed acc s
      | String "|" rest =>
          match parse f rest Eps with
          | Parsed r rest' => Parsed (Alt acc r) rest'
          | other => other
          end
      | String "(" rest =>
          let body :=
            match rest with
            | String "?" (String ":" rest') => Some rest'
            | String "?" _ => None
            | _ => Some rest
            end in
          match body with
          | None => Unsupported
          | Some rest0 =>
              match parse f rest0 Eps with
              | Parsed r (String ")" rest') => continue r rest'
              | Parsed _ _ => Invalid
              | other => other
              end
          end
      | String "[" rest =>
          let '(negated, rest0) :=
            match rest with
            | String "^" rest' => (true, rest')
            | _ => (false, rest)
            end in
          match parseClass (S (String.length rest0)) rest0 (fun _ => false) with
          | ParsedClass cls rest' =>
              continue (Class (fun x => if negated then negb (cls x) else cls x)) rest'
          | InvalidClass => Invalid
          | UnsupportedClass => Unsupported
          end
      | String "\" EmptyString => Invalid
      | String "\" (String e rest) =>
          match classEscape e with
          | Some cls => continue (Class cls) rest
          | None =>
              match charEscape e with
              | Some x => continue (Chr x) rest
              | None => Unsupported
              end
          end
      | String "." rest => continue dot rest
      | String "^" rest => assertion Bos rest
      | String "$" rest => assertion Eos rest
      | String "*" _ | String "+" _ | String "?" _ => Invalid
      | String "{" _ => Unsupported
      | String c rest => continue (Chr c) rest
      end
  end.

Inductive compiled : Type :=
| Pattern (r : regex)
| SyntaxError
| OutsideFragment.

Definition compile (pattern : string) : compiled :=
  match parse (S (String.length pattern)) pattern Eps with
  | Parsed r EmptyString => Pattern r
  | Parsed _ _ => SyntaxError
  | Invalid => SyntaxError
  | Unsupported => OutsideFragment
  end.

End Regex.

(** ** JavaScript numbers

    Binary64 through the Standard Library's executable specification of
    IEEE 754 ([spec_float]), with the conversions the evaluator uses:
    [parseFloat], [parseInt] on digit strings, [Number(string)] and
    [String(number)]. *)

Module JsNumber.

Definition prec : Z := 53.
Definition emax : Z := 1024.

Definition NaN : spec_float := S754_nan.
Definition zero : spec_float := S754_zero false.

Definition ofZ (z : Z) : spec_float := binary_normalize prec emax z 0 false.
Definition ofNat (n : nat) : spec_float := ofZ (Z.of_nat n).

Definition add : spec_float -> spec_float -> spec_float := SFadd prec emax.
Definition sub : spec_float -> spec_float -> spec_float := SFsub prec emax.
Definition mul : spec_float -> spec_float -> spec_float := SFmul prec emax.
Definition div : spec_float -> spec_float -> spec_float := SFdiv prec emax.

Definition eqb : spec_float -> spec_float -> bool := SFeqb.
Definition ltb : spec_float -> spec_float -> bool := SFltb.
Definition leb : spec_float -> spec_float -> bool := SFleb.

Definition isNaN (x : spec_float) : bool :=
  match x with
  | S754_nan => true
  | _ => false
  end.

Definition isZero (x : spec_float) : bool :=
  match x with
  | S754_zero _ => true
  | _ => false
  end.

Definition digitsOfN (n : N) : string := NilZero.string_of_uint (N.to_uint n).

Definition countDigits (p : positive) : Z :=
  Z.of_nat (String.length (digitsOfN (Npos p))).

(** The binary64 value nearest to [m * 10^e] (ties to even).  Magnitudes
    that are out of range on their digit count alone are settled without
    computing the power of ten. *)
Definition ofDecimal (neg : bool) (m : N) (e : Z) : spec_float :=
  match m with
  | N0 => S754_zero neg
  | Npos p =>
      let d := countDigits p in
      if 310 <? d + e then S754_infinity neg
      else if d + e <? -330 then S754_zero neg
      else if 0 <=? e then
        binary_round prec emax neg (Z.to_pos (Zpos p * 10 ^ e)) 0
      else
        let '(q, e', l) := SFdiv_core_binary prec emax (Zpos p) 0 (10 ^ (- e)) 0 in
        binary_round_aux prec emax neg q e' l
  end.

Definition digitValue (c : ascii) : N := (N_of_ascii c - 48)%N.

(** A run of decimal digits: the number read so far, how many digits
    were read, and what follows them. *)
Fixpoint scanDigits (s : string) (acc : N) (cnt : nat) : N * nat * string :=
  match s with
  | String c s' =>
      if JsString.isDigit c
      then scanDigits s' (acc * 10 + digitValue c)%N (S cnt)
      else (acc, cnt, s)
  | EmptyString => (acc, cnt, s)
  end.

Definition scanSign (s : string) : bool * string :=
  match s with
  | String "-" s' => (true, s')
  | String "+" s' => (false, s')
  | _ => (false, s)
  end.

(** The exponent part [e[+-]digits]; left unread when no digit follows. *)
Definition scanExponent (s : string) : Z * string :=
  match s with
  | String c s' =>
      if Ascii.eqb c "e" || Ascii.eqb c "E" then
        let '(neg, s1) := scanSign s' in
        let '(x, cnt, s2) := scanDigits s1 0%N O in
        match cnt with
        | O => (0, s)
        | S _ => ((if neg then - Z.of_N x else Z.of_N x), s2)
        end
      else (0, s)
  | EmptyString => (0, s)
  end.

(** The longest prefix that is a [StrDecimalLiteral], with its value and
    the text after it. *)
Definition scanDecimal (s : string) : option (spec_float * string) :=
  let '(neg, s0) := scanSign s in
  if String.prefix "Infinity" s0
  then Some (S754_infinity neg, JsString.drop 8 s0)
  else
    let '(m1, c1, r1) := scanDigits s0 0%N O in
    let '(m, frac, r) :=
      match r1 with
      | String "." r1' =>
          let '(m2, c2, r2) := scanDigits r1' m1 O in
          match c1, c2 with
          | O, O => (m1, O, r1)
          | _, _ => (m2, c2, r2)
          end
      | _ => (m1, O, r1)
      end in
    match c1, frac with
    | O, O => None
    | _, _ =>
        let '(x, rest) := scanExponent r in
        Some (ofDecimal neg m (x - Z.of_nat frac), rest)
    end.

(** [parseFloat(s)] *)
Definition parseFloat (s : string) : spec_float :=
  match scanDecimal (JsString.trimStart s) with
  | Some (x, _) => x
  | None => NaN
  end.

(** [parseInt(s)] on a string of decimal digits, the only use the source
    makes of it. *)
Definition parseInt (s : string) : spec_float :=
  let '(m, cnt, _) := scanDigits s 0%N O in
  match cnt with
  | O => NaN
  | S _ => ofDecimal false m 0
  end.

Definition radixDigit (radix : N) (c : ascii) : option N :=
  let n := N_of_ascii c in
  let v :=
    if JsString.isDigit c then Some (n - 48)%N
    else if JsString.isLower c then Some (n - 87)%N
    else if JsString.isUpper c then Some (n - 55)%N
    else None in
  match v with
  | Some d => if (d <? radix)%N then Some d else None
  | None => None
  end.

Fixpoint scanRadix (radix : N) (s : string) (acc : N) (cnt : nat) : option N :=
  match s with
  | EmptyString => match cnt with O => None | S _ => Some acc end
  | String c s' =>
      match radixDigit radix c with
      | Some d => scanRadix radix s' (acc * radix + d)%N (S cnt)
      | None => None
      end
  end.

Definition nonDecimal (s : string) : option spec_float :=
  match s with
  | String "0" (String p s') =>
      let radix :=
        if Ascii.eqb p "x" || Ascii.eqb p "X" then Some 16%N
        else if Ascii.eqb p "o" || Ascii.eqb p "O" then Some 8%N
        else if Ascii.eqb p "b" || Ascii.eqb p "B" then Some 2%N
        else None in
      match radix with
      | Some r =>
          match scanRadix r s' 0%N O with
          | Some n => Some (ofZ (Z.of_N n))
          | None => Some NaN
          end
      | None => None
      end
  | _ => None
  end.

(** [Number(s)], the conversion applied to a string operand of an
    arithmetic or relational operator. *)
Definition ofString (s : string) : spec_float :=
  let t := JsString.trim s in
  match t with
  | EmptyString => zero
  | _ =>
      match nonDecimal t with
      | Some x => x
      | None =>
          match scanDecimal t with
          | Some (x, EmptyString) => x
          | _ => NaN
          end
      end
  end.

(** The integer part of a finite value, towards zero. *)
Definition truncate (x : spec_float) : Z :=
  match x with
  | S754_finite s m e =>
      let a := if 0 <=? e then Zpos m * 2 ^ e else Zpos m / 2 ^ (- e) in
      if s then - a else a
  | _ => 0
  end.

(** [ToIntegerOrInfinity] followed by the clamp to [0 .. len] that
    [substring] applies to its arguments. *)
Definition toIndex (x : spec_float) (len : nat) : Z :=
  match x with
  | S754_nan => 0
  | S754_zero _ => 0
  | S754_infinity true => 0
  | S754_infinity false => Z.of_nat len
  | S754_finite _ _ _ => Z.min (Z.max (truncate x) 0) (Z.of_nat len)
  end.

(** *** [String(number)]

    A finite positive value is the fraction [a0 / b0].  Its decimal
    exponent [n] satisfies [10^(n-1) <= a0/b0 < 10^n]; the digits are the
    shortest [s] (of [k] digits) with [s * 10^(n-k)] reading back as the
    same binary64 value. *)

Fixpoint leadingExponent (fuel : nat) (a b : Z) (j : Z) : Z :=
  match fuel with
  | O => j
  | S f => if b <=? a * 10 then j else leadingExponent f (a * 10) b (j + 1)
  end.

Definition decimalExponent (a0 b0 : Z) : Z :=
  if b0 <=? a0
  then Z.of_nat (String.length (digitsOfN (Z.to_N (a0 / b0))))
  else 1 - leadingExponent 400 a0 b0 1.

Fixpoint shortestDigits (fuel : nat) (x : spec_float) (a0 b0 n k : Z) : Z * Z :=
  let a := if 0 <=? n - k then a0 else a0 * 10 ^ (k - n) in
  let b := if 0 <=? n - k then b0 * 10 ^ (n - k) else b0 in
  let lo := a / b in
  let r := a mod b in
  let hi := lo + 1 in
  let okLo := (0 <? lo) && eqb (ofDecimal false (Z.to_N lo) (n - k)) x in
  let okHi := eqb (ofDecimal false (Z.to_N hi) (n - k)) x in
  let useHi := if hi =? 10 ^ k then (1, n + 1) else (hi, n) in
  match okLo, okHi with
  | true, true =>
      if 2 * r <? b then (lo, n)
      else if b <? 2 * r then useHi
      else if Z.even lo then (lo, n) else useHi
  | true, false => (lo, n)
  | false, true => useHi
  | false, false =>
      match fuel with
      | O => (lo, n)
      | S f => shortestDigits f x a0 b0 n (k + 1)
      end
  end.

Fixpoint zeros (n : nat) : string :=
  match n with
  | O => ""
  | S n' => String "0" (zeros n')
  end.

Definition formatDigits (digits : string) (n : Z) : string :=
  let k := Z.of_nat (String.length digits) in
  if (k <=? n) && (n <=? 21) then digits +:+ zeros (Z.to_nat (n - k))
  else if (0 <? n) && (n <=? 21) then
    JsString.substring digits 0 n +:+ "." +:+ JsString.substringFrom digits n
  else if (-6 <? n) && (n <=? 0) then
    "0." +:+ zeros (Z.to_nat (- n)) +:+ digits
  else
    let x := n - 1 in
    let exponent :=
      (if x <? 0 then "-" else "+") +:+ digitsOfN (Z.to_N (Z.abs x)) in
    match digits with
    | String d EmptyString => digits +:+ "e" +:+ exponent
    | _ =>
        JsString.substring digits 0 1 +:+ "." +:+ JsString.substringFrom digits 1
          +:+ "e" +:+ exponent
    end.

Definition toStringPositive (m : positive) (e : Z) : string :=
  let a0 := if 0 <=? e then Zpos m * 2 ^ e else Zpos m in
  let b0 := if 0 <=? e then 1 else 2 ^ (- e) in
  let n := decimalExponent a0 b0 in
  let '(s, n') := shortestDigits 17 (S754_finite false m e) a0 b0 n 1 in
  formatDigits (digitsOfN (Z.to_N s)) n'.

(** [String(x)] *)
Definition toString (x : spec_float) : string :=
  match x with
  | S754_nan => "NaN"
  | S754_zero _ => "0"
  | S754_infinity false => "Infinity"
  | S754_infinity true => "-Infinity"
  | S754_finite false m e => toStringPositive m e
  | S754_finite true m e => "-" +:+ toStringPositive m e
  end.

End JsNumber.

(** ** Values

    What an expression can evaluate to.  An array carries the identity
    of the object it is ([ref]): JavaScript compares objects by identity,
    and the language has no operation that updates an array in place, so
    identity and contents together describe the object.  [VPredicate] is
    the object literal [{ '@predicate': ... }] that [_parseArguments]
    builds; [VUndefined] is what reading past the end of an array
    gives.  [VBuiltin name] is what the environment object inherits from
    [Object.prototype] under [name]: a built-in function, or, under
    [__proto__], [Object.prototype] itself. *)

#[warnings="-register-all"]
Inductive value : Type :=
| VUndefined
| VNumber (n : spec_float)
| VString (s : string)
| VBoolean (b : bool)
| VArray (ref : nat) (items : list value)
| VPredicate (predicate : string)
| VBuiltin (name : string).

Definition protoKey : string := "__proto__".

(** [Object.getOwnPropertyNames(Object.prototype)] *)
Definition inheritedNames : list string :=
  [ "constructor"; "__defineGetter__"; "__defineSetter__"; "hasOwnProperty";
    "__lookupGetter__"; "__lookupSetter__"; "isPrototypeOf";
    "propertyIsEnumerable"; "toString"; "valueOf"; protoKey;
    "toLocaleString" ].

(** [name in Object.prototype] *)
Definition isInherited (name : string) : bool :=
  List.existsb (String.eqb name) inheritedNames.

Module JsValue.

(** [Array.isArray(v)] *)
Definition isArray (v : value) : bool :=
  match v with
  | VArray _ _ => true
  | _ => false
  end.

(** Truthiness: [!!v] *)
Definition toBoolean (v : value) : bool :=
  match v with
  | VUndefined => false
  | VNumber n => negb (JsNumber.isZero n || JsNumber.isNaN n)
  | VString s => negb (String.eqb s "")
  | VBoolean b => b
  | VArray _ _ => true
  | VPredicate _ => true
  | VBuiltin _ => true
  end.

(** [Function.prototype.toString] on a built-in function, as Node
    prints it; the function under [constructor] is [Object]. *)
Definition nativeFunction (name : string) : string :=
  "function " +:+ (if String.eqb name "constructor" then "Object" else name)
    +:+ "() { [native code] }".

(** [String(v)]; an array joins its elements with a comma. *)
Fixpoint toString (v : value) : string :=
  match v with
  | VUndefined => "undefined"
  | VNumber n => JsNumber.toString n
  | VString s => s
  | VBoolean b => if b then "true" else "false"
  | VArray _ items =>
      JsString.join ","
        (List.map (fun item =>
                     match item with
                     | VUndefined => ""
                     | _ => toString item
                     end) items)
  | VPredicate _ => "[object Object]"
  | VBuiltin name =>
      if String.eqb name protoKey then "[object Object]" else nativeFunction name
  end.

(** [ToPrimitive]: objects become their string. *)
Definition toPrimitive (v : value) : value :=
  match v with
  | VArray _ _ => VString (toString v)
  | VPredicate _ => VString (toString v)
  | VBuiltin _ => VString (toString v)
  | _ => v
  end.

(** [Number(v)] *)
Definition toNumber (v : value) : spec_float :=
  match toPrimitive v with
  | VUndefined => JsNumber.NaN
  | VNumber n => n
  | VString s => JsNumber.ofString s
  | VBoolean b => if b then JsNumber.ofZ 1 else JsNumber.zero
  | _ => JsNumber.NaN
  end.

(** [a === b].  A [VPredicate] is a fresh object each time one is built
    and is never stored, so it is identical to nothing it is compared
    with; the objects inherited from [Object.prototype] are twelve
    different ones. *)
Definition strictEquals (a b : value) : bool :=
  match a, b with
  | VUndefined, VUndefined => true
  | VNumber x, VNumber y => JsNumber.eqb x y
  | VString x, VString y => String.eqb x y
  | VBoolean x, VBoolean y => Bool.eqb x y
  | VArray r1 _, VArray r2 _ => Nat.eqb r1 r2
  | VBuiltin x, VBuiltin y => String.eqb x y
  | _, _ => false
  end.

(** [SameValueZero], the comparison of [Array.prototype.includes]. *)
Definition sameValueZero (a b : value) : bool :=
  match a, b with
  | VNumber x, VNumber y =>
      JsNumber.eqb x y || (JsNumber.isNaN x && JsNumber.isNaN y)
  | _, _ => strictEquals a b
  end.

(** [a == n] for a number [n]. *)
Definition looseEqualsNumber (a : value) (n : spec_float) : bool :=
  match a with
  | VUndefined => false
  | _ => JsNumber.eqb (toNumber a) n
  end.

(** The abstract relational comparison [a < b]; [None] is its
    [undefined] answer (an operand is [NaN]). *)
Definition lessThan (a b : value) : option bool :=
  match toPrimitive a, toPrimitive b with
  | VString x, VString y => Some (JsString.ltb x y)
  | pa, pb =>
      let x := toNumber pa in
      let y := toNumber pb in
      if JsNumber.isNaN x || JsNumber.isNaN y then None
      else Some (JsNumber.ltb x y)
  end.

Definition isTrue (o : option bool) : bool :=
  match o with
  | Some true => true
  | _ => false
  end.

Definition isFalse (o : option bool) : bool :=
  match o with
  | Some false => true
  | _ => false
  end.

(** [a < b], [a > b], [a <= b], [a >= b] *)
Definition lt (a b : value) : bool := isTrue (lessThan a b).
Definition gt (a b : value) : bool := isTrue (lessThan b a).
Definition le (a b : value) : bool := isFalse (lessThan b a).
Definition ge (a b : value) : bool := isFalse (lessThan a b).

(** [a + b]: concatenation as soon as one operand is a string (or an
    object, which becomes one), addition of numbers otherwise. *)
Definition plus (a b : value) : value :=
  match toPrimitive a, toPrimitive b with
  | VString x, pb => VString (x +:+ toString pb)
  | pa, VString y => VString (toString pa +:+ y)
  | pa, pb => VNumber (JsNumber.add (toNumber pa) (toNumber pb))
  end.

(** [a - b], [a * b], [a / b] *)
Definition minus (a b : value) : value :=
  VNumber (JsNumber.sub (toNumber a) (toNumber b)).
Definition times (a b : value) : value :=
  VNumber (JsNumber.mul (toNumber a) (toNumber b)).
Definition divide (a b : value) : value :=
  VNumber (JsNumber.div (toNumber a) (toNumber b)).

(** [typeof v === 'string'], [typeof v === 'number'] *)
Definition isString (v : value) : bool :=
  match v with
  | VString _ => true
  | _ => false
  end.

Definition isNumber (v : value) : bool :=
  match v with
  | VNumber _ => true
  | _ => false
  end.

End JsValue.

(** ** The session: environment and effects *)

(** [this.environment], an object used as a map from names to values,
    together with the supply of identities for arrays created during the
    session.  The map holds the object's own properties; what it inherits
    from [Object.prototype] is [inheritedNames]. *)
Record state : Type := mkState {
  environment : gmap string value;
  nextRef : nat
}.

(** Where the model stops short of the program: the recursion budget of
    the embedding is used up; [matches] is given a pattern that is
    outside the fragment of [Regex.parse], or one that [new RegExp]
    rejects with a message of the engine's own wording; or an assignment
    to [__proto__] gives the environment object another prototype, after
    which the names it inherits are those of [Array.prototype] or
    [Function.prototype] in the engine at hand. *)
Inductive limit : Type :=
| OutOfFuel
| PatternSyntax
| PrototypeChange.

(** How a call ends: with a value, with a thrown [Error] (its message),
    or at a limit of the model. *)
Inductive outcome (A : Type) : Type :=
| Return (a : A)
| Throw (message : string)
| Beyond (l : limit).

Arguments Return {A} a.
Arguments Throw {A} message.
Arguments Beyond {A} l.

Definition M (A : Type) : Type := state -> outcome A * state.

Definition ret {A} (a : A) : M A := fun st => (Return a, st).

Definition throw {A} (message : string) : M A := fun st => (Throw message, st).

Definition beyond {A} (l : limit) : M A := fun st => (Beyond l, st).

Definition bind {A B} (m : M A) (k : A -> M B) : M B :=
  fun st =>
    match m st with
    | (Return a, st') => k a st'
    | (Throw message, st') => (Throw message, st')
    | (Beyond l, st') => (Beyond l, st')
    end.

Notation "'let*' x ':=' m 'in' k" := (bind m (fun x => k))
  (at level 10, x name, m at level 100, k at level 200).

(** [try { body } catch (e) { handler(e.message) }] *)
Definition catch {A} (body : M A) (handler : string -> M A) : M A :=
  fun st =>
    match body st with
    | (Throw message, st') => handler message st'
    | r => r
    end.

(** [try { body } finally { cleanup }] *)
Definition finally {A} (body : M A) (cleanup : state -> state) : M A :=
  fun st => let '(r, st') := body st in (r, cleanup st').

(** [name in this.environment ? this.environment[name] : absent]: an own
    property first, then what [Object.prototype] has under that name. *)
Definition lookupEnv (name : string) : M (option value) :=
  fun st =>
    (Return
       match environment st !! name with
       | Some v => Some v
       | None => if isInherited name then Some (VBuiltin name) else None
       end,
     st).

Definition setEnv (name : string) (v : value) (st : state) : state :=
  mkState (<[name := v]> (environment st)) (nextRef st).

Definition deleteEnv (name : string) (st : state) : state :=
  mkState (delete name (environment st)) (nextRef st).

(** What the setter of [Object.prototype.__proto__] does with the value
    it is given: nothing when the value is not an object or is the
    prototype the environment already has; otherwise the value becomes
    the prototype. *)
Definition protoSetter (v : value) : M unit :=
  match v with
  | VArray _ _ | VPredicate _ => beyond PrototypeChange
  | VBuiltin name =>
      if String.eqb name protoKey then ret tt else beyond PrototypeChange
  | _ => ret tt
  end.

(** [this.environment[name] = v]: a property of the environment object
    is written or created, except that [__proto__], while the object has
    no property of its own by that name, is the accessor it inherits. *)
Definition assign (name : string) (v : value) : M unit :=
  fun st =>
    if String.eqb name protoKey then
      match environment st !! name with
      | Some _ => (Return tt, setEnv name v st)
      | None => protoSetter v st
      end
    else (Return tt, setEnv name v st).

(** [delete this.environment[name]] *)
Definition unbind (name : string) : M unit :=
  fun st => (Return tt, deleteEnv name st).

(** A new array object. *)
Definition newArray (items : list value) : M value :=
  fun st =>
    (Return (VArray (nextRef st) items),
     mkState (environment st) (S (nextRef st))).

Fixpoint mapM {A B} (f : A -> M B) (l : list A) : M (list B) :=
  match l with
  | [] => ret []
  | x :: rest =>
      let* y := f x in
      let* ys := mapM f rest in
      ret (y :: ys)
  end.

(** [collection.filter(callback)]: the items whose callback result is
    truthy. *)
Fixpoint filterItems (callback : value -> M value) (items : list value)
  : M (list value) :=
  match items with
  | [] => ret []
  | item :: rest =>
      let* r := callback item in
      let* kept := filterItems callback rest in
      ret (if JsValue.toBoolean r then item :: kept else kept)
  end.

(** [collection.every(callback)]: stops at the first falsy result. *)
Fixpoint everyItem (callback : value -> M value) (items : list value)
  : M bool :=
  match items with
  | [] => ret true
  | item :: rest =>
      let* r := callback item in
      if JsValue.toBoolean r then everyItem callback rest else ret false
  end.

(** [collection.some(callback)]: stops at the first truthy result. *)
Fixpoint someItem (callback : value -> M value) (items : list value)
  : M bool :=
  match items with
  | [] => ret false
  | item :: rest =>
      let* r := callback item in
      if JsValue.toBoolean r then ret true else someItem callback rest
  end.

(** ** The regular expressions of the source *)

Definition doubleQuote : ascii := "034".
Definition singleQuote : ascii := "'".
Definition backslash : ascii := "\".

Module Patterns.
Import Regex.

(** A letter or underscore, then letters, digits and underscores. *)
Definition identifier : regex :=
  Seq (Class JsString.isIdentStart) (Star (Class JsString.isIdentPart)).

Definition notChr (q : ascii) : regex :=
  Class (fun c => negb (Ascii.eqb c q)).

(** The "special case for string comparison" pattern: a quoted literal,
    [==], a quoted literal, with [\s*] around the operator and nothing
    else; [q] is the quote character, double or single. *)
Definition stringComparison (q : ascii) : regex :=
  Cat [Bos; Chr q; Star (notChr q); Chr q; Star ws; Lit "=="; Star ws;
       Chr q; Star (notChr q); Chr q; Eos].

(** [(filter|all|any)] *)
Definition collectionFunction : regex :=
  Alt (Lit "filter") (Alt (Lit "all") (Lit "any")).

(** The first collection pattern: the function name, an opening
    parenthesis, an identifier, a comma and the text [{@it], anchored at
    the start only. *)
Definition collectionCallStart : regex :=
  Cat [Bos; Group 1 collectionFunction; Star ws; Chr "("; Star ws;
       identifier; Star ws; Chr ","; Star ws; Lit "{@it"].

(** The second collection pattern: the function name (group 1), an
    opening parenthesis, an identifier (group 2), a comma, an opening
    brace, [.+] (group 3), and a closing brace and parenthesis at the
    end of the input. *)
Definition collectionCall : regex :=
  Cat [Bos; Group 1 collectionFunction; Star ws; Chr "("; Star ws;
       Group 2 identifier; Star ws; Chr ","; Star ws; Chr "{";
       Group 3 (Plus dot); Lit "})"; Eos].

(** [@it], a comparison operator and a run of digits (group 1), with
    [\s*] around the operator. *)
Definition itComparison (op : string) : regex :=
  Cat [Bos; Lit "@it"; Star ws; Lit op; Star ws; Group 1 (Plus digit); Eos].

(** A parenthesized operand without inner parentheses, one of the four
    arithmetic operators, and [.+] to the end. *)
Definition parenthesizedOperand : regex :=
  Cat [Bos; Chr "("; Plus (noneOf "()"); Chr ")"; Star ws; oneOf "*/+-";
       Star ws; Plus dot; Eos].

(** A parenthesized text without inner parentheses. *)
Definition parenthesized : regex :=
  Cat [Chr "("; Plus (noneOf "()"); Chr ")"].

(** Two such operands (groups 1 and 3) around [&&] or [||] (group 2). *)
Definition parenthesizedLogical : regex :=
  Cat [Bos; Group 1 parenthesized; Star ws;
       Group 2 (Alt (Lit "&&") (Lit "||")); Star ws;
       Group 3 parenthesized; Eos].

(** An identifier (group 1) and a run of digits in brackets (group 2). *)
Definition arrayAccess : regex :=
  Cat [Bos; Group 1 identifier; Chr "["; Group 2 (Plus digit); Chr "]"; Eos].

(** An identifier and nothing else. *)
Definition variableReference : regex :=
  Cat [Bos; identifier; Eos].

(** The class of the four arithmetic operators. *)
Definition isArithmeticOperator (c : ascii) : bool :=
  JsString.includes "*/+-" (String c EmptyString).

End Patterns.

(** ** Scanning with string literals and parentheses in mind

    [_evaluateFunctionCall], [_parseArguments] and [_splitExpression]
    each walk over the text keeping [inString], [stringChar] and
    [parenDepth].  [prev] is the code unit before the current one, [None]
    at index 0. *)

Definition quoteState : Type := (bool * option ascii)%type.

Definition escaped (prev : option ascii) : bool :=
  match prev with
  | Some p => Ascii.eqb p backslash
  | None => false
  end.

(** The "Handle strings" step of the three loops. *)
Definition quoteStep (char : ascii) (prev : option ascii) (q : quoteState)
  : quoteState :=
  let '(inString, stringChar) := q in
  if (Ascii.eqb char doubleQuote || Ascii.eqb char singleQuote)
     && negb (escaped prev)
  then
    if negb inString then (true, Some char)
    else
      match stringChar with
      | Some c => if Ascii.eqb char c then (false, stringChar) else q
      | None => q
      end
  else q.

(** The "Handle parentheses" step of [_parseArguments] and
    [_splitExpression]. *)
Definition parenStep (char : ascii) (inString : bool) (parenDepth : Z) : Z :=
  if inString then parenDepth
  else if Ascii.eqb char "(" then parenDepth + 1
  else if Ascii.eqb char ")" then parenDepth - 1
  else parenDepth.

(** The loop of [_splitExpression]: the first index, outside string
    literals and parentheses, at which [operator] starts. *)
Fixpoint splitScan (operator rest : string) (i : Z) (prev : option ascii)
    (q : quoteState) (parenDepth : Z) : option Z :=
  match rest with
  | EmptyString => None
  | String char rest' =>
      let q' := quoteStep char prev q in
      let parenDepth' := parenStep char (fst q') parenDepth in
      if negb (fst q') && (parenDepth' =? 0) && String.prefix operator rest
      then Some i
      else splitScan operator rest' (i + 1) (Some char) q' parenDepth'
  end.

Definition operatorNotFound (operator expr : string) : string :=
  "Operator '" +:+ operator +:+ "' not found in expression: " +:+ expr.

(** [_splitExpression(expr, operator)] *)
Definition _splitExpression (expr operator : string) : M (string * string) :=
  let multIndex :=
    if String.eqb operator "*" && JsString.includes expr "("
       && JsString.includes expr ")"
    then
      let parenCloseIndex := JsString.lastIndexOf expr ")" in
      JsString.indexOfFrom expr "*" parenCloseIndex
    else -1 in
  if 0 <? multIndex then
    ret (JsString.trim (JsString.substring expr 0 multIndex),
         JsString.trim (JsString.substringFrom expr (multIndex + 1)))
  else
    match splitScan operator expr 0 None (false, None) 0 with
    | Some i =>
        ret (JsString.trim (JsString.substring expr 0 i),
             JsString.trim
               (JsString.substringFrom expr (i + Z.of_nat (String.length operator))))
    | None =>
        if String.eqb operator "&&" || String.eqb operator "||" then
          match JsString.split expr operator with
          | [l; r] => ret (JsString.trim l, JsString.trim r)
          | _ => throw (operatorNotFound operator expr)
          end
        else throw (operatorNotFound operator expr)
    end.

(** The loop of [_evaluateFunctionCall]: the index of the parenthesis
    that closes the call, [closeParenIndex] when none is found. *)
Fixpoint findCloseParen (rest : string) (i : Z) (prev : option ascii)
    (q : quoteState) (parenDepth : Z) (closeParenIndex : Z) : Z :=
  match rest with
  | EmptyString => closeParenIndex
  | String char rest' =>
      let q' := quoteStep char prev q in
      if negb (fst q') then
        if Ascii.eqb char "(" then
          findCloseParen rest' (i + 1) (Some char) q' (parenDepth + 1) closeParenIndex
        else if Ascii.eqb char ")" then
          if parenDepth =? 0 then i
          else findCloseParen rest' (i + 1) (Some char) q' (parenDepth - 1) closeParenIndex
        else findCloseParen rest' (i + 1) (Some char) q' parenDepth closeParenIndex
      else findCloseParen rest' (i + 1) (Some char) q' parenDepth closeParenIndex
  end.

(** ** Formatting *)

(** [_formatValue(value)] *)
Fixpoint _formatValue (v : value) : string :=
  match v with
  | VUndefined => "undefined"
  | VBoolean b => if b then "True" else "False"
  | VString s => String doubleQuote s +:+ String doubleQuote EmptyString
  | VArray _ items => "[" +:+ JsString.join ", " (List.map _formatValue items) +:+ "]"
  | VNumber n => JsNumber.toString n
  | VPredicate _ => JsValue.toString v
  | VBuiltin _ => JsValue.toString v
  end.

(** ** The evaluator

    [_evaluateExpression] calls itself on pieces of its argument, directly
    and through [_evaluateFunctionCall] and [_parseArguments].  The three
    are written here over [self], the recursive call, and the knot is
    tied afterwards. *)

Definition itKey : string := "@it".

Definition itUnavailable : string :=
  "Variable @it is only available within collection function predicates".

Definition notDefined (name : string) : string :=
  "Variable '" +:+ name +:+ "' is not defined".

Definition notAnArray (name : string) : string :=
  "Variable '" +:+ name +:+ "' is not an array".

(** The body of the named functions: the [switch (functionName)] of
    [_evaluateFunctionCall], with the arguments already evaluated.  A
    pattern that [new RegExp] rejects makes [matches] throw a message
    that ends in the engine's own account of what is wrong with it; the
    model stops there. *)
Definition callFunction (functionName : string) (args : list value) : M value :=
  if String.eqb functionName "len" then
    match args with
    | [VString s] => ret (VNumber (JsNumber.ofNat (String.length s)))
    | [VArray _ items] => ret (VNumber (JsNumber.ofNat (List.length items)))
    | [_] => throw "len() argument must be a string or array"
    | _ => throw "len() requires exactly one argument"
    end
  else if String.eqb functionName "contains" then
    match args with
    | [VString s; VString t] => ret (VBoolean (JsString.includes s t))
    | [VArray _ items; x] =>
        ret (VBoolean (List.existsb (fun item => JsValue.sameValueZero item x) items))
    | [_; _] => throw "contains() first argument must be a string or array"
    | _ => throw "contains() requires exactly two arguments"
    end
  else if String.eqb functionName "startsWith" then
    match args with
    | [VString s; VString t] => ret (VBoolean (JsString.startsWith s t))
    | [_; _] => throw "startsWith() arguments must be strings"
    | _ => throw "startsWith() requires exactly two arguments"
    end
  else if String.eqb functionName "endsWith" then
    match args with
    | [VString s; VString t] => ret (VBoolean (JsString.endsWith s t))
    | [_; _] => throw "endsWith() arguments must be strings"
    | _ => throw "endsWith() requires exactly two arguments"
    end
  else if String.eqb functionName "substring" then
    match args with
    | [VString s; VNumber a; VNumber b] =>
        let len := String.length s in
        ret (VString (JsString.substring s (JsNumber.toIndex a len)
                        (JsNumber.toIndex b len)))
    | [_; _; _] => throw "substring() invalid arguments"
    | _ => throw "substring() requires exactly three arguments"
    end
  else if String.eqb functionName "isEmpty" then
    match args with
    | [VString s] => ret (VBoolean (String.length s =? 0)%nat)
    | [VArray _ items] => ret (VBoolean (List.length items =? 0)%nat)
    | [_] => throw "isEmpty() argument must be a string or array"
    | _ => throw "isEmpty() requires exactly one argument"
    end
  else if String.eqb functionName "matches" then
    match args with
    | [VString s; VString pattern] =>
        match Regex.compile pattern with
        | Regex.Pattern r => ret (VBoolean (Regex.test r s))
        | Regex.SyntaxError => beyond PatternSyntax
        | Regex.OutsideFragment => beyond PatternSyntax
        end
    | [_; _] => throw "matches() arguments must be strings"
    | _ => throw "matches() requires exactly two arguments"
    end
  else throw ("Unknown function: " +:+ functionName).

Section Evaluator.

(** [this._evaluateExpression] *)
Variable self : string -> M value.

(** The callback of the collection functions in [_evaluateFunctionCall]:
    bind [@it], evaluate the predicate, and delete the binding in a
    [finally]. *)
Definition predicateCallback (predicate : string) (item : value) : M value :=
  let* _ := assign itKey item in
  finally (self predicate) (deleteEnv itKey).

(** The loop over the "regular arguments" of [_parseArguments]. *)
Fixpoint parseArgumentsLoop (rest : string) (prev : option ascii)
    (currentArg : string) (q : quoteState) (parenDepth : Z)
    (args : list value) : M (list value) :=
  match rest with
  | EmptyString =>
      if negb (String.eqb (JsString.trim currentArg) "") then
        let* v := self (JsString.trim currentArg) in
        ret (args ++ [v])%list
      else ret args
  | String char rest' =>
      let q' := quoteStep char prev q in
      let parenDepth' := parenStep char (fst q') parenDepth in
      if Ascii.eqb char "," && negb (fst q') && (parenDepth' =? 0) then
        let* v := self (JsString.trim currentArg) in
        parseArgumentsLoop rest' (Some char) "" q' parenDepth' (args ++ [v])%list
      else
        parseArgumentsLoop rest' (Some char)
          (currentArg +:+ String char EmptyString) q' parenDepth' args
  end.

(** [_parseArguments(argsString)] *)
Definition _parseArguments (argsString : string) : M (list value) :=
  if JsString.includes argsString "{@it" then
    let commaIndex := JsString.indexOf argsString "," in
    if commaIndex =? -1 then throw "Invalid function arguments"
    else
      let firstArg := JsString.trim (JsString.substring argsString 0 commaIndex) in
      let predicateExpr :=
        JsString.trim (JsString.substringFrom argsString (commaIndex + 1)) in
      if negb (JsString.startsWith predicateExpr "{")
         || negb (JsString.endsWith predicateExpr "}")
      then throw "Predicate must be enclosed in {}"
      else
        let predicate :=
          JsString.trim
            (JsString.substring predicateExpr 1
               (Z.of_nat (String.length predicateExpr) - 1)) in
        let* firstArgValue := self firstArg in
        ret [firstArgValue; VPredicate predicate]
  else parseArgumentsLoop argsString None "" (false, None) 0 [].

Definition isCollectionFunction (functionName : string) : bool :=
  String.eqb functionName "filter" || String.eqb functionName "all"
  || String.eqb functionName "any".

(** [_evaluateFunctionCall(expr)] *)
Definition _evaluateFunctionCall (expr : string) : M value :=
  let openParenIndex := JsString.indexOf expr "(" in
  let functionName := JsString.trim (JsString.substring expr 0 openParenIndex) in
  let closeParenIndex :=
    findCloseParen (JsString.substringFrom expr (openParenIndex + 1))
      (openParenIndex + 1) (JsString.charAt expr openParenIndex)
      (false, None) 0 (Z.of_nat (String.length expr) - 1) in
  let argsString :=
    JsString.trim (JsString.substring expr (openParenIndex + 1) closeParenIndex) in
  if isCollectionFunction functionName && JsString.includes argsString "{@it" then
    let commaIndex := JsString.indexOf argsString "," in
    if commaIndex =? -1 then throw (functionName +:+ "() requires two arguments")
    else
      let collectionExpr :=
        JsString.trim (JsString.substring argsString 0 commaIndex) in
      let predicateExpr :=
        JsString.trim (JsString.substringFrom argsString (commaIndex + 1)) in
      if negb (JsString.startsWith predicateExpr "{")
         || negb (JsString.endsWith predicateExpr "}")
      then throw (functionName +:+ "() predicate must be enclosed in {}")
      else
        let predicate :=
          JsString.trim
            (JsString.substring predicateExpr 1
               (Z.of_nat (String.length predicateExpr) - 1)) in
        let* collection := self collectionExpr in
        match collection with
        | VArray _ items =>
            if String.eqb functionName "filter" then
              let* kept := filterItems (predicateCallback predicate) items in
              newArray kept
            else if String.eqb functionName "all" then
              let* b := everyItem (predicateCallback predicate) items in
              ret (VBoolean b)
            else
              let* b := someItem (predicateCallback predicate) items in
              ret (VBoolean b)
        | _ => throw (functionName +:+ "() first argument must be an array")
        end
  else
    let* args :=
      (if String.eqb argsString "" then ret [] else _parseArguments argsString) in
    callFunction functionName args.

(** The six [@it OP number] patterns, tried in the order of the
    source. *)
Definition itComparisons (expr : string) (itValue : value) : option value :=
  let number (m : Regex.captures) : value :=
    VNumber (JsNumber.parseFloat (Regex.group m 1)) in
  let try (op : string) (compare : value -> Regex.captures -> bool)
      (otherwise : option value) : option value :=
    match Regex.exec (Patterns.itComparison op) expr with
    | Some m => Some (VBoolean (compare itValue m))
    | None => otherwise
    end in
  try ">" (fun it m => JsValue.gt it (number m))
  (try "<" (fun it m => JsValue.lt it (number m))
  (try ">=" (fun it m => JsValue.ge it (number m))
  (try "<=" (fun it m => JsValue.le it (number m))
  (try "==" (fun it m =>
     JsValue.looseEqualsNumber it (JsNumber.parseFloat (Regex.group m 1)))
  (try "!=" (fun it m =>
     negb (JsValue.looseEqualsNumber it (JsNumber.parseFloat (Regex.group m 1))))
  None))))).

(** "Handle @it in comparison expressions"; [otherwise] is the rest of
    [_evaluateExpression], reached when no pattern applies. *)
Definition itBlock (expr : string) (otherwise : M value) : M value :=
  if JsString.includes expr "@it" then
    let* it := lookupEnv itKey in
    match it with
    | Some itValue =>
        match itComparisons expr itValue with
        | Some v => ret v
        | None => otherwise
        end
    | None => throw itUnavailable
    end
  else otherwise.

(** The [switch (operator)] of the parenthesized-operand case. *)
Definition applyOperator (operator : ascii) (leftValue rightValue : value)
  : M value :=
  if Ascii.eqb operator "*" then ret (JsValue.times leftValue rightValue)
  else if Ascii.eqb operator "/" then ret (JsValue.divide leftValue rightValue)
  else if Ascii.eqb operator "+" then ret (JsValue.plus leftValue rightValue)
  else if Ascii.eqb operator "-" then ret (JsValue.minus leftValue rightValue)
  else throw ("Unknown operator: " +:+ String operator EmptyString).

(** "Special case for complex expressions with parentheses and
    operators"; [otherwise] is the rest of [_evaluateExpression]. *)
Definition parenthesizedBlock (expr : string) (otherwise : M value) : M value :=
  let logical :=
    match Regex.exec Patterns.parenthesizedLogical expr with
    | Some m =>
        let leftExpr := Regex.group m 1 in
        let operator := Regex.group m 2 in
        let rightExpr := Regex.group m 3 in
        let* leftValue := self leftExpr in
        if String.eqb operator "&&" && negb (JsValue.toBoolean leftValue)
        then ret (VBoolean false)
        else if String.eqb operator "||" && JsValue.toBoolean leftValue
        then ret (VBoolean true)
        else
          let* rightValue := self rightExpr in
          if String.eqb operator "&&"
          then ret (if JsValue.toBoolean leftValue then rightValue else leftValue)
          else ret (if JsValue.toBoolean leftValue then leftValue else rightValue)
    | None => otherwise
    end in
  if JsString.includes expr "(" && JsString.includes expr ")" then
    if Regex.test Patterns.parenthesizedOperand expr then
      let closingParenIndex := JsString.indexOf expr ")" in
      let tail := JsString.substringFrom expr closingParenIndex in
      let operatorIndex := JsString.search tail Patterns.isArithmeticOperator in
      if negb (operatorIndex =? -1) then
        match JsString.charAt tail operatorIndex with
        | Some operator =>
            let leftExpr := JsString.substring expr 0 (closingParenIndex + 1) in
            let rightExpr :=
              JsString.substringFrom expr (closingParenIndex + operatorIndex + 1) in
            let* leftValue := self leftExpr in
            let* rightValue := self rightExpr in
            applyOperator operator leftValue rightValue
        | None => throw "Cannot read properties of undefined (reading 'trim')"
        end
      else logical
    else logical
  else otherwise.

(** [_splitExpression] on [operator], then the left operand and the
    right operand evaluated in that order. *)
Definition operands (expr operator : string) : M (value * value) :=
  let* parts := _splitExpression expr operator in
  let* leftValue := self (fst parts) in
  let* rightValue := self (snd parts) in
  ret (leftValue, rightValue).

(** The body of [_evaluateExpression(expr)]. *)
Definition evaluateExpressionBody (expr0 : string) : M value :=
  let expr := JsString.trim expr0 in
  let inner := JsString.substring expr 1 (Z.of_nat (String.length expr) - 1) in
  if String.eqb expr "" then throw "Empty expression"
  else if String.eqb expr "@it" then
    let* it := lookupEnv itKey in
    match it with
    | Some v => ret v
    | None => throw itUnavailable
    end
  else
  itBlock expr (
  if String.eqb expr "true" || String.eqb expr "True" then ret (VBoolean true)
  else if String.eqb expr "false" || String.eqb expr "False" then ret (VBoolean false)
  else
  parenthesizedBlock expr (
  if JsString.startsWith expr "(" && JsString.endsWith expr ")" then self inner
  else if (JsString.startsWith expr (String doubleQuote "")
           && JsString.endsWith expr (String doubleQuote ""))
          || (JsString.startsWith expr "'" && JsString.endsWith expr "'")
  then ret (VString inner)
  else if JsString.startsWith expr "[" && JsString.endsWith expr "]" then
    let content := JsString.trim inner in
    if String.eqb content "" then newArray []
    else
      let* items :=
        mapM (fun item => self (JsString.trim item)) (JsString.split content ",") in
      newArray items
  else
  match Regex.exec Patterns.arrayAccess expr with
  | Some m =>
      let varName := Regex.group m 1 in
      let index := JsNumber.parseInt (Regex.group m 2) in
      let* bound := lookupEnv varName in
      match bound with
      | None => throw (notDefined varName)
      | Some (VArray _ items) =>
          if JsNumber.leb (JsNumber.ofNat (List.length items)) index
          then throw ("Index out of bounds: " +:+ JsNumber.toString index)
          else ret (List.nth (Z.to_nat (JsNumber.truncate index)) items VUndefined)
      | Some _ => throw (notAnArray varName)
      end
  | None =>
  if JsString.includes expr "(" && JsString.endsWith expr ")"
  then _evaluateFunctionCall expr
  else if JsString.includes expr "==" then
    let* p := operands expr "==" in
    ret (VBoolean (JsValue.strictEquals (fst p) (snd p)))
  else if JsString.includes expr "!=" then
    let* p := operands expr "!=" in
    ret (VBoolean (negb (JsValue.strictEquals (fst p) (snd p))))
  else if JsString.includes expr ">=" then
    let* p := operands expr ">=" in
    ret (VBoolean (JsValue.ge (fst p) (snd p)))
  else if JsString.includes expr "<=" then
    let* p := operands expr "<=" in
    ret (VBoolean (JsValue.le (fst p) (snd p)))
  else if JsString.includes expr ">" then
    let* p := operands expr ">" in
    ret (VBoolean (JsValue.gt (fst p) (snd p)))
  else if JsString.includes expr "<" then
    let* p := operands expr "<" in
    ret (VBoolean (JsValue.lt (fst p) (snd p)))
  else if JsString.includes expr "+" then
    let* p := operands expr "+" in
    ret (JsValue.plus (fst p) (snd p))
  else if JsString.includes expr "-" && negb (JsString.startsWith expr "-") then
    let* p := operands expr "-" in
    ret (JsValue.minus (fst p) (snd p))
  else if JsString.includes expr "*" then
    let* p := operands expr "*" in
    ret (JsValue.times (fst p) (snd p))
  else if JsString.includes expr "/" then
    let* parts := _splitExpression expr "/" in
    let* rightValue := self (snd parts) in
    if JsValue.strictEquals rightValue (VNumber JsNumber.zero)
    then throw "Division by zero"
    else
      let* leftValue := self (fst parts) in
      ret (JsValue.divide leftValue rightValue)
  else if JsString.includes expr "&&" then
    let* parts := _splitExpression expr "&&" in
    let* leftValue := self (fst parts) in
    if JsValue.toBoolean leftValue then self (snd parts) else ret leftValue
  else if JsString.includes expr "||" then
    let* parts := _splitExpression expr "||" in
    let* leftValue := self (fst parts) in
    if JsValue.toBoolean leftValue then ret leftValue else self (snd parts)
  else if JsString.startsWith expr "!" || JsString.startsWith expr "not " then
    let operand :=
      if JsString.startsWith expr "!" then JsString.substringFrom expr 1
      else JsString.substringFrom expr 4 in
    let* v := self operand in
    ret (VBoolean (negb (JsValue.toBoolean v)))
  else if negb (JsNumber.isNaN (JsNumber.parseFloat expr))
  then ret (VNumber (JsNumber.parseFloat expr))
  else if Regex.test Patterns.variableReference expr then
    let* bound := lookupEnv expr in
    match bound with
    | Some v => ret v
    | None => throw (notDefined expr)
    end
  else throw ("Unknown expression: " +:+ expr)
  end)).

End Evaluator.

(** [_evaluateExpression(expr)]: every recursive call takes one unit of
    [fuel]. *)
Fixpoint _evaluateExpression (fuel : nat) (expr : string) : M value :=
  match fuel with
  | O => beyond OutOfFuel
  | S fuel' => evaluateExpressionBody (_evaluateExpression fuel') expr
  end.

(** The "Handle variable assignment" test of [_evaluateStatement]. *)
Definition isAssignment (statement : string) : bool :=
  JsString.includes statement "="
  && negb (JsString.includes statement "==")
  && negb (JsString.includes statement ">=")
  && negb (JsString.includes statement "<=")
  && negb (JsString.includes statement "!=").

(** [statement.split('=').map(s => s.trim())], of which the first two
    elements are [varName] and [valueExpr]. *)
Definition assignmentParts (statement : string) : list string :=
  List.map JsString.trim (JsString.split statement "=").

(** [_evaluateStatement(statement)]; the JavaScript function wraps the
    value in [{ success: true, value }], and every caller reads [value]
    back out of it. *)
Definition _evaluateStatement (fuel : nat) (statement0 : string) : M value :=
  let statement := JsString.trim statement0 in
  if isAssignment statement then
    let parts := assignmentParts statement in
    let varName := List.nth 0 parts "" in
    let valueExpr := List.nth 1 parts "" in
    let* v := _evaluateExpression fuel valueExpr in
    let* _ := assign varName v in
    ret v
  else _evaluateExpression fuel statement.

(** ** The public entry point *)

(** [{ success: true, result }] or [{ success: false, error }] *)
Inductive EvalResult : Type :=
| Success (result : string)
| Failure (error : string).

(** The [for (const statement of statements)] loop of [evaluate];
    [result] is [None] while it is still [undefined]. *)
Fixpoint runStatements (fuel : nat) (statements : list string)
    (result : option value) : M (option value) :=
  match statements with
  | [] => ret result
  | statement :: rest =>
      let* v := _evaluateStatement fuel statement in
      runStatements fuel rest (Some v)
  end.

(** The callback of the collection functions in [evaluate]: the binding
    of [@it] is deleted after the predicate returns, outside any
    [finally]. *)
Definition entryCallback (fuel : nat) (predicate : string) (item : value)
  : M value :=
  let* _ := assign itKey item in
  let* evalResult := _evaluateExpression fuel predicate in
  let* _ := unbind itKey in
  ret evalResult.

(** "Special case for filter, all, any functions" of [evaluate], once
    both patterns have matched. *)
Definition evaluateCollection (fuel : nat)
    (functionName collectionName predicate : string) : M EvalResult :=
  let* bound := lookupEnv collectionName in
  match bound with
  | None => ret (Failure (notDefined collectionName))
  | Some (VArray _ items) =>
      catch
        (let* result :=
           (if String.eqb functionName "filter" then
              let* kept := filterItems (entryCallback fuel predicate) items in
              newArray kept
            else if String.eqb functionName "all" then
              let* b := everyItem (entryCallback fuel predicate) items in
              ret (VBoolean b)
            else
              let* b := someItem (entryCallback fuel predicate) items in
              ret (VBoolean b)) in
         ret (Success (_formatValue result)))
        (fun message =>
           ret (Failure ("Error evaluating " +:+ functionName +:+ "(): " +:+ message)))
  | Some _ => ret (Failure (notAnArray collectionName))
  end.

Definition unquote (part : string) : string :=
  JsString.substring part 1 (Z.of_nat (String.length part) - 1).

Definition nonEmpty (s : string) : bool := (0 <? String.length s)%nat.

(** The test of the "special case for string comparison". *)
Definition isStringComparison (expr : string) : bool :=
  Regex.test (Patterns.stringComparison doubleQuote) expr
  || Regex.test (Patterns.stringComparison singleQuote) expr.

(** [expr.split(';').map(stmt => stmt.trim()).filter(stmt => stmt.length > 0)] *)
Definition statementsOf (expr : string) : list string :=
  List.filter nonEmpty (List.map JsString.trim (JsString.split expr ";")).

(** [evaluate(expr)].  The recursion budget is the length of the input
    plus one: every recursive call of [_evaluateExpression] is on a
    strictly shorter text. *)
Definition evaluate (expr : string) : M EvalResult :=
  let fuel := S (String.length expr) in
  if String.eqb (JsString.trim expr) "" then
    ret (Failure "Expression cannot be empty")
  else
    catch
      (if isStringComparison expr then
         let parts := List.map JsString.trim (JsString.split expr "==") in
         let left := unquote (List.nth 0 parts "") in
         let right := unquote (List.nth 1 parts "") in
         ret (Success (if String.eqb left right then "True" else "False"))
       else if JsString.includes expr ";" then
         let statements := statementsOf expr in
         let* result := runStatements fuel statements None in
         match result with
         | Some v => ret (Success (_formatValue v))
         | None => throw "Cannot read properties of undefined (reading 'value')"
         end
       else
         let statement :=
           let* v := _evaluateStatement fuel expr in
           ret (Success (_formatValue v)) in
         if Regex.test Patterns.collectionCallStart expr then
           match Regex.exec Patterns.collectionCall expr with
           | Some m =>
               evaluateCollection fuel (Regex.group m 1) (Regex.group m 2)
                 (Regex.group m 3)
           | None => statement
           end
         else statement)
      (fun message => ret (Failure ("Error evaluating expression: " +:+ message))).

(** [new ExpressionLanguageParser()]: the environment starts with
    [myCollection] bound to a new array of 1, 2 and 3. *)
Definition myCollection : value :=
  VArray 0 [VNumber (JsNumber.ofZ 1); VNumber (JsNumber.ofZ 2);
            VNumber (JsNumber.ofZ 3)].

Definition constructor : state :=
  mkState {[ "myCollection" := myCollection ]} 1.

(** A sequence of calls to [evaluate] on one parser, with the results in
    order; where the model stops short of a call, it has nothing to say
    of the calls after it. *)
Fixpoint session (inputs : list string) (st : state)
  : list (outcome EvalResult) * state :=
  match inputs with
  | [] => ([], st)
  | expr :: rest =>
      match evaluate expr st with
      | (Beyond l, st') => ([Beyond l], st')
      | (r, st') =>
          let '(rs, st'') := session rest st' in
          (r :: rs, st'')
      end
  end.

(** The result of the last of a sequence of calls on a new parser. *)
Definition lastResult (inputs : list string) : option (outcome EvalResult) :=
  List.last (List.map Some (fst (session inputs constructor))) None.

Definition quoted (s : string) : string :=
  String doubleQuote s +:+ String doubleQuote EmptyString.

(** ** Predicates used in the statements *)

(** [st'] has the environment of [st], but for the key [@it], which may
    have been deleted. *)
Definition unchangedButIt (st st' : state) : Prop :=
  environment st' = environment st
  \/ environment st' = delete itKey (environment st).

(** A computation that leaves every binding but [@it] alone, however it
    ends. *)
Definition preserves {A} (m : M A) : Prop :=
  forall st, unchangedButIt st (snd (m st)).

(** A computation without any effect on the session. *)
Definition pure {A} (m : M A) : Prop :=
  forall st, snd (m st) = st.

(** The input is taken by the "special case for filter, all, any" of
    [evaluate]: both of its patterns match. *)
Definition isEntryCollectionCall (expr : string) : bool :=
  Regex.test Patterns.collectionCallStart expr
  && match Regex.exec Patterns.collectionCall expr with
     | Some _ => true
     | None => false
     end.

(** A computation that stays within the recursion budget. *)
Definition withinBudget {A} (m : M A) : Prop :=
  forall st, fst (m st) <> Beyond OutOfFuel.

(** [m2] ends as [m1] does wherever [m1] stays within the budget. *)
Definition refines {A} (m1 m2 : M A) : Prop :=
  forall st, fst (m1 st) <> Beyond OutOfFuel -> m2 st = m1 st.

(** A pattern without capture groups, and the least number of code
    units a match of a pattern consumes. *)
Fixpoint groupless (r : Regex.regex) : bool :=
  match r with
  | Regex.Seq r1 r2 | Regex.Alt r1 r2 => groupless r1 && groupless r2
  | Regex.Star r0 => groupless r0
  | Regex.Group _ _ => false
  | _ => true
  end.

Fixpoint minLength (r : Regex.regex) : nat :=
  match r with
  | Regex.Chr _ | Regex.Class _ => 1
  | Regex.Seq r1 r2 => minLength r1 + minLength r2
  | Regex.Alt r1 r2 => Nat.min (minLength r1) (minLength r2)
  | Regex.Group _ r0 => minLength r0
  | _ => 0
  end.

Definition totalLength (l : list string) : nat :=
  List.fold_right (fun s n => (String.length s + n)%nat) O l.

(** The kind of a value, as [typeof] and [Array.isArray] tell them
    apart. *)
Inductive kind : Type :=
| KUndefined | KNumber | KString | KBoolean | KArray | KObject | KFunction.

Definition kindOf (v : value) : kind :=
  match v with
  | VUndefined => KUndefined
  | VNumber _ => KNumber
  | VString _ => KString
  | VBoolean _ => KBoolean
  | VArray _ _ => KArray
  | VPredicate _ => KObject
  | VBuiltin name => if String.eqb name protoKey then KObject else KFunction
  end.

(** [st'] binds every name but [@it] to what [st] binds it to. *)
Definition sameBindings (st st' : state) : Prop :=
  forall k, k <> itKey -> environment st' !! k = environment st !! k.

(** A computation that changes no binding but that of [@it], however it
    ends. *)
Definition keeps {A} (m : M A) : Prop :=
  forall st, sameBindings st (snd (m st)).

(** * Properties *)

(** ** The environment and [@it] *)

Lemma unchangedButIt_refl st : unchangedButIt st st.
Proof. now left. Qed.

Lemma unchangedButIt_trans st1 st2 st3 :
  unchangedButIt st1 st2 -> unchangedButIt st2 st3 -> unchangedButIt st1 st3.
Proof.
  unfold unchangedButIt.
  intros [H12 | H12] [H23 | H23]; rewrite H23, H12; auto.
  right. apply delete_delete_eq.
Qed.

Lemma unchangedButIt_absent st st' :
  environment st !! itKey = None ->
  unchangedButIt st st' -> environment st' = environment st.
Proof.
  intros Hnone [H | H]; [exact H |].
  rewrite H. now apply delete_id.
Qed.

Lemma unchangedButIt_lookup st st' k :
  k <> itKey -> unchangedButIt st st' ->
  environment st' !! k = environment st !! k.
Proof.
  intros Hk [H | H]; rewrite H; [reflexivity |].
  apply lookup_delete_ne. congruence.
Qed.

Lemma pure_preserves {A} (m : M A) : pure m -> preserves m.
Proof. intros H st. rewrite H. apply unchangedButIt_refl. Qed.

Lemma preserves_ret {A} (a : A) : preserves (ret a).
Proof. intros st. apply unchangedButIt_refl. Qed.

Lemma preserves_throw {A} (message : string) : preserves (@throw A message).
Proof. intros st. apply unchangedButIt_refl. Qed.

Lemma preserves_beyond {A} (l : limit) : preserves (@beyond A l).
Proof. intros st. apply unchangedButIt_refl. Qed.

Lemma preserves_lookupEnv name : preserves (lookupEnv name).
Proof. intros st. apply unchangedButIt_refl. Qed.

Lemma preserves_newArray items : preserves (newArray items).
Proof. intros st. now left. Qed.

Lemma preserves_bind {A B} (m : M A) (k : A -> M B) :
  preserves m -> (forall a, preserves (k a)) -> preserves (bind m k).
Proof.
  intros Hm Hk st. unfold bind.
  specialize (Hm st).
  destruct (m st) as [[a | message | l] st']; simpl in *; auto.
  eapply unchangedButIt_trans; [exact Hm | apply Hk].
Qed.

Lemma pure_splitExpression expr operator : pure (_splitExpression expr operator).
Proof.
  intros st. unfold _splitExpression.
  repeat match goal with
         | |- context [if ?c then _ else _] => destruct c
         | |- context [match ?x with _ => _ end] => destruct x
         end; reflexivity.
Qed.

Lemma pure_callFunction functionName args : pure (callFunction functionName args).
Proof.
  intros st. unfold callFunction.
  repeat match goal with
         | |- context [if ?c then _ else _] => destruct c
         | |- context [match ?x with _ => _ end] => destruct x
         end; reflexivity.
Qed.

Ltac preserves_step :=
  match goal with
  | |- preserves (bind _ _) => apply preserves_bind; [ | intros ? ]
  | |- preserves (ret _) => apply preserves_ret
  | |- preserves (throw _) => apply preserves_throw
  | |- preserves (beyond _) => apply preserves_beyond
  | |- preserves (lookupEnv _) => apply preserves_lookupEnv
  | |- preserves (newArray _) => apply preserves_newArray
  | |- preserves (_splitExpression _ _) =>
      apply pure_preserves, pure_splitExpression
  | |- preserves (callFunction _ _) =>
      apply pure_preserves, pure_callFunction
  | H : forall e, preserves (?f e) |- preserves (?f _) => apply H
  | |- preserves (if ?c then _ else _) => destruct c
  | |- preserves (match ?x with _ => _ end) => destruct x
  end.

Section EnvironmentInvariant.

Variable self : string -> M value.
Hypothesis self_preserves : forall e, preserves (self e).

Lemma preserves_predicateCallback predicate item :
  preserves (predicateCallback self predicate item).
Proof.
  intros st. unfold predicateCallback, bind, assign, finally. simpl.
  pose proof (self_preserves predicate (setEnv itKey item st)) as H.
  destruct (self predicate (setEnv itKey item st)) as [r st'].
  unfold unchangedButIt, deleteEnv, setEnv in *. simpl in *.
  right. destruct H as [H | H]; rewrite H.
  - apply delete_insert_eq.
  - rewrite delete_delete_eq. apply delete_insert_eq.
Qed.

Lemma preserves_mapM {A B} (f : A -> M B) l :
  (forall a, preserves (f a)) -> preserves (mapM f l).
Proof.
  intros Hf. induction l as [| x rest IH]; simpl; repeat preserves_step; auto.
Qed.

Lemma preserves_filterItems callback items :
  (forall item, preserves (callback item)) ->
  preserves (filterItems callback items).
Proof.
  intros Hc. induction items as [| x rest IH]; simpl; repeat preserves_step; auto.
Qed.

Lemma preserves_everyItem callback items :
  (forall item, preserves (callback item)) ->
  preserves (everyItem callback items).
Proof.
  intros Hc. induction items as [| x rest IH]; simpl; repeat preserves_step; auto.
Qed.

Lemma preserves_someItem callback items :
  (forall item, preserves (callback item)) ->
  preserves (someItem callback items).
Proof.
  intros Hc. induction items as [| x rest IH]; simpl; repeat preserves_step; auto.
Qed.

Lemma preserves_parseArgumentsLoop rest prev currentArg q parenDepth args :
  preserves (parseArgumentsLoop self rest prev currentArg q parenDepth args).
Proof.
  revert prev currentArg q parenDepth args.
  induction rest as [| char rest IH]; intros; simpl; repeat preserves_step; auto.
Qed.

Lemma preserves_parseArguments argsString :
  preserves (_parseArguments self argsString).
Proof.
  unfold _parseArguments. cbv zeta.
  repeat preserves_step; auto using preserves_parseArgumentsLoop.
Qed.

Lemma preserves_evaluateFunctionCall expr :
  preserves (_evaluateFunctionCall self expr).
Proof.
  unfold _evaluateFunctionCall. cbv zeta.
  repeat preserves_step;
    auto using preserves_parseArguments, preserves_filterItems,
      preserves_everyItem, preserves_someItem, preserves_predicateCallback.
Qed.

Lemma preserves_itBlock expr otherwise :
  preserves otherwise -> preserves (itBlock expr otherwise).
Proof. intros H. unfold itBlock. repeat preserves_step; auto. Qed.

Lemma preserves_applyOperator operator l r :
  preserves (applyOperator operator l r).
Proof. unfold applyOperator. repeat preserves_step. Qed.

Lemma preserves_parenthesizedBlock expr otherwise :
  preserves otherwise -> preserves (parenthesizedBlock self expr otherwise).
Proof.
  intros H. unfold parenthesizedBlock. cbv zeta.
  repeat preserves_step; auto using preserves_applyOperator.
Qed.

Lemma preserves_operands expr operator :
  preserves (operands self expr operator).
Proof. unfold operands. repeat preserves_step. Qed.

Lemma preserves_evaluateExpressionBody expr :
  preserves (evaluateExpressionBody self expr).
Proof.
  unfold evaluateExpressionBody. cbv zeta.
  repeat preserves_step.
  apply preserves_itBlock.
  repeat preserves_step.
  apply preserves_parenthesizedBlock.
  repeat preserves_step;
    auto using preserves_mapM, preserves_evaluateFunctionCall, preserves_operands.
Qed.

End EnvironmentInvariant.

Lemma preserves_evaluateExpression fuel expr :
  preserves (_evaluateExpression fuel expr).
Proof.
  revert expr. induction fuel as [| fuel IH]; intros expr; simpl.
  - apply preserves_beyond.
  - now apply preserves_evaluateExpressionBody.
Qed.

(** Without a binding of [@it] to begin with, evaluating an expression
    leaves the environment exactly as it was, whatever the outcome. *)
Lemma evaluateExpression_environment fuel expr st :
  environment st !! itKey = None ->
  environment (snd (_evaluateExpression fuel expr st)) = environment st.
Proof.
  intros H. apply unchangedButIt_absent; [exact H |].
  apply preserves_evaluateExpression.
Qed.

(** ** Statement sequences *)

Lemma runStatements_app fuel pre post r st :
  runStatements fuel (pre ++ post)%list r st =
  match runStatements fuel pre r st with
  | (Return r1, st1) => runStatements fuel post r1 st1
  | (Throw message, st1) => (Throw message, st1)
  | (Beyond l, st1) => (Beyond l, st1)
  end.
Proof.
  revert r st. induction pre as [| s pre IH]; intros r st; simpl.
  - reflexivity.
  - unfold bind.
    destruct (_evaluateStatement fuel s st) as [[v | message | l] st1]; auto.
Qed.

(** Writing a property other than [__proto__] creates or updates it. *)
Lemma assign_plain name v st :
  name <> protoKey -> assign name v st = (Return tt, setEnv name v st).
Proof.
  intros H. unfold assign.
  destruct (String.eqb_spec name protoKey) as [E | _]; [contradiction | reflexivity].
Qed.

Lemma assign_it v st : assign itKey v st = (Return tt, setEnv itKey v st).
Proof. reflexivity. Qed.

(** What an assignment does to the session, whatever the name: the
    property is written, or the inherited setter of [__proto__] has
    left the environment alone. *)
Lemma assign_cases name v st :
  assign name v st = (Return tt, setEnv name v st)
  \/ name = protoKey /\ environment st !! protoKey = None
     /\ (assign name v st = (Return tt, st)
         \/ assign name v st = (Beyond PrototypeChange, st)).
Proof.
  unfold assign. destruct (String.eqb_spec name protoKey) as [E | _]; [| now left].
  subst name. destruct (environment st !! protoKey) as [w |]; [now left |].
  right. split; [reflexivity |]. split; [reflexivity |].
  unfold protoSetter, ret, beyond.
  destruct v as [| n | s | b | ref items | p | name]; auto.
  destruct (String.eqb name protoKey); auto.
Qed.

(** What a new parser inherits: [constructor] is defined without having
    been assigned, an assignment to [__proto__] of a number returns the
    number and binds nothing, one of an array is where the model stops,
    and the other inherited names can be assigned like any name. *)
Lemma inherited_names_of_a_new_parser :
  evaluate "constructor" constructor
  = (Return (Success "function Object() { [native code] }"), constructor)
  /\ session ["__proto__ = 5"; "__proto__"] constructor
     = ([Return (Success "5"); Return (Success "[object Object]")], constructor)
  /\ fst (evaluate "__proto__ = [1]" constructor) = Beyond PrototypeChange
  /\ fst (session ["toString = 1"; "toString"] constructor)
     = [Return (Success "1"); Return (Success "1")].
Proof. repeat split; vm_compute; reflexivity. Qed.

(** An assignment whose value expression returns stores the value at
    once, under the text before the first [=], when that text is not
    [__proto__]. *)
Lemma evaluateStatement_assignment fuel statement st v st1 :
  isAssignment (JsString.trim statement) = true ->
  List.nth 0 (assignmentParts (JsString.trim statement)) "" <> protoKey ->
  _evaluateExpression fuel
    (List.nth 1 (assignmentParts (JsString.trim statement)) "") st
  = (Return v, st1) ->
  _evaluateStatement fuel statement st
  = (Return v,
     setEnv (List.nth 0 (assignmentParts (JsString.trim statement)) "") v st1).
Proof.
  intros Ha Hname Hv. unfold _evaluateStatement. cbv zeta. rewrite Ha.
  unfold bind, ret. rewrite Hv. now rewrite (assign_plain _ _ _ Hname).
Qed.

(** A statement that throws has bound nothing: an assignment stores its
    value only after the value has been computed. *)
Lemma evaluateStatement_throw fuel statement st message st' :
  _evaluateStatement fuel statement st = (Throw message, st') ->
  unchangedButIt st st'.
Proof.
  unfold _evaluateStatement. cbv zeta.
  destruct (isAssignment (JsString.trim statement)).
  - unfold bind, ret.
    pose proof (preserves_evaluateExpression fuel
      (nth 1 (assignmentParts (JsString.trim statement)) "") st) as H.
    destruct (_evaluateExpression fuel _ st) as [[v | m | l] st1];
      simpl in *; intros E; [| inversion E; subst; exact H | discriminate E].
    destruct (assign_cases (nth 0 (assignmentParts (JsString.trim statement)) "")
                v st1) as [Ea | (_ & _ & [Ea | Ea])];
      rewrite Ea in E; discriminate E.
  - intros E.
    pose proof (preserves_evaluateExpression fuel (JsString.trim statement) st) as H.
    rewrite E in H. exact H.
Qed.

(** ** Facts about [trim] *)

Lemma trimEnd_idempotent s :
  JsString.trimEnd (JsString.trimEnd s) = JsString.trimEnd s.
Proof.
  induction s as [| c s IH]; simpl; [reflexivity |].
  destruct (JsString.trimEnd s) as [| c' r] eqn:E.
  - destruct (JsString.isWhiteSpace c) eqn:Ec; simpl; [reflexivity |].
    now rewrite Ec.
  - change (JsString.trimEnd (String c (String c' r)))
      with (match JsString.trimEnd (String c' r) with
            | EmptyString =>
                if JsString.isWhiteSpace c then EmptyString else String c EmptyString
            | r0 => String c r0
            end).
    now rewrite IH.
Qed.

Lemma trimStart_trimEnd s :
  JsString.trimStart (JsString.trimEnd s) = JsString.trimEnd (JsString.trimStart s).
Proof.
  induction s as [| c s IH]; [reflexivity |].
  destruct (JsString.isWhiteSpace c) eqn:Ec.
  - change (JsString.trimStart (String c s)) with
      (if JsString.isWhiteSpace c then JsString.trimStart s else String c s).
    rewrite Ec, <- IH. simpl.
    destruct (JsString.trimEnd s) as [| c' r];
      rewrite ?Ec; simpl; rewrite ?Ec; reflexivity.
  - change (JsString.trimStart (String c s)) with
      (if JsString.isWhiteSpace c then JsString.trimStart s else String c s).
    rewrite Ec. simpl.
    destruct (JsString.trimEnd s) as [| c' r];
      rewrite ?Ec; simpl; rewrite ?Ec; reflexivity.
Qed.

Lemma trimStart_idempotent s :
  JsString.trimStart (JsString.trimStart s) = JsString.trimStart s.
Proof.
  induction s as [| c s IH]; simpl; [reflexivity |].
  destruct (JsString.isWhiteSpace c) eqn:Ec; [exact IH |].
  simpl. now rewrite Ec.
Qed.

(** [s.trim().trim()] is [s.trim()]. *)
Lemma trim_idempotent s : JsString.trim (JsString.trim s) = JsString.trim s.
Proof.
  unfold JsString.trim.
  now rewrite trimStart_trimEnd, trimStart_idempotent, trimEnd_idempotent.
Qed.

Lemma whiteSpace_not_semicolon c s :
  JsString.isWhiteSpace c = true -> String.prefix ";" (String c s) = false.
Proof.
  intros H. cbn [String.prefix].
  destruct (ascii_dec ";" c) as [E | E]; [| reflexivity].
  subst c. discriminate H.
Qed.

Lemma indexOf_semicolon_trimEnd s :
  JsString.trimEnd s = "" -> forall i, JsString.indexOf_go ";" s i = -1.
Proof.
  induction s as [| c s IH]; intros H i; [reflexivity |].
  simpl in H.
  destruct (JsString.trimEnd s) as [| c' r] eqn:E; [| discriminate H].
  destruct (JsString.isWhiteSpace c) eqn:Ec; [| discriminate H].
  change (JsString.indexOf_go ";" (String c s) i)
    with (if String.prefix ";" (String c s) then i
          else JsString.indexOf_go ";" s (i + 1)).
  rewrite (whiteSpace_not_semicolon c s Ec). now apply IH.
Qed.

Lemma indexOf_semicolon_trimStart s :
  (forall j, JsString.indexOf_go ";" (JsString.trimStart s) j = -1) ->
  forall i, JsString.indexOf_go ";" s i = -1.
Proof.
  induction s as [| c s IH]; intros H i; [apply H |].
  simpl in H. destruct (JsString.isWhiteSpace c) eqn:Ec.
  - change (JsString.indexOf_go ";" (String c s) i)
      with (if String.prefix ";" (String c s) then i
            else JsString.indexOf_go ";" s (i + 1)).
    rewrite (whiteSpace_not_semicolon c s Ec). now apply IH.
  - apply H.
Qed.

(** A text with a semicolon in it is not blank. *)
Lemma includes_semicolon_not_blank expr :
  JsString.includes expr ";" = true -> JsString.trim expr <> "".
Proof.
  intros H E. unfold JsString.includes, JsString.indexOf in H.
  rewrite (indexOf_semicolon_trimStart expr) in H; [discriminate H |].
  intros j. now apply indexOf_semicolon_trimEnd.
Qed.

(** ** Referring to [@it] without a binding *)

Lemma includes_it_not_blank s :
  JsString.includes s "@it" = true -> String.eqb s "" = false.
Proof. destruct s; [discriminate | reflexivity]. Qed.

(** With no [@it] in the environment, an expression whose text mentions
    [@it] throws before anything else is looked at. *)
Lemma evaluateExpression_it_unavailable fuel expr st :
  environment st !! itKey = None ->
  JsString.includes (JsString.trim expr) "@it" = true ->
  _evaluateExpression (S fuel) expr st = (Throw itUnavailable, st).
Proof.
  intros Hnone Hit.
  change (_evaluateExpression (S fuel) expr)
    with (evaluateExpressionBody (_evaluateExpression fuel) expr).
  unfold evaluateExpressionBody. cbv zeta.
  rewrite (includes_it_not_blank _ Hit).
  destruct (String.eqb (JsString.trim expr) "@it").
  - unfold bind, lookupEnv. now rewrite Hnone.
  - unfold itBlock. rewrite Hit. unfold bind, lookupEnv. now rewrite Hnone.
Qed.

(** Outside the special cases of [evaluate], a single expression that
    mentions [@it] fails at the entry point when the environment has no
    [@it]. *)
Lemma evaluate_it_unavailable expr st :
  environment st !! itKey = None ->
  JsString.includes (JsString.trim expr) "@it" = true ->
  isAssignment (JsString.trim expr) = false ->
  isStringComparison expr = false ->
  JsString.includes expr ";" = false ->
  isEntryCollectionCall expr = false ->
  evaluate expr st
  = (Return (Failure ("Error evaluating expression: " +:+ itUnavailable)), st).
Proof.
  intros Hnone Hit Hassign Hcmp Hsemi Hentry.
  assert (Hstatement :
    _evaluateStatement (S (String.length expr)) expr st = (Throw itUnavailable, st)).
  { unfold _evaluateStatement. cbv zeta. rewrite Hassign.
    apply evaluateExpression_it_unavailable; [exact Hnone |].
    now rewrite trim_idempotent. }
  unfold evaluate.
  rewrite (includes_it_not_blank _ Hit), Hcmp, Hsemi.
  unfold isEntryCollectionCall in Hentry.
  destruct (Regex.test Patterns.collectionCallStart expr);
    [destruct (Regex.exec Patterns.collectionCall expr); [discriminate Hentry |] |];
    unfold catch, bind; rewrite Hstatement; reflexivity.
Qed.

(** ** Evaluating over an arbitrary environment *)

Lemma lookupEnv_Some name st v :
  environment st !! name = Some v ->
  lookupEnv name st = (Return (Some v), st).
Proof. intros H. unfold lookupEnv. now rewrite H. Qed.

(** Run the evaluator on a text that is known, keeping folded what
    depends on the values. *)
Ltac run_evaluator :=
  lazy -[lookupEnv _evaluateExpression _formatValue setEnv deleteEnv
         JsValue.strictEquals JsValue.plus JsValue.minus JsValue.times
         JsValue.divide JsValue.toBoolean].

Ltac unfold_expression fuel expr :=
  change (_evaluateExpression (S fuel) expr)
    with (evaluateExpressionBody (_evaluateExpression fuel) expr).

Lemma evaluateExpression_a fuel st v :
  environment st !! "a" = Some v ->
  _evaluateExpression (S fuel) "a" st = (Return v, st).
Proof.
  intros H. unfold_expression fuel "a". run_evaluator.
  now rewrite (lookupEnv_Some _ _ _ H).
Qed.

Lemma evaluateExpression_b fuel st v :
  environment st !! "b" = Some v ->
  _evaluateExpression (S fuel) "b" st = (Return v, st).
Proof.
  intros H. unfold_expression fuel "b". run_evaluator.
  now rewrite (lookupEnv_Some _ _ _ H).
Qed.

(** An operator between the variables [a] and [b]: the entry point gets
    to [_evaluateExpression] on the whole text. *)
Ltac run_binary Ha Hb :=
  unfold evaluate, _evaluateStatement; run_evaluator;
  match goal with
  | |- context [_evaluateExpression (S ?fuel) ?expr ?st] =>
      unfold_expression fuel expr
  end;
  run_evaluator;
  rewrite ?(evaluateExpression_a _ _ _ Ha), ?(evaluateExpression_b _ _ _ Hb);
  rewrite ?(evaluateExpression_a _ _ _ Ha), ?(evaluateExpression_b _ _ _ Hb).

(** ** Lengths

    Every recursive call of [_evaluateExpression] is on a text shorter
    than the one at hand.  The facts below bound the lengths of the
    pieces that [trim], [substring], [split], the scanning loops and the
    patterns produce. *)

Local Open Scope nat_scope.

Lemma length_trimStart s : String.length (JsString.trimStart s) <= String.length s.
Proof.
  induction s as [| c s IH]; simpl; [lia |].
  destruct (JsString.isWhiteSpace c); simpl; lia.
Qed.

Lemma length_trimEnd s : String.length (JsString.trimEnd s) <= String.length s.
Proof.
  induction s as [| c s IH]; simpl; [lia |].
  destruct (JsString.trimEnd s); [destruct (JsString.isWhiteSpace c) |];
    simpl in *; lia.
Qed.

Lemma length_trim s : String.length (JsString.trim s) <= String.length s.
Proof.
  unfold JsString.trim.
  pose proof (length_trimEnd (JsString.trimStart s)).
  pose proof (length_trimStart s). lia.
Qed.

Lemma length_drop n s :
  String.length (JsString.drop n s) = String.length s - n.
Proof.
  revert s. induction n as [| n IH]; intros [| c s]; simpl; auto; lia.
Qed.

Lemma length_stdlib_substring n m s :
  String.length (String.substring n m s) <= Nat.min m (String.length s - n).
Proof.
  revert n m. induction s as [| c s IH]; intros [| n] [| m];
    cbn [String.substring String.length]; try lia.
  - specialize (IH 0 m). lia.
  - specialize (IH n 0). lia.
  - specialize (IH n (S m)). lia.
Qed.

Lemma length_prefix_substring m s :
  m <= String.length s -> String.length (String.substring 0 m s) = m.
Proof.
  revert m. induction s as [| c s IH]; intros [| m] H; simpl in *;
    try lia; auto.
  rewrite IH; lia.
Qed.

Lemma clamp_le len i : JsString.clamp len i <= len.
Proof. unfold JsString.clamp. lia. Qed.

Lemma length_substring s a b :
  String.length (JsString.substring s a b)
  <= String.length s - Nat.min (JsString.clamp (String.length s) a)
                               (JsString.clamp (String.length s) b).
Proof.
  unfold JsString.substring. cbv zeta.
  pose proof (length_stdlib_substring
    (Nat.min (JsString.clamp (String.length s) a) (JsString.clamp (String.length s) b))
    (Nat.max (JsString.clamp (String.length s) a) (JsString.clamp (String.length s) b)
     - Nat.min (JsString.clamp (String.length s) a) (JsString.clamp (String.length s) b))
    s).
  lia.
Qed.

Lemma length_substring_prefix s (b : Z) :
  String.length (JsString.substring s 0 b) <= Z.to_nat b.
Proof.
  unfold JsString.substring. cbv zeta.
  match goal with
  | |- String.length (String.substring ?n ?m s) <= _ =>
      pose proof (length_stdlib_substring n m s)
  end.
  unfold JsString.clamp in *. lia.
Qed.

Lemma length_substringFrom s a :
  String.length (JsString.substringFrom s a)
  = String.length s - JsString.clamp (String.length s) a.
Proof. unfold JsString.substringFrom. apply length_drop. Qed.

Lemma length_ofRev l : String.length (JsString.ofRev l) = List.length l.
Proof.
  unfold JsString.ofRev. rewrite <- (length_rev l).
  induction (rev l) as [| c r IH]; simpl; auto.
Qed.

(** The pieces of a split and the separators between them fit in the
    text that was split. *)
Lemma length_split_go sep s skip cur :
  totalLength (JsString.split_go sep s skip cur)
  + (List.length (JsString.split_go sep s skip cur) - 1)
  <= List.length cur + String.length s.
Proof.
  revert skip cur. induction s as [| c s IH]; intros skip cur.
  - cbn [JsString.split_go totalLength fold_right List.length String.length].
    rewrite length_ofRev. lia.
  - cbn [JsString.split_go]. destruct skip as [| k].
    + destruct (String.prefix sep (String c s)).
      * cbn [totalLength fold_right List.length String.length].
        rewrite length_ofRev.
        specialize (IH (String.length sep - 1) []).
        fold (totalLength (JsString.split_go sep s (String.length sep - 1) [])).
        destruct (JsString.split_go sep s (String.length sep - 1) []);
          cbn [totalLength fold_right List.length String.length] in *; lia.
      * specialize (IH 0 (c :: cur)).
        cbn [List.length String.length] in *. lia.
    + specialize (IH k cur). cbn [String.length]. lia.
Qed.

Lemma length_split_pieces s sep piece :
  In piece (JsString.split s sep) -> String.length piece <= String.length s.
Proof.
  intros Hin. pose proof (length_split_go sep s 0 []) as H.
  fold (JsString.split s sep) in H. cbn [List.length] in H.
  assert (String.length piece <= totalLength (JsString.split s sep)).
  { clear H. induction (JsString.split s sep) as [| p l IH]; [contradiction |].
    cbn [totalLength fold_right].
    fold (totalLength l).
    destruct Hin as [-> | Hin]; [lia |]. specialize (IH Hin). lia. }
  lia.
Qed.

Lemma length_split_pair s sep l r :
  JsString.split s sep = [l; r] ->
  String.length l < String.length s /\ String.length r < String.length s.
Proof.
  intros E. pose proof (length_split_go sep s 0 []) as H.
  fold (JsString.split s sep) in H. rewrite E in H.
  cbn [totalLength fold_right List.length] in H. lia.
Qed.

Lemma length_prefix p s :
  String.prefix p s = true -> String.length p <= String.length s.
Proof.
  revert s. induction p as [| a p IH]; intros [| b s] H;
    cbn [String.prefix String.length] in *; try lia; try discriminate.
  destruct (ascii_dec a b); [| discriminate]. specialize (IH s H). lia.
Qed.

(** Where [indexOf] finds an occurrence, the occurrence is there. *)
Lemma indexOf_go_found sub s i :
  JsString.indexOf_go sub s i <> (-1)%Z ->
  (i <= JsString.indexOf_go sub s i)%Z
  /\ String.prefix sub
       (JsString.drop (Z.to_nat (JsString.indexOf_go sub s i - i)) s) = true
  /\ (JsString.indexOf_go sub s i - i <= Z.of_nat (String.length s))%Z.
Proof.
  revert i. induction s as [| c s IH]; intros i.
  - cbn [JsString.indexOf_go]. destruct (String.prefix sub "") eqn:E.
    + intros _. rewrite Z.sub_diag. cbn. split; [lia | split; [exact E | lia]].
    + intros H. now contradict H.
  - cbn [JsString.indexOf_go]. destruct (String.prefix sub (String c s)) eqn:E.
    + intros _. rewrite Z.sub_diag. cbn [Z.to_nat JsString.drop].
      split; [lia | split; [exact E | cbn [String.length]; lia]].
    + intros H. destruct (IH (i + 1)%Z H) as (H1 & H2 & H3).
      split; [lia |].
      replace (Z.to_nat (JsString.indexOf_go sub s (i + 1) - i))
        with (S (Z.to_nat (JsString.indexOf_go sub s (i + 1) - (i + 1))))
        by lia.
      cbn [JsString.drop String.length]. split; [exact H2 | lia].
Qed.

Lemma includes_indexOf s sub :
  JsString.includes s sub = true -> (0 <= JsString.indexOf s sub)%Z.
Proof. unfold JsString.includes. lia. Qed.

(** An occurrence of a text that is not empty ends within the string. *)
Lemma indexOf_found_end s sub :
  JsString.includes s sub = true ->
  (0 <= JsString.indexOf s sub)%Z
  /\ Z.to_nat (JsString.indexOf s sub) + String.length sub <= String.length s.
Proof.
  intros H. apply includes_indexOf in H. split; [exact H |].
  unfold JsString.indexOf in *.
  destruct (indexOf_go_found sub s 0) as (_ & Hp & Hl); [lia |].
  apply length_prefix in Hp. rewrite length_drop in Hp.
  rewrite Z.sub_0_r in *. lia.
Qed.

Lemma indexOfFrom_found_end s sub from :
  (0 < JsString.indexOfFrom s sub from)%Z ->
  Z.to_nat (JsString.indexOfFrom s sub from) + String.length sub
  <= String.length s.
Proof.
  unfold JsString.indexOfFrom. cbv zeta. intros H.
  set (k := JsString.clamp (String.length s) from) in *.
  destruct (indexOf_go_found sub (JsString.drop k s) (Z.of_nat k))
    as (H1 & Hp & Hl); [lia |].
  apply length_prefix in Hp. rewrite !length_drop in Hp.
  rewrite length_drop in Hl.
  pose proof (clamp_le (String.length s) from). fold k in H0. lia.
Qed.

(** [_splitExpression]'s loop stops where the operator starts. *)
Lemma splitScan_found operator rest i prev q parenDepth r :
  splitScan operator rest i prev q parenDepth = Some r ->
  (i <= r)%Z
  /\ Z.to_nat (r - i) + String.length operator <= String.length rest.
Proof.
  revert i prev q parenDepth.
  induction rest as [| char rest IH]; intros i prev q parenDepth;
    cbn [splitScan]; [discriminate |]. cbv zeta.
  destruct (negb (fst (quoteStep char prev q))
            && (parenStep char (fst (quoteStep char prev q)) parenDepth =? 0)%Z
            && String.prefix operator (String char rest)) eqn:E.
  - intros [= <-]. rewrite Z.sub_diag.
    apply andb_true_iff in E. destruct E as [_ E].
    apply length_prefix in E. cbn [Z.to_nat] . split; [lia | lia].
  - intros H. apply IH in H. cbn [String.length]. split; lia.
Qed.

Lemma search_go_found cls s i :
  JsString.search_go cls s i <> (-1)%Z ->
  (i <= JsString.search_go cls s i < i + Z.of_nat (String.length s))%Z.
Proof.
  revert i. induction s as [| c s IH]; intros i; cbn [JsString.search_go].
  - intros H. now contradict H.
  - destruct (cls c); intros H; cbn [String.length]; [lia |].
    specialize (IH _ H). lia.
Qed.

Lemma findCloseParen_from rest i prev q parenDepth closeParenIndex :
  findCloseParen rest i prev q parenDepth closeParenIndex = closeParenIndex
  \/ (i <= findCloseParen rest i prev q parenDepth closeParenIndex)%Z.
Proof.
  revert i prev q parenDepth.
  induction rest as [| char rest IH]; intros i prev q parenDepth;
    cbn [findCloseParen]; [now left |]. cbv zeta.
  repeat match goal with
         | |- context [if ?c then _ else _] => destruct c
         end;
    try (right; lia);
    match goal with
    | |- context [findCloseParen rest ?i' ?p ?q' ?d _] =>
        destruct (IH i' p q' d) as [-> | H]; [now left | right; lia]
    end.
Qed.

(** *** What the patterns capture *)

Lemma orElse_Some {A} (x y : option A) v :
  Regex.orElse x y = Some v -> x = Some v \/ y = Some v.
Proof. destruct x; simpl; auto. Qed.

(** A pattern without groups hands the captures on unchanged, together
    with a rest that is shorter by at least its minimal length. *)
Lemma run_groupless r :
  groupless r = true ->
  forall total s c k caps,
    Regex.run total r s c k = Some caps ->
    exists s', k s' c = Some caps
               /\ String.length s' + minLength r <= String.length s.
Proof.
  induction r as [| a | cls | r1 IH1 r2 IH2 | r1 IH1 r2 IH2 | r0 IH0
                  | n r0 IH0 | |];
    intros Hg total s c k caps H; cbn [groupless minLength] in *.
  - exists s. split; [exact H | lia].
  - destruct s as [| b s']; [discriminate H |]. cbn [Regex.run] in H.
    destruct (Ascii.eqb a b); [| discriminate H].
    exists s'. split; [exact H | cbn [String.length]; lia].
  - destruct s as [| b s']; [discriminate H |]. cbn [Regex.run] in H.
    destruct (cls b); [| discriminate H].
    exists s'. split; [exact H | cbn [String.length]; lia].
  - apply andb_true_iff in Hg. destruct Hg as [Hg1 Hg2].
    cbn [Regex.run] in H.
    destruct (IH1 Hg1 _ _ _ _ _ H) as (s1 & H1 & L1).
    destruct (IH2 Hg2 _ _ _ _ _ H1) as (s2 & H2 & L2).
    exists s2. split; [exact H2 | lia].
  - apply andb_true_iff in Hg. destruct Hg as [Hg1 Hg2].
    cbn [Regex.run] in H. apply orElse_Some in H. destruct H as [H | H].
    + destruct (IH1 Hg1 _ _ _ _ _ H) as (s1 & H1 & L1).
      exists s1. split; [exact H1 | lia].
    + destruct (IH2 Hg2 _ _ _ _ _ H) as (s2 & H2 & L2).
      exists s2. split; [exact H2 | lia].
  - cbn [Regex.run] in H. revert H.
    generalize (String.length s) at 1. intros n. revert s c.
    induction n as [| n IHn]; intros s c H.
    + exists s. split; [exact H | lia].
    + apply orElse_Some in H. destruct H as [H | H].
      * destruct (IH0 Hg _ _ _ _ _ H) as (s1 & H1 & L1).
        destruct (String.length s1 <? String.length s) eqn:E;
          [| discriminate H1].
        destruct (IHn _ _ H1) as (s2 & H2 & L2).
        exists s2. split; [exact H2 | lia].
      * exists s. split; [exact H | lia].
  - discriminate Hg.
  - cbn [Regex.run] in H.
    destruct (String.length s =? total); [| discriminate H].
    exists s. split; [exact H | lia].
  - destruct s; [| discriminate H]. exists "". split; [exact H | lia].
Qed.

Lemma run_seq_groupless r1 r2 total s c k caps :
  groupless r1 = true ->
  Regex.run total (Regex.Seq r1 r2) s c k = Some caps ->
  exists s', Regex.run total r2 s' c k = Some caps
             /\ String.length s' + minLength r1 <= String.length s.
Proof. intros Hg H. now apply (run_groupless r1 Hg) in H. Qed.

Lemma length_consumed s s' :
  String.length s' <= String.length s ->
  String.length (Regex.consumed s s') = String.length s - String.length s'.
Proof. intros H. unfold Regex.consumed. apply length_prefix_substring. lia. Qed.

Lemma run_seq_group n r0 r2 total s c k caps :
  groupless r0 = true ->
  Regex.run total (Regex.Seq (Regex.Group n r0) r2) s c k = Some caps ->
  exists s',
    Regex.run total r2 s' ((n, Regex.consumed s s') :: c) k = Some caps
    /\ String.length s' + minLength r0 <= String.length s
    /\ String.length (Regex.consumed s s') = String.length s - String.length s'.
Proof.
  intros Hg H. cbn [Regex.run] in H.
  destruct (run_groupless r0 Hg _ _ _ _ _ H) as (s' & H' & L).
  exists s'. split; [exact H' | split; [exact L |]].
  apply length_consumed. lia.
Qed.

Lemma run_seq_bos r2 total s c k caps :
  Regex.run total (Regex.Seq Regex.Bos r2) s c k = Some caps ->
  String.length s = total /\ Regex.run total r2 s c k = Some caps.
Proof.
  cbn [Regex.run]. destruct (String.length s =? total) eqn:E; [| discriminate].
  apply Nat.eqb_eq in E. auto.
Qed.

(** A pattern anchored at the start matches at offset 0 or not at all. *)
Lemma execFrom_anchored r2 total s caps :
  Regex.execFrom total (Regex.Seq Regex.Bos r2) s = Some caps ->
  String.length s <= total ->
  String.length s = total
  /\ Regex.run total r2 s [] (fun _ c => Some c) = Some caps.
Proof.
  induction s as [| b s IH]; intros H L; cbn [Regex.execFrom] in H.
  - destruct (Regex.run total (Regex.Seq Regex.Bos r2) "" []
                (fun _ c => Some c)) eqn:E; [| discriminate H].
    inversion H; subst. now apply run_seq_bos in E.
  - destruct (Regex.run total (Regex.Seq Regex.Bos r2) (String b s) []
                (fun _ c => Some c)) eqn:E.
    + inversion H; subst. now apply run_seq_bos in E.
    + cbn [String.length] in L. destruct (IH H) as [E' _]; lia.
Qed.

Ltac run_chain H :=
  repeat first
    [ apply run_seq_group in H;
      [ destruct H as (? & H & ? & ?) | reflexivity ]
    | apply run_seq_groupless in H;
      [ destruct H as (? & H & ?) | reflexivity ] ];
  repeat match goal with
         | L : context [minLength ?r] |- _ =>
             let v := eval vm_compute in (minLength r) in
             change (minLength r) with v in L
         end.

(** The two operands that the pattern for [(..) && (..)] captures are
    shorter than the text. *)
Lemma parenthesizedLogical_groups e m :
  Regex.exec Patterns.parenthesizedLogical e = Some m ->
  String.length (Regex.group m 1) < String.length e
  /\ String.length (Regex.group m 3) < String.length e.
Proof.
  unfold Regex.exec, Patterns.parenthesizedLogical, Regex.Cat.
  cbn [fold_right]. intros H.
  apply execFrom_anchored in H; [| lia]. destruct H as [_ H].
  run_chain H.
  cbn [Regex.run] in H. inversion H; subst m.
  cbn [Regex.group Nat.eqb]. lia.
Qed.


(** *** Staying within the budget *)

Lemma withinBudget_ret {A} (a : A) : withinBudget (ret a).
Proof. intros st. discriminate. Qed.

Lemma withinBudget_throw {A} message : withinBudget (@throw A message).
Proof. intros st. discriminate. Qed.

Lemma withinBudget_pattern {A} : withinBudget (@beyond A PatternSyntax).
Proof. intros st. discriminate. Qed.

Lemma withinBudget_lookupEnv name : withinBudget (lookupEnv name).
Proof. intros st. discriminate. Qed.

Lemma withinBudget_newArray items : withinBudget (newArray items).
Proof. intros st. discriminate. Qed.

Lemma withinBudget_change {A} : withinBudget (@beyond A PrototypeChange).
Proof. intros st. discriminate. Qed.

Lemma withinBudget_assign name v : withinBudget (assign name v).
Proof.
  intros st.
  destruct (assign_cases name v st) as [E | (_ & _ & [E | E])];
    rewrite E; discriminate.
Qed.

Lemma withinBudget_unbind name : withinBudget (unbind name).
Proof. intros st. discriminate. Qed.

(** The continuation needs the budget only for values that the first
    computation can return. *)
Lemma withinBudget_bind {A B} (m : M A) (k : A -> M B) :
  withinBudget m ->
  (forall a, (exists st st', m st = (Return a, st')) -> withinBudget (k a)) ->
  withinBudget (bind m k).
Proof.
  intros Hm Hk st. unfold bind. specialize (Hm st).
  destruct (m st) as [[a | message | l] st'] eqn:E; simpl in *.
  - apply Hk. eauto.
  - discriminate.
  - intros [= ->]. now apply Hm.
Qed.

Lemma withinBudget_finally {A} (body : M A) cleanup :
  withinBudget body -> withinBudget (finally body cleanup).
Proof.
  intros H st. unfold finally. specialize (H st).
  now destruct (body st).
Qed.


Lemma withinBudget_callFunction functionName args :
  withinBudget (callFunction functionName args).
Proof.
  intros st. unfold callFunction.
  repeat match goal with
         | |- context [if ?c then _ else _] => destruct c
         | |- context [match ?x with _ => _ end] => destruct x
         end; discriminate.
Qed.

Lemma withinBudget_splitExpression expr operator :
  withinBudget (_splitExpression expr operator).
Proof.
  intros st. unfold _splitExpression.
  repeat match goal with
         | |- context [if ?c then _ else _] => destruct c
         | |- context [match ?x with _ => _ end] => destruct x
         end; discriminate.
Qed.

(** Both parts that [_splitExpression] returns are shorter than the
    expression. *)
Lemma splitExpression_shorter expr operator st l r st' :
  0 < String.length operator ->
  _splitExpression expr operator st = (Return (l, r), st') ->
  String.length l < String.length expr /\ String.length r < String.length expr.
Proof.
  intros Hop. unfold _splitExpression. cbv zeta.
  set (multIndex :=
         if String.eqb operator "*" && JsString.includes expr "("
            && JsString.includes expr ")"
         then JsString.indexOfFrom expr "*" (JsString.lastIndexOf expr ")")
         else (-1)%Z).
  destruct (0 <? multIndex)%Z eqn:Emult.
  - intros [= <- <- _].
    assert (Hend : Z.to_nat multIndex + 1 <= String.length expr).
    { subst multIndex.
      destruct (String.eqb operator "*" && JsString.includes expr "("
                && JsString.includes expr ")"); [| discriminate Emult].
      apply (indexOfFrom_found_end expr "*"). lia. }
    pose proof (length_trim (JsString.substring expr 0 multIndex)).
    pose proof (length_substring_prefix expr multIndex).
    pose proof (length_trim (JsString.substringFrom expr (multIndex + 1))).
    pose proof (length_substringFrom expr (multIndex + 1)).
    unfold JsString.clamp in *. lia.
  - destruct (splitScan operator expr 0 None (false, None) 0) as [i |] eqn:Escan.
    + intros [= <- <- _].
      apply splitScan_found in Escan. destruct Escan as [Hi Hend].
      pose proof (length_trim (JsString.substring expr 0 i)).
      pose proof (length_substring_prefix expr i).
      pose proof (length_trim (JsString.substringFrom expr
                                 (i + Z.of_nat (String.length operator)))).
      pose proof (length_substringFrom expr
                    (i + Z.of_nat (String.length operator))).
      unfold JsString.clamp in *. lia.
    + destruct (String.eqb operator "&&" || String.eqb operator "||");
        [| discriminate].
      destruct (JsString.split expr operator) as [| l0 [| r0 [| ? ?]]] eqn:Esplit;
        try discriminate.
      intros [= <- <- _].
      apply length_split_pair in Esplit.
      pose proof (length_trim l0). pose proof (length_trim r0). lia.
Qed.

Lemma length_substring_le s a b :
  String.length (JsString.substring s a b) <= String.length s.
Proof. pose proof (length_substring s a b). lia. Qed.

Lemma length_append s t :
  String.length (s +:+ t) = String.length s + String.length t.
Proof. induction s as [| c s IH]; simpl; auto. Qed.

Lemma prefix_char a c s :
  String.prefix (String a "") (String c s) = true -> a = c.
Proof.
  cbn [String.prefix]. destruct (ascii_dec a c); [auto | discriminate].
Qed.

(** A text that starts with one character and ends with another has at
    least two. *)
Lemma startsWith_endsWith_two e a b :
  a <> b ->
  JsString.startsWith e (String a "") = true ->
  JsString.endsWith e (String b "") = true ->
  2 <= String.length e.
Proof.
  intros Hab Hs He. unfold JsString.startsWith, JsString.endsWith in *.
  destruct e as [| c [| c' r]]; [discriminate Hs | | cbn [String.length]; lia].
  apply prefix_char in Hs. subst c.
  cbn in He. destruct (Ascii.eqb_spec a b); [contradiction | discriminate He].
Qed.

Lemma includes_endsWith_two e :
  JsString.includes e "(" = true ->
  JsString.endsWith e ")" = true ->
  2 <= String.length e.
Proof.
  intros Hi He.
  destruct e as [| c [| c' r]]; [discriminate Hi | | cbn [String.length]; lia].
  apply (startsWith_endsWith_two _ "(" ")"); [discriminate | | exact He].
  unfold JsString.startsWith.
  unfold JsString.includes, JsString.indexOf in Hi.
  cbn [JsString.indexOf_go] in Hi.
  destruct (String.prefix "(" (String c "")); [reflexivity |].
  cbn in Hi. discriminate Hi.
Qed.

(** The argument text of a call is shorter than the call. *)
Lemma functionCall_arguments e :
  JsString.includes e "(" = true ->
  JsString.endsWith e ")" = true ->
  String.length
    (JsString.trim
       (JsString.substring e (JsString.indexOf e "(" + 1)
          (findCloseParen
             (JsString.substringFrom e (JsString.indexOf e "(" + 1))
             (JsString.indexOf e "(" + 1)
             (JsString.charAt e (JsString.indexOf e "("))
             (false, None) 0 (Z.of_nat (String.length e) - 1))))
  < String.length e.
Proof.
  intros Hi He.
  pose proof (includes_endsWith_two e Hi He) as H2.
  destruct (indexOf_found_end e "(" Hi) as [H0 H1].
  match goal with
  | |- String.length (JsString.trim (JsString.substring e ?a ?b)) < _ =>
      pose proof (length_trim (JsString.substring e a b));
      pose proof (length_substring e a b);
      destruct (findCloseParen_from
                  (JsString.substringFrom e (JsString.indexOf e "(" + 1))
                  (JsString.indexOf e "(" + 1)
                  (JsString.charAt e (JsString.indexOf e "("))
                  (false, None) 0 (Z.of_nat (String.length e) - 1)) as [E | E]
  end.
  - rewrite E in *. unfold JsString.clamp in *. cbn [String.length] in *. lia.
  - unfold JsString.clamp in *. cbn [String.length] in *. lia.
Qed.

(** The two operands around the operator that follows a parenthesized
    operand are shorter than the text. *)
Lemma parenthesizedOperand_parts e :
  JsString.includes e ")" = true ->
  JsString.search (JsString.substringFrom e (JsString.indexOf e ")"))
    Patterns.isArithmeticOperator <> (-1)%Z ->
  String.length (JsString.substring e 0 (JsString.indexOf e ")" + 1))
  < String.length e
  /\ String.length
       (JsString.substringFrom e
          (JsString.indexOf e ")"
           + JsString.search (JsString.substringFrom e (JsString.indexOf e ")"))
               Patterns.isArithmeticOperator + 1))
     < String.length e.
Proof.
  intros Hi Hs.
  destruct (indexOf_found_end e ")" Hi) as [H0 H1].
  cbn [String.length] in H1.
  assert (Hp : String.prefix ")"
                 (JsString.substringFrom e (JsString.indexOf e ")")) = true).
  { unfold JsString.substringFrom, JsString.indexOf in *.
    destruct (indexOf_go_found ")" e 0) as (_ & Hp & _); [lia |].
    rewrite Z.sub_0_r in Hp.
    replace (JsString.clamp (String.length e) (JsString.indexOf_go ")" e 0))
      with (Z.to_nat (JsString.indexOf_go ")" e 0))
      by (unfold JsString.clamp; lia).
    exact Hp. }
  pose proof (length_substringFrom e (JsString.indexOf e ")")) as Ltail.
  unfold JsString.search in *.
  destruct (JsString.substringFrom e (JsString.indexOf e ")"))
    as [| c rest] eqn:Etail; [discriminate Hp |].
  apply prefix_char in Hp. subst c.
  cbn [JsString.search_go] in *.
  change (Patterns.isArithmeticOperator ")") with false in *.
  cbv iota in *.
  pose proof (search_go_found _ _ _ Hs) as Hr.
  cbn [String.length] in Ltail.
  pose proof (length_substring_prefix e (JsString.indexOf e ")" + 1)).
  match goal with
  | |- _ /\ String.length (JsString.substringFrom e ?a) < _ =>
      pose proof (length_substringFrom e a)
  end.
  unfold JsString.clamp in *. lia.
Qed.

Ltac note H :=
  let T := type of H in
  match goal with
  | _ : T |- _ => fail 1
  | _ => pose proof H
  end.

(** Bounds on every [trim], [substring] and [substringFrom] in sight,
    then arithmetic. *)
Ltac shorter :=
  repeat match goal with
         | |- context [String.length (JsString.trim ?x)] => note (length_trim x)
         | _ : context [String.length (JsString.trim ?x)] |- _ =>
             note (length_trim x)
         | |- context [String.length (JsString.substring ?s ?a ?b)] =>
             note (length_substring s a b)
         | _ : context [String.length (JsString.substring ?s ?a ?b)] |- _ =>
             note (length_substring s a b)
         | |- context [String.length (JsString.substringFrom ?s ?a)] =>
             note (length_substringFrom s a)
         | _ : context [String.length (JsString.substringFrom ?s ?a)] |- _ =>
             note (length_substringFrom s a)
         end;
  unfold JsString.clamp in *; cbn [String.length] in *; lia.

Ltac budget_step :=
  match goal with
  | |- withinBudget (bind _ _) => apply withinBudget_bind; [ | intros ? ? ]
  | |- withinBudget (ret _) => apply withinBudget_ret
  | |- withinBudget (throw _) => apply withinBudget_throw
  | |- withinBudget (beyond PatternSyntax) => apply withinBudget_pattern
  | |- withinBudget (lookupEnv _) => apply withinBudget_lookupEnv
  | |- withinBudget (newArray _) => apply withinBudget_newArray
  | |- withinBudget (assign _ _) => apply withinBudget_assign
  | |- withinBudget (unbind _) => apply withinBudget_unbind
  | |- withinBudget (_splitExpression _ _) => apply withinBudget_splitExpression
  | |- withinBudget (callFunction _ _) => apply withinBudget_callFunction
  | |- withinBudget (if ?c then _ else _) => destruct c eqn:?
  | |- withinBudget (match ?x with _ => _ end) => destruct x eqn:?
  end.

Section Budget.

Variable self : string -> M value.
Variable n : nat.
Hypothesis self_budget : forall e, String.length e < n -> withinBudget (self e).

Lemma budget_predicateCallback predicate item :
  String.length predicate < n ->
  withinBudget (predicateCallback self predicate item).
Proof.
  intros H. unfold predicateCallback. repeat budget_step.
  apply withinBudget_finally. now apply self_budget.
Qed.

Lemma budget_mapM {A B} (f : A -> M B) l :
  (forall x, In x l -> withinBudget (f x)) -> withinBudget (mapM f l).
Proof.
  induction l as [| x l IH]; intros H; cbn [mapM]; repeat budget_step.
  - apply H. now left.
  - apply IH. intros y Hy. apply H. now right.
Qed.

Lemma budget_filterItems callback items :
  (forall item, withinBudget (callback item)) ->
  withinBudget (filterItems callback items).
Proof.
  intros H. induction items as [| x l IH]; cbn [filterItems];
    repeat budget_step; auto.
Qed.

Lemma budget_everyItem callback items :
  (forall item, withinBudget (callback item)) ->
  withinBudget (everyItem callback items).
Proof.
  intros H. induction items as [| x l IH]; cbn [everyItem];
    repeat budget_step; auto.
Qed.

Lemma budget_someItem callback items :
  (forall item, withinBudget (callback item)) ->
  withinBudget (someItem callback items).
Proof.
  intros H. induction items as [| x l IH]; cbn [someItem];
    repeat budget_step; auto.
Qed.

Lemma budget_parseArgumentsLoop rest prev currentArg q parenDepth args :
  String.length currentArg + String.length rest < n ->
  withinBudget (parseArgumentsLoop self rest prev currentArg q parenDepth args).
Proof.
  revert prev currentArg q parenDepth args.
  induction rest as [| char rest IH]; intros prev currentArg q parenDepth args H;
    cbn [parseArgumentsLoop]; cbv zeta; repeat budget_step.
  - apply self_budget. shorter.
  - apply self_budget. shorter.
  - apply IH. cbn [String.length] in *. lia.
  - apply IH. rewrite length_append. cbn [String.length] in *. lia.
Qed.

Lemma budget_parseArguments argsString :
  String.length argsString < n ->
  withinBudget (_parseArguments self argsString).
Proof.
  intros H. unfold _parseArguments. cbv zeta. repeat budget_step.
  - apply self_budget. shorter.
  - apply budget_parseArgumentsLoop. cbn [String.length]. lia.
Qed.

Lemma budget_evaluateFunctionCall e :
  JsString.includes e "(" = true ->
  JsString.endsWith e ")" = true ->
  String.length e <= n ->
  withinBudget (_evaluateFunctionCall self e).
Proof.
  intros Hi He Hn. pose proof (functionCall_arguments e Hi He) as Hargs.
  unfold _evaluateFunctionCall. cbv zeta.
  set (argsString := JsString.trim _) in *.
  repeat budget_step;
    try (apply self_budget; shorter);
    try (apply budget_parseArguments; lia);
    try (first [apply budget_filterItems | apply budget_everyItem
                | apply budget_someItem];
         intros item; apply budget_predicateCallback; shorter).
Qed.

Lemma budget_itBlock expr otherwise :
  withinBudget otherwise -> withinBudget (itBlock expr otherwise).
Proof. intros H. unfold itBlock. repeat budget_step; auto. Qed.

Lemma budget_applyOperator operator l r :
  withinBudget (applyOperator operator l r).
Proof. unfold applyOperator. repeat budget_step. Qed.

Lemma budget_parenthesizedBlock e otherwise :
  String.length e <= n ->
  withinBudget otherwise ->
  withinBudget (parenthesizedBlock self e otherwise).
Proof.
  intros Hn Ho. unfold parenthesizedBlock. cbv zeta.
  assert (Hlogical :
    withinBudget
      match Regex.exec Patterns.parenthesizedLogical e with
      | Some m =>
          let* leftValue := self (Regex.group m 1) in
          if String.eqb (Regex.group m 2) "&&"
             && negb (JsValue.toBoolean leftValue)
          then ret (VBoolean false)
          else if String.eqb (Regex.group m 2) "||"
                  && JsValue.toBoolean leftValue
          then ret (VBoolean true)
          else
            let* rightValue := self (Regex.group m 3) in
            if String.eqb (Regex.group m 2) "&&"
            then ret (if JsValue.toBoolean leftValue
                      then rightValue else leftValue)
            else ret (if JsValue.toBoolean leftValue
                      then leftValue else rightValue)
      | None => otherwise
      end).
  { destruct (Regex.exec Patterns.parenthesizedLogical e) as [m |] eqn:E;
      [| exact Ho].
    destruct (parenthesizedLogical_groups e m E) as [H1 H3].
    repeat budget_step; apply self_budget; lia. }
  destruct (JsString.includes e "(" && JsString.includes e ")") eqn:Ep;
    [| exact Ho].
  apply andb_true_iff in Ep. destruct Ep as [_ Ep].
  destruct (Regex.test Patterns.parenthesizedOperand e); [| exact Hlogical].
  destruct (negb (JsString.search
                    (JsString.substringFrom e (JsString.indexOf e ")"))
                    Patterns.isArithmeticOperator =? -1)%Z) eqn:Es;
    [| exact Hlogical].
  apply negb_true_iff, Z.eqb_neq in Es.
  destruct (parenthesizedOperand_parts e Ep Es) as [Hl Hr].
  repeat budget_step; try (apply self_budget; lia).
  apply budget_applyOperator.
Qed.

Lemma budget_operands e operator :
  0 < String.length operator ->
  String.length e <= n ->
  withinBudget (operands self e operator).
Proof.
  intros Hop Hn. unfold operands. repeat budget_step.
  - match goal with
    | H : exists _ _, _splitExpression _ _ _ = _ |- _ =>
        destruct H as (st & st' & H); destruct a as [l r];
        apply splitExpression_shorter in H; [| exact Hop]
    end.
    apply self_budget. cbn [fst]. lia.
  - match goal with
    | H : exists _ _, _splitExpression _ _ _ = _ |- _ =>
        destruct H as (st & st' & H); destruct a as [l r];
        apply splitExpression_shorter in H; [| exact Hop]
    end.
    apply self_budget. cbn [snd]. lia.
Qed.

(** The parts of a split on [/], [&&] or [||], once a value has come
    back from [_splitExpression]. *)
Ltac split_parts :=
  match goal with
  | H : exists _ _, _splitExpression _ ?op _ = (Return ?a, _) |- _ =>
      destruct H as (? & ? & H); destruct a as [? ?];
      apply splitExpression_shorter in H; [| cbn [String.length]; lia];
      cbn [fst snd]
  end.

Lemma budget_evaluateExpressionBody expr0 :
  String.length expr0 <= n ->
  withinBudget (evaluateExpressionBody self expr0).
Proof.
  intros Hn0. unfold evaluateExpressionBody. cbv zeta.
  pose proof (length_trim expr0) as Ht.
  set (e := JsString.trim expr0) in *.
  assert (Hn : String.length e <= n) by lia.
  clearbody e. clear Ht Hn0 expr0.
  repeat budget_step.
  apply budget_itBlock.
  repeat budget_step.
  apply budget_parenthesizedBlock; [exact Hn |].
  repeat budget_step;
    try (apply budget_operands; [cbn [String.length]; lia | exact Hn]).
  - (* ( ... ) *)
    match goal with
    | H : (_ && _)%bool = true |- _ =>
        apply andb_true_iff in H; destruct H as [Hs He]
    end.
    pose proof (startsWith_endsWith_two e "(" ")" ltac:(discriminate) Hs He).
    apply self_budget. shorter.
  - (* [ ... ] *)
    match goal with
    | H : (JsString.startsWith e "[" && _)%bool = true |- _ =>
        apply andb_true_iff in H; destruct H as [Hs He]
    end.
    pose proof (startsWith_endsWith_two e "[" "]" ltac:(discriminate) Hs He).
    apply budget_mapM. intros item Hin.
    apply length_split_pieces in Hin.
    apply self_budget. shorter.
  - (* f( ... ) *)
    match goal with
    | H : (JsString.includes e "(" && _)%bool = true |- _ =>
        apply andb_true_iff in H; destruct H as [Hi He]
    end.
    now apply budget_evaluateFunctionCall.
  - split_parts. apply self_budget. lia.
  - split_parts. apply self_budget. lia.
  - split_parts. apply self_budget. lia.
  - split_parts. apply self_budget. lia.
  - split_parts. apply self_budget. lia.
  - split_parts. apply self_budget. lia.
  - (* ! and not *)
    apply self_budget.
    destruct (JsString.startsWith e "!") eqn:Es.
    + apply length_prefix in Es. shorter.
    + match goal with
      | H : (_ || _)%bool = true |- _ => cbn [orb] in H; apply length_prefix in H
      end.
      shorter.
Qed.

End Budget.

(** [_evaluateExpression] never uses up a budget that exceeds the length
    of its argument. *)
Lemma evaluateExpression_withinBudget fuel expr :
  String.length expr < fuel -> withinBudget (_evaluateExpression fuel expr).
Proof.
  revert expr. induction fuel as [| fuel IH]; intros expr H; [lia |].
  cbn [_evaluateExpression].
  apply (budget_evaluateExpressionBody (_evaluateExpression fuel) fuel);
    [exact IH | lia].
Qed.








(** *** More fuel changes nothing *)

Lemma refines_refl {A} (m : M A) : refines m m.
Proof. now intros st _. Qed.

Lemma refines_bind {A B} (m1 m2 : M A) (k1 k2 : A -> M B) :
  refines m1 m2 -> (forall a, refines (k1 a) (k2 a)) ->
  refines (bind m1 k1) (bind m2 k2).
Proof.
  intros Hm Hk st. unfold bind. specialize (Hm st).
  destruct (m1 st) as [[a | message | l] st1]; cbn [fst] in *.
  - intros H. rewrite Hm by discriminate. now apply Hk.
  - intros _. now rewrite Hm by discriminate.
  - intros H. rewrite Hm; [reflexivity |].
    intros [= ->]. now apply H.
Qed.

Lemma refines_finally {A} (b1 b2 : M A) cleanup :
  refines b1 b2 -> refines (finally b1 cleanup) (finally b2 cleanup).
Proof.
  intros Hb st. unfold finally. specialize (Hb st).
  destruct (b1 st) as [r st1]; cbn [fst] in *.
  intros H. now rewrite Hb.
Qed.

Ltac refines_step :=
  match goal with
  | |- refines ?m ?m => apply refines_refl
  | |- refines (bind _ _) (bind _ _) => apply refines_bind; [ | intros ? ]
  | |- refines (finally _ _) (finally _ _) => apply refines_finally
  | H : forall e, refines (?f e) (?g e) |- refines (?f _) (?g _) => apply H
  | |- refines (if ?c then _ else _) _ => destruct c
  | |- refines (match ?x with _ => _ end) _ => destruct x
  end.

Section MoreFuel.

Variables self1 self2 : string -> M value.
Hypothesis self_refines : forall e, refines (self1 e) (self2 e).

Lemma refines_predicateCallback predicate item :
  refines (predicateCallback self1 predicate item)
          (predicateCallback self2 predicate item).
Proof. unfold predicateCallback. repeat refines_step. Qed.

Lemma refines_mapM {A B} (f1 f2 : A -> M B) l :
  (forall a, refines (f1 a) (f2 a)) -> refines (mapM f1 l) (mapM f2 l).
Proof.
  intros H. induction l as [| x l IH]; cbn [mapM]; repeat refines_step; auto.
Qed.

Lemma refines_filterItems c1 c2 items :
  (forall item, refines (c1 item) (c2 item)) ->
  refines (filterItems c1 items) (filterItems c2 items).
Proof.
  intros H. induction items as [| x l IH]; cbn [filterItems];
    repeat refines_step; auto.
Qed.

Lemma refines_everyItem c1 c2 items :
  (forall item, refines (c1 item) (c2 item)) ->
  refines (everyItem c1 items) (everyItem c2 items).
Proof.
  intros H. induction items as [| x l IH]; cbn [everyItem];
    repeat refines_step; auto.
Qed.

Lemma refines_someItem c1 c2 items :
  (forall item, refines (c1 item) (c2 item)) ->
  refines (someItem c1 items) (someItem c2 items).
Proof.
  intros H. induction items as [| x l IH]; cbn [someItem];
    repeat refines_step; auto.
Qed.

Lemma refines_parseArgumentsLoop rest prev currentArg q parenDepth args :
  refines (parseArgumentsLoop self1 rest prev currentArg q parenDepth args)
          (parseArgumentsLoop self2 rest prev currentArg q parenDepth args).
Proof.
  revert prev currentArg q parenDepth args.
  induction rest as [| char rest IH]; intros; cbn [parseArgumentsLoop];
    cbv zeta; repeat refines_step; auto.
Qed.

Lemma refines_parseArguments argsString :
  refines (_parseArguments self1 argsString) (_parseArguments self2 argsString).
Proof.
  unfold _parseArguments. cbv zeta.
  repeat refines_step; auto using refines_parseArgumentsLoop.
Qed.

Lemma refines_evaluateFunctionCall expr :
  refines (_evaluateFunctionCall self1 expr) (_evaluateFunctionCall self2 expr).
Proof.
  unfold _evaluateFunctionCall. cbv zeta.
  repeat refines_step;
    auto using refines_parseArguments, refines_filterItems,
      refines_everyItem, refines_someItem, refines_predicateCallback.
Qed.

Lemma refines_itBlock expr o1 o2 :
  refines o1 o2 -> refines (itBlock expr o1) (itBlock expr o2).
Proof. intros H. unfold itBlock. repeat refines_step; auto. Qed.

Lemma refines_parenthesizedBlock expr o1 o2 :
  refines o1 o2 ->
  refines (parenthesizedBlock self1 expr o1) (parenthesizedBlock self2 expr o2).
Proof.
  intros H. unfold parenthesizedBlock. cbv zeta.
  repeat refines_step; auto.
Qed.

Lemma refines_operands expr operator :
  refines (operands self1 expr operator) (operands self2 expr operator).
Proof. unfold operands. repeat refines_step. Qed.

Lemma refines_evaluateExpressionBody expr :
  refines (evaluateExpressionBody self1 expr) (evaluateExpressionBody self2 expr).
Proof.
  unfold evaluateExpressionBody. cbv zeta.
  repeat refines_step.
  apply refines_itBlock.
  repeat refines_step.
  apply refines_parenthesizedBlock.
  repeat refines_step;
    auto using refines_mapM, refines_evaluateFunctionCall, refines_operands.
Qed.

End MoreFuel.

Lemma evaluateExpression_more_fuel fuel extra expr :
  refines (_evaluateExpression fuel expr) (_evaluateExpression (extra + fuel) expr).
Proof.
  revert expr. induction fuel as [| fuel IH]; intros expr.
  - intros st H. now contradict H.
  - rewrite Nat.add_succ_r. cbn [_evaluateExpression].
    now apply refines_evaluateExpressionBody.
Qed.

(** X3.  Any two budgets above the length of the expression give the
    same result, which is a value or an error and never the exhaustion of
    the budget: the fuel is a device of the embedding and what [evaluate]
    is given does not matter. *)
Theorem evaluateExpression_fuel_irrelevant fuel fuel' expr st :
  String.length expr < fuel ->
  String.length expr < fuel' ->
  _evaluateExpression fuel expr st = _evaluateExpression fuel' expr st
  /\ fst (_evaluateExpression fuel expr st) <> Beyond OutOfFuel.
Proof.
  intros H H'.
  pose proof (evaluateExpression_withinBudget (S (String.length expr)) expr
                ltac:(lia) st) as Hb.
  pose proof (evaluateExpression_more_fuel (S (String.length expr))
                (fuel - S (String.length expr)) expr st Hb) as E.
  pose proof (evaluateExpression_more_fuel (S (String.length expr))
                (fuel' - S (String.length expr)) expr st Hb) as E'.
  replace (fuel - S (String.length expr) + S (String.length expr))
    with fuel in E by lia.
  replace (fuel' - S (String.length expr) + S (String.length expr))
    with fuel' in E' by lia.
  split; [congruence |]. now rewrite E.
Qed.

Local Close Scope nat_scope.

(** ** Texts cut at a separator *)

Lemma prefix_empty s : String.prefix "" s = true.
Proof. now destruct s. Qed.

Lemma indexOf_go_char c s i :
  0 <= i ->
  (0 <=? JsString.indexOf_go (String c "") s i) = true
  <-> In c (list_ascii_of_string s).
Proof.
  revert i. induction s as [| d s IH]; intros i Hi.
  - cbn. split; [discriminate | contradiction].
  - change (JsString.indexOf_go (String c "") (String d s) i)
      with (if String.prefix (String c "") (String d s) then i
            else JsString.indexOf_go (String c "") s (i + 1)).
    cbn [String.prefix list_ascii_of_string In].
    destruct (ascii_dec c d) as [-> | Hne].
    + rewrite prefix_empty. split; [now left | intros _; lia].
    + rewrite (IH (i + 1)) by lia. split; [now right |].
      intros [E | H]; [now contradict Hne | exact H].
Qed.

Lemma includes_char c s :
  JsString.includes s (String c "") = true <-> In c (list_ascii_of_string s).
Proof. unfold JsString.includes, JsString.indexOf. now apply indexOf_go_char. Qed.

Lemma append_cons c s t : String c s +:+ t = String c (s +:+ t).
Proof. reflexivity. Qed.

Lemma append_empty_l t : "" +:+ t = t.
Proof. reflexivity. Qed.

Lemma append_empty_r s : s +:+ "" = s.
Proof.
  induction s as [| c s IH]; [reflexivity |]. rewrite append_cons. now rewrite IH.
Qed.

Lemma chars_append s t :
  list_ascii_of_string (s +:+ t)
  = (list_ascii_of_string s ++ list_ascii_of_string t)%list.
Proof.
  induction s as [| c s IH]; [reflexivity |].
  rewrite append_cons. cbn [list_ascii_of_string]. rewrite IH. reflexivity.
Qed.

Lemma split_go_skip a sep' pre rest cur :
  ~ In a (list_ascii_of_string pre) ->
  JsString.split_go (String a sep') (pre +:+ rest) 0 cur
  = JsString.split_go (String a sep') rest 0
      (rev (list_ascii_of_string pre) ++ cur)%list.
Proof.
  revert cur. induction pre as [| c pre IH]; intros cur Hpre; [reflexivity |].
  rewrite append_cons. cbn [JsString.split_go String.prefix].
  destruct (ascii_dec a c) as [-> | _]; [contradict Hpre; now left |].
  rewrite IH by (intros H; apply Hpre; now right).
  cbn [list_ascii_of_string rev]. now rewrite <- app_assoc.
Qed.

Lemma ofRev_rev s : JsString.ofRev (rev (list_ascii_of_string s)) = s.
Proof.
  unfold JsString.ofRev. rewrite rev_involutive.
  apply string_of_list_ascii_of_string.
Qed.









(** * The claims *)

(** C1, as amended.  While a predicate body is evaluated, [@it] is bound
    in the session environment itself, under the key [@it]: the callback
    of [_evaluateFunctionCall] stores the item there, evaluates the
    predicate, and deletes the key whether the predicate returned or
    threw, so that no [@it] is left after a predicate evaluation, be it
    one nested in another.  From an environment without [@it],
    evaluating an expression leaves the environment as it was; and there
    a reference to [@it] fails with the "only available within
    collection function predicates" error. *)
Theorem it_bound_in_environment fuel expr st :
  environment st !! itKey = None ->
  environment (snd (_evaluateExpression fuel expr st)) = environment st
  /\ (forall self predicate item st0,
        predicateCallback self predicate item st0
        = (fst (self predicate (setEnv itKey item st0)),
           deleteEnv itKey (snd (self predicate (setEnv itKey item st0)))))
  /\ (forall item st0,
        environment (setEnv itKey item st0) !! itKey = Some item
        /\ environment (deleteEnv itKey st0) !! itKey = None)
  /\ (forall self predicate item st0,
        environment (snd (predicateCallback self predicate item st0)) !! itKey
        = None)
  /\ (JsString.includes (JsString.trim expr) "@it" = true ->
      _evaluateExpression (S fuel) expr st = (Throw itUnavailable, st))
  /\ evaluate "@it" st
     = (Return (Failure ("Error evaluating expression: " +:+ itUnavailable)), st).
Proof.
  intros Hnone. split; [| split; [| split; [| split; [| split]]]].
  - now apply evaluateExpression_environment.
  - intros self predicate item st0.
    unfold predicateCallback, bind, finally. rewrite assign_it.
    now destruct (self predicate (setEnv itKey item st0)).
  - intros item st0. split.
    + apply lookup_insert_eq.
    + apply lookup_delete_eq.
  - intros self predicate item st0.
    unfold predicateCallback, bind, finally. rewrite assign_it. cbn [fst snd].
    destruct (self predicate (setEnv itKey item st0)). cbn [snd].
    apply lookup_delete_eq.
  - now apply evaluateExpression_it_unavailable.
  - apply (evaluate_it_unavailable "@it" st); auto.
Qed.

Lemma it_bound_in_environment_witness :
  evaluate "@it" constructor
  = (Return (Failure ("Error evaluating expression: " +:+ itUnavailable)),
     constructor).
Proof.
  apply (it_bound_in_environment 0 "@it" constructor).
  vm_compute. reflexivity.
Defined.

(** C1 fails as stated.  After a predicate has thrown in the special
    case of [evaluate], [@it] stays bound in the session, and a later
    [evaluate("@it")] succeeds; and a collection call nested inside a
    predicate deletes the binding of the outer one, whose next reference
    to [@it] then fails. *)
Lemma it_leaks_and_is_clobbered :
  session ["filter(myCollection, {@it + nope})"; "@it"] constructor
  = ([Return (Failure "Error evaluating filter(): Variable 'nope' is not defined");
      Return (Success "1")],
     setEnv itKey (VNumber (JsNumber.ofZ 1)) constructor)
  /\ evaluate "filter(myCollection, {@it + any(myCollection, {@it}) + @it})"
       constructor
     = (Return (Failure
          "Error evaluating filter(): Variable @it is only available within collection function predicates"),
        constructor).
Proof. split; vm_compute; reflexivity. Qed.

(** C2 (the code departs from the claim).  [evaluate] on
    ["false && (1/0 == 0)"] does not short-circuit: the text is taken for
    a call of a function named [false &&], its argument [1/0 == 0] is
    evaluated, and the call fails with "Division by zero".  Without the
    parentheses the text is split on [/] before [&&], with the same
    failure.  Where an expression does get split on [&&] or [||], the
    right operand is left alone once the left one decides. *)
Theorem short_circuit_example_divides st :
  evaluate "false && (1/0 == 0)" st
  = (Return (Failure "Error evaluating expression: Division by zero"), st)
  /\ evaluate "false && 1/0" st
     = (Return (Failure "Error evaluating expression: Division by zero"), st)
  /\ evaluate "false && undefinedVar" st = (Return (Success "False"), st)
  /\ evaluate "true || undefinedVar" st = (Return (Success "True"), st).
Proof. repeat split; vm_compute; reflexivity. Qed.

(** C3, as amended.  [evaluate] takes a collection call only when the
    input matches both patterns of its special case: a function name, a
    variable name for the collection, and a brace that opens with [@it].
    [filter(myCollection, {@it > 1})] is such an input and gives
    ["[2, 3]"].  Any other single expression that mentions [@it], such as
    a call on an array literal or with a predicate that does not begin
    with [@it], fails with the "only available within collection function
    predicates" error when the environment has no [@it]. *)
Theorem collection_call_only_by_pattern expr st :
  environment st !! itKey = None ->
  JsString.includes (JsString.trim expr) "@it" = true ->
  isAssignment (JsString.trim expr) = false ->
  isStringComparison expr = false ->
  JsString.includes expr ";" = false ->
  isEntryCollectionCall expr = false ->
  evaluate expr st
  = (Return (Failure ("Error evaluating expression: " +:+ itUnavailable)), st)
  /\ evaluate "filter(myCollection, {@it > 1})" constructor
     = (Return (Success "[2, 3]"), mkState (environment constructor) 2).
Proof.
  intros Hnone Hit Hassign Hcmp Hsemi Hentry.
  split; [now apply evaluate_it_unavailable | vm_compute; reflexivity].
Qed.

Lemma collection_call_only_by_pattern_witness :
  evaluate "filter(myCollection, {1 == @it})" constructor
  = (Return (Failure ("Error evaluating expression: " +:+ itUnavailable)),
     constructor).
Proof.
  apply (collection_call_only_by_pattern
           "filter(myCollection, {1 == @it})" constructor);
    vm_compute; reflexivity.
Defined.

(** C3 fails as stated: with an array literal for the collection,
    [evaluate] does not return ["[2, 3]"] but the "only available" error. *)
Lemma collection_call_array_literal_fails :
  evaluate "filter([1,2,3], {@it > 1})" constructor
  = (Return (Failure
       "Error evaluating expression: Variable @it is only available within collection function predicates"),
     constructor).
Proof. vm_compute. reflexivity. Qed.

(** C4, as amended.  [==] and [!=] are JavaScript's strict equality on
    the values of the operands: numbers by value, strings by content,
    booleans by value, arrays by identity (the same array object), and
    operands of different kinds compare unequal without an error.  The
    input of a quoted ["abc"], [==] and a quoted ["abc"] gives ["True"]. *)
Theorem equality_is_strict st x y :
  environment st !! "a" = Some x ->
  environment st !! "b" = Some y ->
  evaluate "a == b" st
  = (Return (Success (if JsValue.strictEquals x y then "True" else "False")), st)
  /\ evaluate "a != b" st
     = (Return (Success (if JsValue.strictEquals x y then "False" else "True")), st)
  /\ (kindOf x <> kindOf y -> JsValue.strictEquals x y = false)
  /\ (forall m n,
        JsValue.strictEquals (VNumber m) (VNumber n) = JsNumber.eqb m n)
  /\ (forall s t, JsValue.strictEquals (VString s) (VString t) = true <-> s = t)
  /\ (forall b c, JsValue.strictEquals (VBoolean b) (VBoolean c) = true <-> b = c)
  /\ (forall r1 items1 r2 items2,
        JsValue.strictEquals (VArray r1 items1) (VArray r2 items2) = true
        <-> r1 = r2)
  /\ evaluate (quoted "abc" +:+ " == " +:+ quoted "abc") st
     = (Return (Success "True"), st).
Proof.
  intros Ha Hb. repeat split.
  - run_binary Ha Hb. now destruct (JsValue.strictEquals x y).
  - run_binary Ha Hb. now destruct (JsValue.strictEquals x y).
  - destruct x as [| | | | | | name], y as [| | | | | | name'];
      simpl; intros H; try reflexivity; try now contradict H.
    destruct (String.eqb_spec name name') as [-> | _]; [now contradict H | reflexivity].
  - apply String.eqb_eq.
  - intros ->. apply String.eqb_refl.
  - destruct b, c; simpl; auto; discriminate.
  - intros ->. apply Bool.eqb_reflx.
  - apply Nat.eqb_eq.
  - intros ->. apply Nat.eqb_refl.
Qed.

Lemma equality_is_strict_witness :
  evaluate "a == b"
    (mkState {[ "a" := VNumber (JsNumber.ofZ 5); "b" := VString "5" ]} 0)
  = (Return (Success "False"),
     mkState {[ "a" := VNumber (JsNumber.ofZ 5); "b" := VString "5" ]} 0).
Proof.
  apply (equality_is_strict
           (mkState {[ "a" := VNumber (JsNumber.ofZ 5); "b" := VString "5" ]} 0)
           (VNumber (JsNumber.ofZ 5)) (VString "5"));
    vm_compute; reflexivity.
Defined.

(** C4 fails as stated.  [evaluate("[1,2] == [1,2]")] does not return
    ["True"]: the text is read as one array literal and the call fails.
    And two arrays with the same elements, bound to two variables,
    compare unequal. *)
Lemma array_equality_is_not_structural :
  evaluate "[1,2] == [1,2]" constructor
  = (Return (Failure "Error evaluating expression: Unknown expression: [1"),
     constructor)
  /\ lastResult ["p = [1,2]"; "q = [1,2]"; "p == q"]
     = Some (Return (Success "False"))
  /\ lastResult ["p = [1,2]"; "q = p"; "p == q"]
     = Some (Return (Success "True")).
Proof. repeat split; vm_compute; reflexivity. Qed.

(** C5, as amended.  The arithmetic operators convert their operands the
    way JavaScript does instead of failing: [+] concatenates as soon as
    one operand is a string (two strings give their concatenation), and
    [-], [*], [/] work on the operands converted to numbers.  Where an
    expression is split on [/], a right operand that is the number zero
    fails with "Division by zero". *)
Theorem arithmetic_converts_operands st x y :
  environment st !! "a" = Some x ->
  environment st !! "b" = Some y ->
  evaluate "a + b" st = (Return (Success (_formatValue (JsValue.plus x y))), st)
  /\ evaluate "a - b" st = (Return (Success (_formatValue (JsValue.minus x y))), st)
  /\ evaluate "a * b" st = (Return (Success (_formatValue (JsValue.times x y))), st)
  /\ evaluate "a / b" st
     = (if JsValue.strictEquals y (VNumber JsNumber.zero)
        then (Return (Failure "Error evaluating expression: Division by zero"), st)
        else (Return (Success (_formatValue (JsValue.divide x y))), st))
  /\ (forall s t, JsValue.plus (VString s) (VString t) = VString (s +:+ t))
  /\ (forall s, JsValue.minus (VString s) y
                = VNumber (JsNumber.sub (JsNumber.ofString s) (JsValue.toNumber y))).
Proof.
  intros Ha Hb. split; [| split; [| split; [| split; [| split]]]].
  - run_binary Ha Hb. reflexivity.
  - run_binary Ha Hb. reflexivity.
  - run_binary Ha Hb. reflexivity.
  - run_binary Ha Hb.
    match goal with
    | |- context [if ?c then _ else _] => destruct c
    end; [reflexivity |].
    rewrite (evaluateExpression_a _ _ _ Ha). reflexivity.
  - reflexivity.
  - reflexivity.
Qed.

Lemma arithmetic_converts_operands_witness :
  evaluate "a + b"
    (mkState {[ "a" := VString "ab"; "b" := VString "cd" ]} 0)
  = (Return (Success (quoted "abcd")),
     mkState {[ "a" := VString "ab"; "b" := VString "cd" ]} 0).
Proof.
  apply (arithmetic_converts_operands
           (mkState {[ "a" := VString "ab"; "b" := VString "cd" ]} 0)
           (VString "ab") (VString "cd"));
    vm_compute; reflexivity.
Defined.

(** C5 fails as stated: [+] on two strings does not fail, it
    concatenates them; and so does [-] not fail, it gives [NaN]. *)
Lemma plus_concatenates_strings :
  lastResult ["x = " +:+ quoted "a"; "y = " +:+ quoted "b"; "x + y"]
  = Some (Return (Success (quoted "ab")))
  /\ lastResult ["x = " +:+ quoted "a"; "y = " +:+ quoted "b"; "x - y"]
     = Some (Return (Success "NaN")).
Proof. split; vm_compute; reflexivity. Qed.

(** C6 (the code departs from the claim).  ["2 + 3 * 4"] gives ["14"] and
    ["(2 + 3) * 4"] gives ["20"], but a chain of one operator is split at
    its first occurrence, so ["10 - 2 - 3"] is computed as 10 - (2 - 3),
    which is ["11"]. *)
Theorem subtraction_chain_associates_right st :
  evaluate "2 + 3 * 4" st = (Return (Success "14"), st)
  /\ evaluate "(2 + 3) * 4" st = (Return (Success "20"), st)
  /\ evaluate "10 - 2 - 3" st = (Return (Success "11"), st).
Proof. repeat split; vm_compute; reflexivity. Qed.




(** C8 (the code departs from the claim).  The statements of an input
    are the pieces that [split(';')] cuts it into, and a semicolon
    inside a string literal cuts like any other: an assignment of the
    string ["a;b"] to [x] followed by [; x] is three pieces, the first
    of which is no expression, so the call fails and [x] stays unbound,
    where the two statements of the claim give ["a;b"].  For the pieces
    as the code cuts them the claim holds.  When the pieces before [s]
    have run and [s] throws, [evaluate] reports the failure and the
    session keeps every binding made so far; when [s] is the last piece
    and returns [v], the result is [v] formatted; when [s] is an
    assignment, to a name other than [__proto__], whose value is [v],
    the pieces after it run in the environment with that binding.
    [evaluate("x = 5; y = 10; x + y")] gives ["15"], and after
    [evaluate("x = 5; undefinedVar")] has failed [x] is bound to 5. *)
Theorem statement_sequence expr st pre s post r1 st1 :
  isStringComparison expr = false ->
  JsString.includes expr ";" = true ->
  statementsOf expr = (pre ++ s :: post)%list ->
  runStatements (S (String.length expr)) pre None st = (Return r1, st1) ->
  (forall message st2,
      _evaluateStatement (S (String.length expr)) s st1 = (Throw message, st2) ->
      evaluate expr st
      = (Return (Failure ("Error evaluating expression: " +:+ message)), st2)
      /\ forall k, k <> itKey -> environment st2 !! k = environment st1 !! k)
  /\ (forall v st2,
      post = [] ->
      _evaluateStatement (S (String.length expr)) s st1 = (Return v, st2) ->
      evaluate expr st = (Return (Success (_formatValue v)), st2))
  /\ (forall v st2,
      isAssignment (JsString.trim s) = true ->
      List.nth 0 (assignmentParts (JsString.trim s)) "" <> protoKey ->
      _evaluateExpression (S (String.length expr))
        (List.nth 1 (assignmentParts (JsString.trim s)) "") st1
      = (Return v, st2) ->
      runStatements (S (String.length expr)) (pre ++ s :: post)%list None st
      = runStatements (S (String.length expr)) post (Some v)
          (setEnv (List.nth 0 (assignmentParts (JsString.trim s)) "") v st2))
  /\ evaluate "x = 5; y = 10; x + y" constructor
     = (Return (Success "15"),
        setEnv "y" (VNumber (JsNumber.ofZ 10))
          (setEnv "x" (VNumber (JsNumber.ofZ 5)) constructor))
  /\ evaluate "x = 5; undefinedVar" constructor
     = (Return (Failure
          "Error evaluating expression: Variable 'undefinedVar' is not defined"),
        setEnv "x" (VNumber (JsNumber.ofZ 5)) constructor)
  /\ environment (setEnv "x" (VNumber (JsNumber.ofZ 5)) constructor) !! "x"
     = Some (VNumber (JsNumber.parseFloat "5"))
  /\ statementsOf ("x = " +:+ quoted "a;b" +:+ "; x")
     = ["x = " +:+ String doubleQuote "a"; "b" +:+ String doubleQuote ""; "x"]
  /\ evaluate ("x = " +:+ quoted "a;b" +:+ "; x") constructor
     = (Return (Failure ("Error evaluating expression: Unknown expression: "
                           +:+ String doubleQuote "a")),
        constructor)
  /\ evaluate ("x = " +:+ quoted "ab" +:+ "; x") constructor
     = (Return (Success (quoted "ab")), setEnv "x" (VString "ab") constructor).
Proof.
  intros Hcmp Hsemi Hstmts Hpre.
  assert (Hblank : String.eqb (JsString.trim expr) "" = false).
  { apply String.eqb_neq. now apply includes_semicolon_not_blank. }
  assert (Hrun : forall out st2,
    _evaluateStatement (S (String.length expr)) s st1 = (out, st2) ->
    runStatements (S (String.length expr)) (pre ++ s :: post)%list None st
    = match out with
      | Return v => runStatements (S (String.length expr)) post (Some v) st2
      | Throw message => (Throw message, st2)
      | Beyond l => (Beyond l, st2)
      end).
  { intros out st2 Hs. rewrite runStatements_app, Hpre. simpl.
    unfold bind. rewrite Hs. now destruct out. }
  split; [| split; [| split; [| split; [| split; [| split; [| split; [| split]]]]]]].
  - intros message st2 Hs. split.
    + unfold evaluate. rewrite Hblank, Hcmp, Hsemi, Hstmts.
      unfold catch, bind. rewrite (Hrun _ _ Hs). reflexivity.
    + intros k Hk. apply unchangedButIt_lookup; [exact Hk |].
      eapply evaluateStatement_throw. exact Hs.
  - intros v st2 -> Hs.
    unfold evaluate. rewrite Hblank, Hcmp, Hsemi, Hstmts.
    unfold catch, bind. rewrite (Hrun _ _ Hs). reflexivity.
  - intros v st2 Ha Hname Hv.
    now rewrite (Hrun _ _ (evaluateStatement_assignment _ _ _ _ _ Ha Hname Hv)).
  - vm_compute. reflexivity.
  - vm_compute. reflexivity.
  - vm_compute. reflexivity.
  - vm_compute. reflexivity.
  - vm_compute. reflexivity.
  - vm_compute. reflexivity.
Qed.

Lemma statement_sequence_witness :
  evaluate "x = 5; undefinedVar" constructor
  = (Return (Failure
       "Error evaluating expression: Variable 'undefinedVar' is not defined"),
     setEnv "x" (VNumber (JsNumber.ofZ 5)) constructor)
  /\ environment (setEnv "x" (VNumber (JsNumber.ofZ 5)) constructor) !! "x"
     = Some (VNumber (JsNumber.ofZ 5)).
Proof.
  destruct (statement_sequence "x = 5; undefinedVar" constructor
              ["x = 5"] "undefinedVar" [] (Some (VNumber (JsNumber.ofZ 5)))
              (setEnv "x" (VNumber (JsNumber.ofZ 5)) constructor))
    as [Hthrow _].
  - vm_compute. reflexivity.
  - vm_compute. reflexivity.
  - vm_compute. reflexivity.
  - vm_compute. reflexivity.
  - split.
    + apply (Hthrow "Variable 'undefinedVar' is not defined"
               (setEnv "x" (VNumber (JsNumber.ofZ 5)) constructor)).
      vm_compute. reflexivity.
    + vm_compute. reflexivity.
Defined.

(** C9 (the code departs from the claim).  [evaluate("5 @@ 3")] succeeds
    with ["5"]: [parseFloat] reads the leading number and ignores the
    rest.  A text without a number in front, such as ["@@ 3"], is
    refused as an unknown expression. *)
Theorem unrecognized_characters_skipped st :
  evaluate "5 @@ 3" st = (Return (Success "5"), st)
  /\ evaluate "@@ 3" st
     = (Return (Failure "Error evaluating expression: Unknown expression: @@ 3"),
        st).
Proof. split; vm_compute; reflexivity. Qed.

(** C10.  A new parser's environment holds exactly one binding,
    [myCollection], bound to the array of 1, 2 and 3, and
    [evaluate("myCollection")] on it succeeds with ["[1, 2, 3]"], leaving
    the session as it was. *)
Theorem constructor_seeds_myCollection :
  dom (environment constructor) = ({[ "myCollection" ]} : gset string)
  /\ environment constructor !! "myCollection"
     = Some (VArray 0 [VNumber (JsNumber.parseFloat "1");
                       VNumber (JsNumber.parseFloat "2");
                       VNumber (JsNumber.parseFloat "3")])
  /\ evaluate "myCollection" constructor
     = (Return (Success "[1, 2, 3]"), constructor).
Proof.
  split; [| split].
  - unfold constructor. simpl. apply dom_singleton_L.
  - vm_compute. reflexivity.
  - vm_compute. reflexivity.
Qed.

(** * Further properties of the evaluator *)

(** ** What the entry point answers *)

(** The error of the first lines of [evaluate] is given for a blank input
    only: every other failure carries the prefix of a [catch] or names a
    variable. *)
Lemma evaluate_failure_message expr st st' :
  evaluate expr st = (Return (Failure "Expression cannot be empty"), st') ->
  JsString.trim expr = "".
Proof.
  unfold evaluate. cbv zeta.
  destruct (String.eqb (JsString.trim expr) "") eqn:E;
    [intros _; now apply String.eqb_eq |].
  unfold catch.
  match goal with
  | |- context [match ?b st with _ => _ end] =>
      destruct (b st) as [[r | m | l] s] eqn:B
  end; [| discriminate | discriminate].
  intros [= -> ->]. exfalso. revert B.
  destruct (isStringComparison expr);
    [destruct (String.eqb _ _); discriminate |].
  destruct (JsString.includes expr ";").
  { unfold bind. destruct (runStatements _ _ _ st) as [[[v |] | m | l] s];
      discriminate. }
  assert (S : forall s0,
            (let* v := _evaluateStatement (S (String.length expr)) expr in
             ret (Success (_formatValue v))) st
            <> (Return (Failure "Expression cannot be empty"), s0)).
  { intros s0. unfold bind.
    destruct (_evaluateStatement _ _ st) as [[v | m | l] s]; discriminate. }
  destruct (Regex.test Patterns.collectionCallStart expr); [| apply S].
  destruct (Regex.exec Patterns.collectionCall expr) as [m |]; [| apply S].
  unfold evaluateCollection. unfold bind at 1. unfold lookupEnv.
  destruct (environment st !! Regex.group m 2) as [v |];
    [destruct v | destruct (isInherited _)]; try discriminate.
  match goal with
  | |- catch (bind ?b _) _ _ = _ -> False => generalize b
  end.
  intros body. unfold catch, bind, ret.
  destruct (body st) as [[v | msg | l] s]; cbn; discriminate.
Qed.

(** X1.  [evaluate] answers "Expression cannot be empty", without
    touching the session, exactly on the inputs that [trim] leaves empty:
    no other input, whatever the session, is ever given that error. *)
Theorem evaluate_blank expr st :
  JsString.trim expr = ""
  <-> evaluate expr st = (Return (Failure "Expression cannot be empty"), st).
Proof.
  split.
  - intros H. unfold evaluate. now rewrite H.
  - apply evaluate_failure_message.
Qed.


Lemma evaluateExpression_fuel_irrelevant_witness :
  _evaluateExpression 12 "(2 + 3) * 4" constructor
  = _evaluateExpression 40 "(2 + 3) * 4" constructor
  /\ fst (_evaluateExpression 12 "(2 + 3) * 4" constructor) <> Beyond OutOfFuel.
Proof.
  apply (evaluateExpression_fuel_irrelevant 12 40 "(2 + 3) * 4" constructor);
    cbn [String.length]; lia.
Defined.

(** ** Only an assignment binds a variable *)

Lemma sameBindings_refl st : sameBindings st st.
Proof. now intros k _. Qed.

Lemma sameBindings_trans st1 st2 st3 :
  sameBindings st1 st2 -> sameBindings st2 st3 -> sameBindings st1 st3.
Proof. intros H12 H23 k Hk. now rewrite H23, H12. Qed.

Lemma preserves_keeps {A} (m : M A) : preserves m -> keeps m.
Proof. intros H st k Hk. now apply unchangedButIt_lookup. Qed.

Lemma keeps_ret {A} (a : A) : keeps (ret a).
Proof. intros st. apply sameBindings_refl. Qed.

Lemma keeps_throw {A} message : keeps (@throw A message).
Proof. intros st. apply sameBindings_refl. Qed.

Lemma keeps_newArray items : keeps (newArray items).
Proof. now intros st k _. Qed.

Lemma keeps_lookupEnv name : keeps (lookupEnv name).
Proof. intros st. apply sameBindings_refl. Qed.

Lemma keeps_assign_it v : keeps (assign itKey v).
Proof. intros st k Hk. cbn. apply lookup_insert_ne. congruence. Qed.

Lemma keeps_unbind_it : keeps (unbind itKey).
Proof. intros st k Hk. cbn. apply lookup_delete_ne. congruence. Qed.

Lemma keeps_bind {A B} (m : M A) (k : A -> M B) :
  keeps m -> (forall a, keeps (k a)) -> keeps (bind m k).
Proof.
  intros Hm Hk st. unfold bind. specialize (Hm st).
  destruct (m st) as [[a | message | l] st1]; cbn [snd] in *;
    [| exact Hm | exact Hm].
  eapply sameBindings_trans; [exact Hm | apply Hk].
Qed.

Lemma keeps_catch {A} (body : M A) handler :
  keeps body -> (forall message, keeps (handler message)) ->
  keeps (catch body handler).
Proof.
  intros Hb Hh st. unfold catch. specialize (Hb st).
  destruct (body st) as [[a | message | l] st1]; cbn [snd] in *;
    [exact Hb | | exact Hb].
  eapply sameBindings_trans; [exact Hb | apply Hh].
Qed.

Ltac keeps_step :=
  match goal with
  | |- keeps (ret _) => apply keeps_ret
  | |- keeps (throw _) => apply keeps_throw
  | |- keeps (newArray _) => apply keeps_newArray
  | |- keeps (lookupEnv _) => apply keeps_lookupEnv
  | |- keeps (assign itKey _) => apply keeps_assign_it
  | |- keeps (unbind itKey) => apply keeps_unbind_it
  | |- keeps (_evaluateExpression _ _) =>
      apply preserves_keeps, preserves_evaluateExpression
  | |- keeps (bind _ _) => apply keeps_bind; [ | intros ? ]
  | |- keeps (catch _ _) => apply keeps_catch; [ | intros ? ]
  | |- keeps (if ?c then _ else _) => destruct c
  | |- keeps (match ?x with _ => _ end) => destruct x
  end.

Lemma keeps_entryCallback fuel predicate item :
  keeps (entryCallback fuel predicate item).
Proof. unfold entryCallback. repeat keeps_step. Qed.

Lemma keeps_filterItems callback items :
  (forall item, keeps (callback item)) -> keeps (filterItems callback items).
Proof.
  intros H. induction items as [| x l IH]; cbn [filterItems];
    repeat keeps_step; auto.
Qed.

Lemma keeps_everyItem callback items :
  (forall item, keeps (callback item)) -> keeps (everyItem callback items).
Proof.
  intros H. induction items as [| x l IH]; cbn [everyItem];
    repeat keeps_step; auto.
Qed.

Lemma keeps_someItem callback items :
  (forall item, keeps (callback item)) -> keeps (someItem callback items).
Proof.
  intros H. induction items as [| x l IH]; cbn [someItem];
    repeat keeps_step; auto.
Qed.

Lemma keeps_evaluateCollection fuel functionName collectionName predicate :
  keeps (evaluateCollection fuel functionName collectionName predicate).
Proof.
  unfold evaluateCollection.
  repeat keeps_step;
    first [apply keeps_filterItems | apply keeps_everyItem
           | apply keeps_someItem];
    intros item; apply keeps_entryCallback.
Qed.

Lemma keeps_evaluateStatement fuel statement :
  isAssignment (JsString.trim statement) = false ->
  keeps (_evaluateStatement fuel statement).
Proof.
  intros H. unfold _evaluateStatement. cbv zeta. rewrite H.
  apply preserves_keeps, preserves_evaluateExpression.
Qed.

Lemma keeps_runStatements fuel statements result :
  (forall s, In s statements -> isAssignment (JsString.trim s) = false) ->
  keeps (runStatements fuel statements result).
Proof.
  revert result. induction statements as [| s rest IH]; intros result H;
    cbn [runStatements]; repeat keeps_step.
  - apply keeps_evaluateStatement. apply H. now left.
  - apply IH. intros s' Hs'. apply H. now right.
Qed.

(** *** The code units of a text and of its pieces *)

Lemma chars_trimStart c s :
  In c (list_ascii_of_string (JsString.trimStart s)) ->
  In c (list_ascii_of_string s).
Proof.
  induction s as [| d s IH]; cbn [JsString.trimStart]; [auto |].
  destruct (JsString.isWhiteSpace d); [| auto].
  intros H. right. now apply IH.
Qed.

Lemma chars_trimEnd c s :
  In c (list_ascii_of_string (JsString.trimEnd s)) ->
  In c (list_ascii_of_string s).
Proof.
  induction s as [| d s IH]; cbn [JsString.trimEnd]; [auto |].
  destruct (JsString.trimEnd s) as [| e r].
  - destruct (JsString.isWhiteSpace d); [contradiction |].
    cbn. intros [-> | []]. now left.
  - cbn [list_ascii_of_string In] in *. intros [-> | H]; [now left |].
    right. now apply IH.
Qed.

Lemma chars_trim c s :
  In c (list_ascii_of_string (JsString.trim s)) ->
  In c (list_ascii_of_string s).
Proof. intros H. now apply chars_trimStart, chars_trimEnd. Qed.

Lemma chars_split_go c sep s skip cur piece :
  In piece (JsString.split_go sep s skip cur) ->
  In c (list_ascii_of_string piece) ->
  In c cur \/ In c (list_ascii_of_string s).
Proof.
  revert skip cur. induction s as [| d s IH]; intros skip cur;
    cbn [JsString.split_go].
  - intros [<- | []]. unfold JsString.ofRev.
    rewrite list_ascii_of_string_of_list_ascii. intros H. left.
    now apply in_rev.
  - destruct skip as [| k].
    + destruct (String.prefix sep (String d s)).
      * intros [<- | Hin] Hc.
        -- left. unfold JsString.ofRev in Hc.
           rewrite list_ascii_of_string_of_list_ascii in Hc. now apply in_rev.
        -- destruct (IH _ _ Hin Hc) as [[] | H]. right. now right.
      * intros Hin Hc. destruct (IH _ _ Hin Hc) as [[-> | H] | H].
        -- right. now left.
        -- now left.
        -- right. now right.
    + intros Hin Hc. destruct (IH _ _ Hin Hc) as [H | H]; [now left |].
      right. now right.
Qed.

Lemma chars_split c s sep piece :
  In piece (JsString.split s sep) ->
  In c (list_ascii_of_string piece) -> In c (list_ascii_of_string s).
Proof.
  intros Hin Hc. destruct (chars_split_go c sep s 0 [] piece Hin Hc) as [[] | H].
  exact H.
Qed.

Lemma isAssignment_equals statement :
  isAssignment statement = true -> JsString.includes statement "=" = true.
Proof.
  unfold isAssignment. intros H.
  repeat (apply andb_true_iff in H; destruct H as [H _]). exact H.
Qed.

Lemma not_assignment_trim expr :
  JsString.includes expr "=" = false ->
  isAssignment (JsString.trim expr) = false.
Proof.
  intros H. destruct (isAssignment (JsString.trim expr)) eqn:E; [| reflexivity].
  apply isAssignment_equals, includes_char, chars_trim, includes_char in E.
  congruence.
Qed.

Lemma not_assignment_statements expr s :
  JsString.includes expr "=" = false ->
  In s (statementsOf expr) -> isAssignment (JsString.trim s) = false.
Proof.
  intros H Hin. apply not_assignment_trim.
  destruct (JsString.includes s "=") eqn:E; [| reflexivity].
  unfold statementsOf in Hin. apply filter_In in Hin. destruct Hin as [Hin _].
  apply in_map_iff in Hin. destruct Hin as (piece & <- & Hin).
  apply includes_char, chars_trim in E.
  apply (chars_split _ _ _ _ Hin), includes_char in E. congruence.
Qed.

(** X4.  An input without an equals sign binds nothing: whatever the
    input is (one expression, statements between semicolons, a
    collection call taken by the special case of [evaluate]) and however
    it ends, every variable other than [@it] is bound after the call to
    what it was bound to before. *)
Theorem evaluate_without_equals_sign expr st k :
  JsString.includes expr "=" = false ->
  k <> itKey ->
  environment (snd (evaluate expr st)) !! k = environment st !! k.
Proof.
  intros H Hk.
  assert (K : keeps (evaluate expr)); [| exact (K st k Hk)].
  unfold evaluate. cbv zeta. repeat keeps_step.
  - apply keeps_runStatements. intros s. now apply not_assignment_statements.
  - apply keeps_evaluateCollection.
  - apply keeps_evaluateStatement. now apply not_assignment_trim.
  - apply keeps_evaluateStatement. now apply not_assignment_trim.
Qed.

Lemma evaluate_without_equals_sign_witness :
  environment (snd (evaluate "filter(myCollection, {@it > 1})" constructor))
    !! "myCollection"
  = environment constructor !! "myCollection".
Proof.
  apply (evaluate_without_equals_sign "filter(myCollection, {@it > 1})"
           constructor "myCollection");
    [vm_compute; reflexivity | discriminate].
Defined.

(** ** Operators over an arbitrary session *)

(** As [run_evaluator], with the expected result set aside and more of
    the value-level functions kept folded. *)
Ltac run_symbolic :=
  lazy -[lookupEnv _evaluateExpression _formatValue setEnv deleteEnv
         JsValue.strictEquals JsValue.plus JsValue.minus JsValue.times
         JsValue.divide JsValue.toBoolean JsValue.lt JsValue.gt JsValue.le
         JsValue.ge JsValue.looseEqualsNumber callFunction JsNumber.leb
         JsNumber.ofNat JsNumber.toString JsNumber.truncate].

Ltac run_entry Ha Hb :=
  let expected := fresh "expected" in
  let Hexpected := fresh "Hexpected" in
  match goal with
  | |- _ = ?r => remember r as expected eqn:Hexpected
  end;
  unfold evaluate, _evaluateStatement; run_symbolic;
  match goal with
  | |- context [_evaluateExpression (S ?fuel) ?expr ?st] =>
      unfold_expression fuel expr
  end;
  run_symbolic;
  rewrite ?(evaluateExpression_a _ _ _ Ha), ?(evaluateExpression_b _ _ _ Hb);
  rewrite ?(evaluateExpression_a _ _ _ Ha), ?(evaluateExpression_b _ _ _ Hb);
  rewrite ?(lookupEnv_Some _ _ _ Ha), ?(lookupEnv_Some _ _ _ Hb);
  subst expected.

Lemma lookupEnv_bound name st bound :
  isInherited name = false ->
  environment st !! name = bound ->
  lookupEnv name st = (Return bound, st).
Proof. intros Hname H. unfold lookupEnv. rewrite H, Hname. now destruct bound. Qed.

Lemma evaluateExpression_a_bound fuel st bound :
  environment st !! "a" = bound ->
  _evaluateExpression (S fuel) "a" st
  = match bound with
    | Some v => (Return v, st)
    | None => (Throw (notDefined "a"), st)
    end.
Proof.
  intros H. unfold_expression fuel "a". run_symbolic.
  rewrite (lookupEnv_bound "a" _ _ eq_refl H). now destruct bound.
Qed.

(** X6.  [&&] and [||] give back one of their operands, not a boolean:
    the left one when it decides the result, the right one otherwise;
    and the right operand is not evaluated when the left one decides (an
    unbound variable there goes unnoticed).  [!] and [not] negate the
    truthiness of their operand, whatever its kind. *)
Theorem logical_operators_return_operands st x :
  environment st !! "a" = Some x ->
  (forall y, environment st !! "b" = Some y ->
     evaluate "a && b" st
     = (Return (Success (_formatValue (if JsValue.toBoolean x then y else x))), st)
     /\ evaluate "a || b" st
        = (Return (Success (_formatValue (if JsValue.toBoolean x then x else y))), st))
  /\ (environment st !! "b" = None -> JsValue.toBoolean x = false ->
      evaluate "a && b" st = (Return (Success (_formatValue x)), st))
  /\ (environment st !! "b" = None -> JsValue.toBoolean x = true ->
      evaluate "a || b" st = (Return (Success (_formatValue x)), st))
  /\ evaluate "!a" st
     = (Return (Success (if JsValue.toBoolean x then "False" else "True")), st)
  /\ evaluate "not a" st
     = (Return (Success (if JsValue.toBoolean x then "False" else "True")), st).
Proof.
  intros Ha. split; [| split; [| split; [| split]]].
  - intros y Hb. split.
    + run_entry Ha Hb. destruct (JsValue.toBoolean x); [| reflexivity].
      now rewrite (evaluateExpression_b _ _ _ Hb).
    + run_entry Ha Hb. destruct (JsValue.toBoolean x); [reflexivity |].
      now rewrite (evaluateExpression_b _ _ _ Hb).
  - intros Hb Hx. run_entry Ha Ha. now rewrite Hx.
  - intros Hb Hx. run_entry Ha Ha. now rewrite Hx.
  - run_entry Ha Ha. now destruct (JsValue.toBoolean x).
  - run_entry Ha Ha. now destruct (JsValue.toBoolean x).
Qed.

Lemma logical_operators_return_operands_witness :
  evaluate "a && b" (mkState {[ "a" := VString "" ]} 0)
  = (Return (Success (quoted "")), mkState {[ "a" := VString "" ]} 0).
Proof.
  assert (Ha : environment (mkState {[ "a" := VString "" ]} 0) !! "a"
               = Some (VString "")) by (vm_compute; reflexivity).
  pose proof (logical_operators_return_operands _ _ Ha) as H.
  destruct H as (_ & H & _).
  apply H; vm_compute; reflexivity.
Defined.

(** X7.  The relational operators never fail on operands of any kind:
    they are JavaScript's comparisons.  Two strings are compared by code
    units, and every comparison with [undefined] is false, [<=] and [>=]
    included. *)
Theorem relational_operators_coerce st x y :
  environment st !! "a" = Some x ->
  environment st !! "b" = Some y ->
  evaluate "a < b" st
  = (Return (Success (_formatValue (VBoolean (JsValue.lt x y)))), st)
  /\ evaluate "a > b" st
     = (Return (Success (_formatValue (VBoolean (JsValue.gt x y)))), st)
  /\ evaluate "a <= b" st
     = (Return (Success (_formatValue (VBoolean (JsValue.le x y)))), st)
  /\ evaluate "a >= b" st
     = (Return (Success (_formatValue (VBoolean (JsValue.ge x y)))), st)
  /\ (forall s t, JsValue.lt (VString s) (VString t) = JsString.ltb s t)
  /\ (JsValue.lt VUndefined y = false /\ JsValue.gt VUndefined y = false
      /\ JsValue.le VUndefined y = false /\ JsValue.ge VUndefined y = false).
Proof.
  intros Ha Hb. split; [| split; [| split; [| split; [| split]]]].
  - run_entry Ha Hb. reflexivity.
  - run_entry Ha Hb. reflexivity.
  - run_entry Ha Hb. reflexivity.
  - run_entry Ha Hb. reflexivity.
  - intros s t. unfold JsValue.lt, JsValue.lessThan. cbn.
    now destruct (JsString.ltb s t).
  - unfold JsValue.lt, JsValue.gt, JsValue.le, JsValue.ge, JsValue.lessThan.
    cbn [JsValue.toPrimitive JsValue.toNumber].
    destruct (JsValue.toPrimitive y); cbn;
      rewrite ?orb_true_r; cbn; auto.
Qed.

Lemma relational_operators_coerce_witness :
  evaluate "a < b"
    (mkState {[ "a" := VString "10"; "b" := VString "9" ]} 0)
  = (Return (Success "True"),
     mkState {[ "a" := VString "10"; "b" := VString "9" ]} 0).
Proof.
  assert (Ha : environment
                 (mkState {[ "a" := VString "10"; "b" := VString "9" ]} 0) !! "a"
               = Some (VString "10")) by (vm_compute; reflexivity).
  assert (Hb : environment
                 (mkState {[ "a" := VString "10"; "b" := VString "9" ]} 0) !! "b"
               = Some (VString "9")) by (vm_compute; reflexivity).
  pose proof (relational_operators_coerce _ _ _ Ha Hb) as H.
  apply proj1 in H. vm_compute in H |- *. exact H.
Defined.

Lemma evaluateExpression_paren_a fuel st v :
  environment st !! "a" = Some v ->
  _evaluateExpression (S (S fuel)) "(a)" st = (Return v, st).
Proof.
  intros H. unfold_expression (S fuel) "(a)". run_symbolic.
  now apply evaluateExpression_a.
Qed.

Lemma evaluateExpression_space_b fuel st v :
  environment st !! "b" = Some v ->
  _evaluateExpression (S fuel) " b" st = (Return v, st).
Proof.
  intros H. unfold_expression fuel " b". run_symbolic.
  now rewrite (lookupEnv_Some _ _ _ H).
Qed.

Ltac run_parenthesized Ha Hb :=
  unfold evaluate, _evaluateStatement; run_symbolic;
  match goal with
  | |- context [_evaluateExpression (S ?fuel) ?expr ?st] =>
      unfold_expression fuel expr
  end;
  run_symbolic;
  rewrite (evaluateExpression_paren_a _ _ _ Ha);
  rewrite (evaluateExpression_space_b _ _ _ Hb).

(** X8.  After a parenthesized left operand the four arithmetic
    operators are applied as they are: the division of this path has no
    check of the divisor, so a zero there gives [Infinity] or [NaN]
    where the division found by splitting fails with "Division by
    zero". *)
Theorem parenthesized_operand_unguarded st x y :
  environment st !! "a" = Some x ->
  environment st !! "b" = Some y ->
  evaluate "(a) / b" st
  = (Return (Success (_formatValue (JsValue.divide x y))), st)
  /\ evaluate "(a) * b" st
     = (Return (Success (_formatValue (JsValue.times x y))), st)
  /\ evaluate "(a) + b" st
     = (Return (Success (_formatValue (JsValue.plus x y))), st)
  /\ evaluate "(a) - b" st
     = (Return (Success (_formatValue (JsValue.minus x y))), st).
Proof.
  intros Ha Hb. split; [| split; [| split]];
    run_parenthesized Ha Hb; reflexivity.
Qed.

Lemma parenthesized_operand_unguarded_witness :
  evaluate "(a) / b"
    (mkState {[ "a" := VNumber (JsNumber.ofZ 6); "b" := VNumber JsNumber.zero ]} 0)
  = (Return (Success "Infinity"),
     mkState {[ "a" := VNumber (JsNumber.ofZ 6); "b" := VNumber JsNumber.zero ]} 0).
Proof.
  assert (Ha : environment
                 (mkState {[ "a" := VNumber (JsNumber.ofZ 6);
                             "b" := VNumber JsNumber.zero ]} 0) !! "a"
               = Some (VNumber (JsNumber.ofZ 6))) by (vm_compute; reflexivity).
  assert (Hb : environment
                 (mkState {[ "a" := VNumber (JsNumber.ofZ 6);
                             "b" := VNumber JsNumber.zero ]} 0) !! "b"
               = Some (VNumber JsNumber.zero)) by (vm_compute; reflexivity).
  pose proof (parenthesized_operand_unguarded _ _ _ Ha Hb) as H.
  apply proj1 in H. vm_compute in H |- *. exact H.
Defined.

Lemma evaluateExpression_it fuel st item :
  environment st !! "@it" = Some item ->
  _evaluateExpression (S fuel) "@it" st = (Return item, st).
Proof.
  intros H. unfold_expression fuel "@it". run_symbolic.
  now rewrite (lookupEnv_Some _ _ _ H).
Qed.

(** X21.  While [@it] is bound, [@it == 1] is decided by the pattern for
    a number literal with JavaScript's loose [==], but [@it == b] goes
    the general way and is decided with [===]: an item that is the
    string "1" equals the literal 1 and differs from a variable bound
    to 1. *)
Theorem it_equality_loose_or_strict st item y :
  environment st !! "@it" = Some item ->
  environment st !! "b" = Some y ->
  evaluate "@it == 1" st
  = (Return (Success (_formatValue
                        (VBoolean (JsValue.looseEqualsNumber item (JsNumber.ofZ 1))))),
     st)
  /\ evaluate "@it == b" st
     = (Return (Success (_formatValue (VBoolean (JsValue.strictEquals item y)))), st)
  /\ JsValue.looseEqualsNumber (VString "1") (JsNumber.ofZ 1) = true
  /\ JsValue.strictEquals (VString "1") (VNumber (JsNumber.ofZ 1)) = false.
Proof.
  intros Hit Hb. split; [| split; [| split]].
  - run_entry Hit Hb. reflexivity.
  - run_entry Hit Hb. rewrite (evaluateExpression_it _ _ _ Hit).
    rewrite (evaluateExpression_b _ _ _ Hb). reflexivity.
  - vm_compute. reflexivity.
  - reflexivity.
Qed.

Lemma it_equality_loose_or_strict_witness :
  evaluate "@it == b"
    (mkState {[ "@it" := VString "1"; "b" := VNumber (JsNumber.ofZ 1) ]} 0)
  = (Return (Success "False"),
     mkState {[ "@it" := VString "1"; "b" := VNumber (JsNumber.ofZ 1) ]} 0).
Proof.
  assert (Hit : environment
                  (mkState {[ "@it" := VString "1";
                              "b" := VNumber (JsNumber.ofZ 1) ]} 0) !! "@it"
                = Some (VString "1")) by (vm_compute; reflexivity).
  assert (Hb : environment
                 (mkState {[ "@it" := VString "1";
                             "b" := VNumber (JsNumber.ofZ 1) ]} 0) !! "b"
               = Some (VNumber (JsNumber.ofZ 1))) by (vm_compute; reflexivity).
  pose proof (it_equality_loose_or_strict _ _ _ Hit Hb) as H.
  destruct H as (_ & H & _). vm_compute in H |- *. exact H.
Defined.

(** ** Arrays *)

(** *** Small integers as binary64 numbers *)

Lemma digits2_pos_iter p k :
  digits2_pos (Pos.iter xO p k) = (digits2_pos p + k)%positive.
Proof.
  induction k as [| k IH] using Pos.peano_ind.
  - cbn. lia.
  - rewrite Pos.iter_succ. cbn [digits2_pos]. rewrite IH. lia.
Qed.

Lemma digits2_pos_bound p k :
  0 <= k -> Zpos p < 2 ^ k -> Zpos (digits2_pos p) <= k.
Proof.
  revert k. induction p as [p IH | p IH |]; intros k Hk H; cbn [digits2_pos].
  - assert (0 < k) by (destruct (Z.eq_dec k 0) as [-> | ]; [cbn in H |]; lia).
    replace k with (Z.succ (k - 1)) in H by lia.
    rewrite Z.pow_succ_r in H by lia.
    specialize (IH (k - 1) ltac:(lia) ltac:(lia)). lia.
  - assert (0 < k) by (destruct (Z.eq_dec k 0) as [-> | ]; [cbn in H |]; lia).
    replace k with (Z.succ (k - 1)) in H by lia.
    rewrite Z.pow_succ_r in H by lia.
    specialize (IH (k - 1) ltac:(lia) ltac:(lia)). lia.
  - destruct (Z.eq_dec k 0) as [-> | ]; [cbn in H |]; lia.
Qed.

(** A positive integer of at most 53 bits is a finite binary64 number
    whose exponent is its bit length less 53. *)
Lemma ofZ_small p :
  Zpos (digits2_pos p) <= 53 ->
  exists m, JsNumber.ofZ (Zpos p) = S754_finite false m (Zpos (digits2_pos p) - 53).
Proof.
  intros Hd.
  unfold JsNumber.ofZ, binary_normalize, binary_round.
  set (d := Zpos (digits2_pos p)) in *.
  assert (Hfexp : forall e, -52 <= e -> fexp JsNumber.prec JsNumber.emax (e + 53) = e).
  { intros e He. unfold fexp, emin, JsNumber.prec, JsNumber.emax. lia. }
  assert (E1 : fexp JsNumber.prec JsNumber.emax (d + 0) = d - 53).
  { replace (d + 0) with ((d - 53) + 53) by lia. apply Hfexp. lia. }
  rewrite E1.
  assert (Haux : forall mz,
            Zpos (digits2_pos mz) = 53 ->
            binary_round_aux JsNumber.prec JsNumber.emax false (Zpos mz) (d - 53)
              loc_Exact
            = S754_finite false mz (d - 53)).
  { intros mz Hmz.
    unfold binary_round_aux, shr_fexp. cbn [Zdigits2 shr_record_of_loc].
    rewrite Hmz. rewrite (Z.add_comm 53 (d - 53)), Hfexp by lia.
    rewrite Z.sub_diag. cbn [shr shr_m loc_of_shr_record round_nearest_even].
    cbn [Zdigits2]. rewrite Hmz, (Z.add_comm 53 (d - 53)), Hfexp by lia.
    rewrite Z.sub_diag. cbn [shr shr_m].
    unfold JsNumber.emax, JsNumber.prec.
    destruct (Z.leb_spec (d - 53) (1024 - 53)); [reflexivity | lia]. }
  unfold shl_align.
  destruct (d - 53 - 0) as [| k | k] eqn:Ek; [| lia |].
  - exists p. rewrite <- (Haux p) by lia. f_equal. lia.
  - exists (Pos.iter xO p k). apply Haux.
    rewrite digits2_pos_iter. lia.
Qed.

Lemma ofNat_positive n :
  (1 <= n)%nat -> Z.of_nat n < 2 ^ 53 ->
  JsNumber.leb (JsNumber.ofNat n) JsNumber.zero = false.
Proof.
  intros H1 Hn. unfold JsNumber.ofNat.
  destruct (Z.of_nat n) as [| p | p] eqn:E; [lia | | lia].
  destruct (ofZ_small p) as (m & ->); [| reflexivity].
  apply digits2_pos_bound; lia.
Qed.

Lemma ofNat_two_or_more n :
  (2 <= n)%nat -> Z.of_nat n < 2 ^ 53 ->
  JsNumber.leb (JsNumber.ofNat n) (JsNumber.ofZ 1) = false.
Proof.
  intros H2 Hn. unfold JsNumber.ofNat.
  destruct (Z.of_nat n) as [| p | p] eqn:E; [lia | | lia].
  destruct (ofZ_small p) as (m & ->).
  { apply digits2_pos_bound; lia. }
  assert (2 <= Zpos (digits2_pos p)).
  { destruct p; cbn [digits2_pos]; lia. }
  change (JsNumber.ofZ 1) with (S754_finite false 4503599627370496 (-52)).
  unfold JsNumber.leb, SFleb, SFcompare.
  destruct (Z.compare_spec (Zpos (digits2_pos p) - 53) (-52)); [lia | lia |].
  reflexivity.
Qed.

Ltac run_access Ha :=
  let expected := fresh "expected" in
  let Hexpected := fresh "Hexpected" in
  match goal with
  | |- _ = ?r => remember r as expected eqn:Hexpected
  end;
  unfold evaluate, _evaluateStatement; run_symbolic;
  match goal with
  | |- context [_evaluateExpression (S ?fuel) ?expr ?st] =>
      unfold_expression fuel expr
  end;
  run_symbolic; rewrite (lookupEnv_bound "a" _ _ eq_refl Ha);
  subst expected.

(** X9.  An array access checks, in this order, that the variable is
    bound, that it is bound to an array, and that the index is below the
    length; then it gives the element at that index, counted from 0.
    Shown for the indices 0 and 1 and any binding of the variable (an
    array has fewer than 2^32 elements). *)
Theorem array_access_bounds st bound :
  environment st !! "a" = bound ->
  (forall ref items,
     bound = Some (VArray ref items) -> Z.of_nat (List.length items) < 2 ^ 32) ->
  evaluate "a[0]" st
  = (Return
       match bound with
       | None =>
           Failure "Error evaluating expression: Variable 'a' is not defined"
       | Some (VArray _ (item :: _)) => Success (_formatValue item)
       | Some (VArray _ []) =>
           Failure "Error evaluating expression: Index out of bounds: 0"
       | Some _ =>
           Failure "Error evaluating expression: Variable 'a' is not an array"
       end, st)
  /\ evaluate "a[1]" st
     = (Return
          match bound with
          | None =>
              Failure "Error evaluating expression: Variable 'a' is not defined"
          | Some (VArray _ (_ :: item :: _)) => Success (_formatValue item)
          | Some (VArray _ _) =>
              Failure "Error evaluating expression: Index out of bounds: 1"
          | Some _ =>
              Failure "Error evaluating expression: Variable 'a' is not an array"
          end, st).
Proof.
  intros Ha Hlen.
  assert (H32 : 2 ^ 32 < 2 ^ 53) by reflexivity.
  split.
  - run_access Ha.
    destruct bound as [v |]; [| reflexivity].
    destruct v as [| n | s | b | ref items | p | builtin]; try reflexivity.
    match goal with
    | |- context [JsNumber.ofNat ?n] => change n with (List.length items)
    end.
    match goal with
    | |- context [JsNumber.toString ?i] =>
        replace (JsNumber.toString i) with "0" by (vm_compute; reflexivity);
        replace (JsNumber.truncate i) with 0 by (vm_compute; reflexivity);
        change i with JsNumber.zero
    end.
    specialize (Hlen ref _ eq_refl).
    destruct items as [| x rest]; [reflexivity |].
    rewrite ofNat_positive; [reflexivity | cbn [List.length]; lia | lia].
  - run_access Ha.
    destruct bound as [v |]; [| reflexivity].
    destruct v as [| n | s | b | ref items | p | builtin]; try reflexivity.
    match goal with
    | |- context [JsNumber.ofNat ?n] => change n with (List.length items)
    end.
    match goal with
    | |- context [JsNumber.toString ?i] =>
        replace (JsNumber.toString i) with "1" by (vm_compute; reflexivity);
        replace (JsNumber.truncate i) with 1 by (vm_compute; reflexivity);
        change i with (JsNumber.ofZ 1)
    end.
    specialize (Hlen ref _ eq_refl).
    destruct items as [| x [| y rest]]; [reflexivity | reflexivity |].
    rewrite ofNat_two_or_more; [reflexivity | cbn [List.length]; lia | lia].
Qed.

Lemma array_access_bounds_witness :
  evaluate "a[1]" (mkState {[ "a" := VArray 0 [VString "x"] ]} 1)
  = (Return (Failure "Error evaluating expression: Index out of bounds: 1"),
     mkState {[ "a" := VArray 0 [VString "x"] ]} 1).
Proof.
  assert (Ha : environment (mkState {[ "a" := VArray 0 [VString "x"] ]} 1) !! "a"
               = Some (VArray 0 [VString "x"])) by (vm_compute; reflexivity).
  assert (Hlen : forall ref items,
            Some (VArray 0 [VString "x"]) = Some (VArray ref items) ->
            Z.of_nat (List.length items) < 2 ^ 32).
  { intros ref items [= <- <-]. cbn [List.length]. reflexivity. }
  pose proof (array_access_bounds _ _ Ha Hlen) as H.
  apply proj2 in H. exact H.
Defined.



(** X11.  An assignment stores the value of its right side under the
    name on its left, and a later call reads it back: [a = b] and then
    [a] both display the value of [b].  For an array the two names are
    bound to the same array, not to a copy: [a == b] holds afterwards. *)
Theorem assignment_then_lookup st y :
  environment st !! "b" = Some y ->
  session ["a = b"; "a"] st
  = ([Return (Success (_formatValue y)); Return (Success (_formatValue y))],
     setEnv "a" y st)
  /\ (forall ref items,
        y = VArray ref items ->
        evaluate "a == b" (setEnv "a" y st)
        = (Return (Success "True"), setEnv "a" y st)).
Proof.
  intros Hb.
  assert (Ha : environment (setEnv "a" y st) !! "a" = Some y)
    by apply lookup_insert_eq.
  assert (Hb' : environment (setEnv "a" y st) !! "b" = Some y).
  { unfold setEnv. cbn [environment]. now rewrite lookup_insert_ne. }
  assert (E1 : evaluate "a = b" st
               = (Return (Success (_formatValue y)), setEnv "a" y st)).
  { run_entry Hb Hb. reflexivity. }
  assert (E2 : evaluate "a" (setEnv "a" y st)
               = (Return (Success (_formatValue y)), setEnv "a" y st)).
  { run_entry Ha Ha. reflexivity. }
  split.
  - cbn [session]. now rewrite E1, E2.
  - intros ref items ->. run_entry Ha Hb'.
    cbn [JsValue.strictEquals]. now rewrite Nat.eqb_refl.
Qed.

Lemma assignment_then_lookup_witness :
  session ["a = b"; "a"] (mkState {[ "b" := VBoolean false ]} 0)
  = ([Return (Success "False"); Return (Success "False")],
     mkState {[ "a" := VBoolean false; "b" := VBoolean false ]} 0).
Proof.
  assert (Hb : environment (mkState {[ "b" := VBoolean false ]} 0) !! "b"
               = Some (VBoolean false)) by (vm_compute; reflexivity).
  pose proof (assignment_then_lookup _ _ Hb) as H.
  apply proj1 in H. vm_compute in H |- *. exact H.
Defined.

(** *** The collection functions *)

(** The predicate [@it > 1] applied to one item by the callback of
    [evaluate]. *)
Lemma entryCallback_greater_than_one fuel item st :
  entryCallback (S fuel) "@it > 1" item st
  = (Return (VBoolean (JsValue.gt item (VNumber (JsNumber.ofZ 1)))),
     deleteEnv itKey st).
Proof.
  unfold entryCallback, bind, assign.
  unfold_expression fuel "@it > 1". run_symbolic.
  rewrite (lookupEnv_Some "@it" (setEnv "@it" item st) item)
    by apply lookup_insert_eq.
  unfold deleteEnv, setEnv, itKey. cbn [environment nextRef].
  rewrite delete_insert_eq. reflexivity.
Qed.

Lemma deleteEnv_absent name st :
  environment st !! name = None -> deleteEnv name st = st.
Proof.
  intros H. destruct st as [env n]. unfold deleteEnv. cbn in *.
  now rewrite delete_id.
Qed.

Lemma filterItems_greater_than_one fuel items st :
  environment st !! itKey = None ->
  filterItems (entryCallback (S fuel) "@it > 1") items st
  = (Return (List.filter
               (fun item => JsValue.gt item (VNumber (JsNumber.ofZ 1))) items),
     st).
Proof.
  intros Hit. induction items as [| item rest IH]; [reflexivity |].
  cbn [filterItems List.filter]. unfold bind.
  rewrite entryCallback_greater_than_one, (deleteEnv_absent _ _ Hit).
  rewrite IH. cbn [JsValue.toBoolean].
  now destruct (JsValue.gt item (VNumber (JsNumber.ofZ 1))).
Qed.

Lemma everyItem_greater_than_one fuel items st :
  environment st !! itKey = None ->
  everyItem (entryCallback (S fuel) "@it > 1") items st
  = (Return (List.forallb
               (fun item => JsValue.gt item (VNumber (JsNumber.ofZ 1))) items),
     st).
Proof.
  intros Hit. induction items as [| item rest IH]; [reflexivity |].
  cbn [everyItem List.forallb]. unfold bind.
  rewrite entryCallback_greater_than_one, (deleteEnv_absent _ _ Hit).
  cbn [JsValue.toBoolean].
  destruct (JsValue.gt item (VNumber (JsNumber.ofZ 1)));
    [exact IH | reflexivity].
Qed.

Lemma someItem_greater_than_one fuel items st :
  environment st !! itKey = None ->
  someItem (entryCallback (S fuel) "@it > 1") items st
  = (Return (List.existsb
               (fun item => JsValue.gt item (VNumber (JsNumber.ofZ 1))) items),
     st).
Proof.
  intros Hit. induction items as [| item rest IH]; [reflexivity |].
  cbn [someItem List.existsb]. unfold bind.
  rewrite entryCallback_greater_than_one, (deleteEnv_absent _ _ Hit).
  cbn [JsValue.toBoolean].
  destruct (JsValue.gt item (VNumber (JsNumber.ofZ 1)));
    [reflexivity | exact IH].
Qed.

Ltac run_collection Ha :=
  let expected := fresh "expected" in
  let Hexpected := fresh "Hexpected" in
  match goal with
  | |- _ = ?r => remember r as expected eqn:Hexpected
  end;
  unfold evaluate;
  lazy -[lookupEnv _evaluateExpression _formatValue setEnv deleteEnv
         evaluateCollection];
  unfold evaluateCollection, bind; rewrite (lookupEnv_Some _ _ _ Ha);
  unfold catch, bind; cbn [String.eqb Ascii.eqb Bool.eqb];
  subst expected.

(** X12.  On an array bound to a variable, [filter] keeps exactly the
    items for which the predicate is truthy, in their order, in a new
    array; [all] tells whether the predicate is truthy for every item
    and [any] whether it is for some item (so [all] is true and [any]
    false on an empty array).  The array bound to the variable stays as
    it is and no binding of [@it] is left. *)
Theorem collection_functions_on_array st ref items :
  environment st !! "a" = Some (VArray ref items) ->
  environment st !! itKey = None ->
  let holds := fun item => JsValue.gt item (VNumber (JsNumber.ofZ 1)) in
  evaluate "filter(a, {@it > 1})" st
  = (Return (Success (_formatValue (VArray (nextRef st) (List.filter holds items)))),
     mkState (environment st) (S (nextRef st)))
  /\ evaluate "all(a, {@it > 1})" st
     = (Return (Success (if List.forallb holds items then "True" else "False")), st)
  /\ evaluate "any(a, {@it > 1})" st
     = (Return (Success (if List.existsb holds items then "True" else "False")), st).
Proof.
  intros Ha Hit holds. split; [| split].
  - run_collection Ha.
    rewrite filterItems_greater_than_one by exact Hit. reflexivity.
  - run_collection Ha.
    rewrite everyItem_greater_than_one by exact Hit. reflexivity.
  - run_collection Ha.
    rewrite someItem_greater_than_one by exact Hit. reflexivity.
Qed.

Lemma collection_functions_on_array_witness :
  evaluate "all(a, {@it > 1})" (mkState {[ "a" := VArray 0 [] ]} 1)
  = (Return (Success "True"), mkState {[ "a" := VArray 0 [] ]} 1).
Proof.
  assert (Ha : environment (mkState {[ "a" := VArray 0 [] ]} 1) !! "a"
               = Some (VArray 0 [])) by (vm_compute; reflexivity).
  assert (Hit : environment (mkState {[ "a" := VArray 0 [] ]} 1) !! itKey = None)
    by (vm_compute; reflexivity).
  pose proof (collection_functions_on_array _ _ _ Ha Hit) as H.
  cbv zeta in H. destruct H as (_ & H & _). vm_compute in H |- *. exact H.
Defined.

(** ** Texts and their parts *)

Lemma append_assoc s t u : (s +:+ t) +:+ u = s +:+ t +:+ u.
Proof.
  induction s as [| c s IH]; [reflexivity |].
  rewrite !append_cons. now rewrite IH.
Qed.

Lemma append_not_empty s c : s +:+ String c "" <> "".
Proof. now destruct s. Qed.

Lemma drop_empty n : JsString.drop n "" = "".
Proof. now destruct n. Qed.

Lemma drop_append s t : JsString.drop (String.length s) (s +:+ t) = t.
Proof. induction s as [| c s IH]; [now destruct t | exact IH]. Qed.

Lemma drop_drop a b s :
  JsString.drop a (JsString.drop b s) = JsString.drop (b + a) s.
Proof.
  revert s. induction b as [| b IH]; intros s; [reflexivity |].
  destruct s as [| c s]; [now rewrite !drop_empty |].
  cbn [JsString.drop Nat.add]. apply IH.
Qed.

Lemma prefix_append t u : String.prefix t (t +:+ u) = true.
Proof.
  induction t as [| c t IH]; [apply prefix_empty |].
  rewrite append_cons. cbn [String.prefix].
  destruct (ascii_dec c c); [exact IH | congruence].
Qed.

Lemma prefix_drop p s :
  String.prefix p s = true -> s = p +:+ JsString.drop (String.length p) s.
Proof.
  revert s. induction p as [| a p IH]; intros s H.
  - now destruct s.
  - destruct s as [| b s]; [discriminate H |]. cbn [String.prefix] in H.
    destruct (ascii_dec a b) as [-> | _]; [| discriminate H].
    rewrite append_cons. cbn [String.length JsString.drop].
    now rewrite <- (IH s H).
Qed.

(** A text in which [operator] starts at index [i] is what comes before
    that index, [operator], and what comes after it. *)
Lemma split_at operator s i :
  String.prefix operator (JsString.drop i s) = true ->
  s = String.substring 0 i s +:+ operator
      +:+ JsString.drop (i + String.length operator) s.
Proof.
  revert s. induction i as [| i IH]; intros s H.
  - cbn [JsString.drop] in H. rewrite (prefix_drop _ _ H) at 1.
    cbn [Nat.add]. now destruct s.
  - destruct s as [| c s].
    + rewrite drop_empty in H. destruct operator; [| discriminate H].
      now rewrite drop_empty.
    + cbn [JsString.drop] in H. apply IH in H.
      cbn [String.substring Nat.add JsString.drop]. rewrite append_cons.
      now rewrite <- H.
Qed.

Lemma endsWith_append s t : JsString.endsWith (s +:+ t) t = true.
Proof.
  unfold JsString.endsWith. rewrite length_append.
  replace (String.length s + String.length t - String.length t)%nat
    with (String.length s) by lia.
  rewrite drop_append, String.eqb_refl.
  apply andb_true_iff. split; [| reflexivity]. apply Nat.leb_le. lia.
Qed.

Lemma startsWith_iff s t :
  JsString.startsWith s t = true <-> exists u, s = t +:+ u.
Proof.
  unfold JsString.startsWith. split.
  - intros H. eexists. now apply prefix_drop.
  - intros [u ->]. apply prefix_append.
Qed.

Lemma endsWith_iff s t :
  JsString.endsWith s t = true <-> exists u, s = u +:+ t.
Proof.
  split.
  - unfold JsString.endsWith. intros H. apply andb_true_iff in H.
    destruct H as [_ H]. apply String.eqb_eq in H.
    exists (String.substring 0 (String.length s - String.length t) s).
    pose proof (split_at "" s (String.length s - String.length t)
                  (prefix_empty _)) as E.
    rewrite append_empty_l in E. cbn [String.length] in E.
    rewrite Nat.add_0_r, H in E. exact E.
  - intros [u ->]. apply endsWith_append.
Qed.

Lemma includes_iff s t :
  JsString.includes s t = true <-> exists u v, s = u +:+ t +:+ v.
Proof.
  split.
  - intros H. unfold JsString.includes, JsString.indexOf in H.
    destruct (indexOf_go_found t s 0) as (_ & Hp & _); [lia |].
    rewrite Z.sub_0_r in Hp.
    exists (String.substring 0 (Z.to_nat (JsString.indexOf_go t s 0)) s),
           (JsString.drop (Z.to_nat (JsString.indexOf_go t s 0) + String.length t) s).
    apply split_at. exact Hp.
  - intros (u & v & ->). unfold JsString.includes, JsString.indexOf.
    assert (G : forall i, 0 <= i ->
              0 <= JsString.indexOf_go t (u +:+ t +:+ v) i).
    { induction u as [| c u IH]; intros i Hi.
      - rewrite append_empty_l.
        destruct (t +:+ v) eqn:E;
          cbn [JsString.indexOf_go]; rewrite <- E, prefix_append; exact Hi.
      - rewrite append_cons. cbn [JsString.indexOf_go].
        destruct (String.prefix t (String c (u +:+ t +:+ v))); [exact Hi |].
        apply IH. lia. }
    apply Z.leb_le. apply G. lia.
Qed.

(** ** The named functions *)

(** X13.  [len] and [isEmpty] take a string or an array and fail, with
    an error of their own, on a value of any other kind; [isEmpty] is
    true exactly for the empty string and the empty array. *)
Theorem len_and_isEmpty st x :
  environment st !! "a" = Some x ->
  evaluate "len(a)" st
  = (Return
       match x with
       | VString s =>
           Success (_formatValue (VNumber (JsNumber.ofNat (String.length s))))
       | VArray _ items =>
           Success (_formatValue (VNumber (JsNumber.ofNat (List.length items))))
       | _ =>
           Failure "Error evaluating expression: len() argument must be a string or array"
       end, st)
  /\ evaluate "isEmpty(a)" st
     = (Return
          match x with
          | VString s => Success (if String.eqb s "" then "True" else "False")
          | VArray _ items =>
              Success match items with [] => "True" | _ => "False" end
          | _ =>
              Failure "Error evaluating expression: isEmpty() argument must be a string or array"
          end, st).
Proof.
  intros Ha. split.
  - run_entry Ha Ha. destruct x as [| n | s | b | ref items | p | builtin]; reflexivity.
  - run_entry Ha Ha.
    destruct x as [| n | s | b | ref items | p | builtin]; try reflexivity.
    + now destruct s.
    + now destruct items.
Qed.

Lemma len_and_isEmpty_witness :
  evaluate "len(a)" (mkState {[ "a" := VNumber (JsNumber.ofZ 5) ]} 0)
  = (Return
       (Failure "Error evaluating expression: len() argument must be a string or array"),
     mkState {[ "a" := VNumber (JsNumber.ofZ 5) ]} 0).
Proof.
  assert (Ha : environment (mkState {[ "a" := VNumber (JsNumber.ofZ 5) ]} 0) !! "a"
               = Some (VNumber (JsNumber.ofZ 5))) by (vm_compute; reflexivity).
  pose proof (len_and_isEmpty _ _ Ha) as H.
  apply proj1 in H. vm_compute in H |- *. exact H.
Defined.

(** X14.  [contains] on two strings tells whether the second occurs in
    the first; on an array it tells whether some element is the given
    value (by [SameValueZero], so without conversion); in every other
    case, a string with a second argument that is not a string included,
    it fails with an error about its first argument. *)
Theorem contains_by_kind st x y :
  environment st !! "a" = Some x ->
  environment st !! "b" = Some y ->
  evaluate "contains(a, b)" st
  = (Return
       match x, y with
       | VString s, VString t =>
           Success (_formatValue (VBoolean (JsString.includes s t)))
       | VArray _ items, _ =>
           Success (_formatValue
                      (VBoolean (List.existsb
                                   (fun item => JsValue.sameValueZero item y) items)))
       | _, _ =>
           Failure "Error evaluating expression: contains() first argument must be a string or array"
       end, st)
  /\ (forall s t,
        JsString.includes s t = true <-> exists u v, s = u +:+ t +:+ v).
Proof.
  intros Ha Hb. split; [| apply includes_iff].
  run_entry Ha Hb.
  destruct x as [| n | s | b | ref items | p | builtin]; try reflexivity;
    destruct y as [| n' | s' | b' | ref' items' | p' | builtin']; reflexivity.
Qed.

Lemma contains_by_kind_witness :
  evaluate "contains(a, b)"
    (mkState {[ "a" := VString "a1"; "b" := VNumber (JsNumber.ofZ 1) ]} 0)
  = (Return
       (Failure "Error evaluating expression: contains() first argument must be a string or array"),
     mkState {[ "a" := VString "a1"; "b" := VNumber (JsNumber.ofZ 1) ]} 0).
Proof.
  assert (Ha : environment
                 (mkState {[ "a" := VString "a1";
                             "b" := VNumber (JsNumber.ofZ 1) ]} 0) !! "a"
               = Some (VString "a1")) by (vm_compute; reflexivity).
  assert (Hb : environment
                 (mkState {[ "a" := VString "a1";
                             "b" := VNumber (JsNumber.ofZ 1) ]} 0) !! "b"
               = Some (VNumber (JsNumber.ofZ 1))) by (vm_compute; reflexivity).
  pose proof (contains_by_kind _ _ _ Ha Hb) as H.
  apply proj1 in H. vm_compute in H |- *. exact H.
Defined.

(** X15.  [startsWith] and [endsWith] take two strings and fail on
    anything else; on two strings they tell whether the first is the
    second followed by some text, or some text followed by the second. *)
Theorem startsWith_endsWith_strings st x y :
  environment st !! "a" = Some x ->
  environment st !! "b" = Some y ->
  evaluate "startsWith(a, b)" st
  = (Return
       match x, y with
       | VString s, VString t =>
           Success (_formatValue (VBoolean (JsString.startsWith s t)))
       | _, _ =>
           Failure "Error evaluating expression: startsWith() arguments must be strings"
       end, st)
  /\ evaluate "endsWith(a, b)" st
     = (Return
          match x, y with
          | VString s, VString t =>
              Success (_formatValue (VBoolean (JsString.endsWith s t)))
          | _, _ =>
              Failure "Error evaluating expression: endsWith() arguments must be strings"
          end, st)
  /\ (forall s t, JsString.startsWith s t = true <-> exists u, s = t +:+ u)
  /\ (forall s t, JsString.endsWith s t = true <-> exists u, s = u +:+ t).
Proof.
  intros Ha Hb. split; [| split; [| split]].
  - run_entry Ha Hb.
    destruct x as [| n | s | b | ref items | p | builtin]; try reflexivity;
      destruct y as [| n' | s' | b' | ref' items' | p' | builtin']; reflexivity.
  - run_entry Ha Hb.
    destruct x as [| n | s | b | ref items | p | builtin]; try reflexivity;
      destruct y as [| n' | s' | b' | ref' items' | p' | builtin']; reflexivity.
  - apply startsWith_iff.
  - apply endsWith_iff.
Qed.

Lemma startsWith_endsWith_strings_witness :
  evaluate "endsWith(a, b)"
    (mkState {[ "a" := VString "hello"; "b" := VString "lo" ]} 0)
  = (Return (Success "True"),
     mkState {[ "a" := VString "hello"; "b" := VString "lo" ]} 0).
Proof.
  assert (Ha : environment
                 (mkState {[ "a" := VString "hello"; "b" := VString "lo" ]} 0) !! "a"
               = Some (VString "hello")) by (vm_compute; reflexivity).
  assert (Hb : environment
                 (mkState {[ "a" := VString "hello"; "b" := VString "lo" ]} 0) !! "b"
               = Some (VString "lo")) by (vm_compute; reflexivity).
  pose proof (startsWith_endsWith_strings _ _ _ Ha Hb) as H.
  destruct H as (_ & H & _). vm_compute in H |- *. exact H.
Defined.

(** X16.  Each named function checks the number of its arguments before
    their kinds: called with any other number of arguments, of whatever
    kinds, it fails with its "requires exactly" error and leaves the
    session alone. *)
Theorem function_arity functionName n args st :
  In (functionName, n)
     [("len", 1%nat); ("contains", 2%nat); ("startsWith", 2%nat);
      ("endsWith", 2%nat); ("substring", 3%nat); ("isEmpty", 1%nat);
      ("matches", 2%nat)] ->
  List.length args <> n ->
  exists message,
    callFunction functionName args st = (Throw message, st)
    /\ String.prefix (functionName +:+ "() requires exactly ") message = true.
Proof.
  intros Hin Hn. cbn [In] in Hin.
  repeat (destruct Hin as [[= <- <-] | Hin]); [.. | contradiction];
    destruct args as [| a [| b [| c [| d rest]]]];
    try (now contradict Hn);
    try (eexists; split; reflexivity);
    destruct a; try (eexists; split; reflexivity);
    destruct b; try (eexists; split; reflexivity);
    destruct c; eexists; split; reflexivity.
Qed.

Lemma function_arity_witness :
  exists message,
    callFunction "substring" [VString "hello"; VNumber (JsNumber.ofZ 1)] constructor
    = (Throw message, constructor)
    /\ String.prefix ("substring" +:+ "() requires exactly ") message = true.
Proof.
  apply (function_arity "substring" 3
           [VString "hello"; VNumber (JsNumber.ofZ 1)] constructor).
  - cbn [In]. do 4 right. now left.
  - cbn [List.length]. lia.
Defined.

(** X17.  A name that is none of the seven functions fails with "Unknown
    function", whatever the arguments; and the arguments of a call are
    evaluated before the name is looked at, so that an unbound variable
    among them is what the call of an unknown function reports. *)
Theorem unknown_function functionName args st :
  ~ In functionName
      ["len"; "contains"; "startsWith"; "endsWith"; "substring"; "isEmpty";
       "matches"] ->
  callFunction functionName args st
  = (Throw ("Unknown function: " +:+ functionName), st)
  /\ (forall x, environment st !! "a" = Some x ->
      evaluate "foo(a)" st
      = (Return (Failure "Error evaluating expression: Unknown function: foo"), st))
  /\ (environment st !! "a" = None ->
      evaluate "foo(a)" st
      = (Return (Failure "Error evaluating expression: Variable 'a' is not defined"),
         st)).
Proof.
  intros Hname. split; [| split].
  - unfold callFunction.
    repeat match goal with
           | |- context [String.eqb functionName ?known] =>
               destruct (String.eqb_spec functionName known) as [-> | _];
               [exfalso; apply Hname; cbn [In]; tauto |]
           end.
    reflexivity.
  - intros x Ha. run_entry Ha Ha. reflexivity.
  - intros Ha.
    unfold evaluate, _evaluateStatement. run_symbolic.
    match goal with
    | |- context [_evaluateExpression (S ?fuel) ?expr ?st] =>
        unfold_expression fuel expr
    end.
    run_symbolic.
    rewrite (evaluateExpression_a_bound _ _ _ Ha). reflexivity.
Qed.

Lemma unknown_function_witness :
  callFunction "size" [VString "hello"] constructor
  = (Throw "Unknown function: size", constructor).
Proof.
  apply (unknown_function "size" [VString "hello"] constructor).
  cbn [In]. intros H.
  repeat (destruct H as [H | H]; [discriminate H |]). exact H.
Defined.

(** ** The arguments of a call *)

Lemma parseArgumentsLoop_no_comma self rest prev currentArg q parenDepth args st :
  ~ In ","%char (list_ascii_of_string rest) ->
  parseArgumentsLoop self rest prev currentArg q parenDepth args st
  = (if String.eqb (JsString.trim (currentArg +:+ rest)) "" then ret args
     else let* v := self (JsString.trim (currentArg +:+ rest)) in
          ret (args ++ [v])%list) st.
Proof.
  revert prev currentArg q parenDepth.
  induction rest as [| char rest IH]; intros prev currentArg q parenDepth Hc.
  - cbn [parseArgumentsLoop]. rewrite append_empty_r.
    now destruct (String.eqb (JsString.trim currentArg) "").
  - cbn [parseArgumentsLoop]. cbv zeta.
    destruct (Ascii.eqb_spec char ",") as [-> | _].
    { contradict Hc. now left. }
    cbn [andb]. rewrite IH.
    + now rewrite append_assoc.
    + intros H. apply Hc. now right.
Qed.

(** X22.  An argument text without a comma (and without [{@it]) is one
    argument: [_parseArguments] evaluates the whole text, trimmed, once
    and returns the one value, or no value at all when the text is
    blank; whatever the evaluation of that text does is what the call
    does. *)
Theorem parseArguments_single self argsString st :
  JsString.includes argsString "," = false ->
  JsString.includes argsString "{@it" = false ->
  _parseArguments self argsString st
  = (if String.eqb (JsString.trim argsString) "" then ret []
     else let* v := self (JsString.trim argsString) in ret [v]) st.
Proof.
  intros Hcomma Hit. unfold _parseArguments. rewrite Hit.
  rewrite parseArgumentsLoop_no_comma.
  - rewrite append_empty_l. reflexivity.
  - intros H. apply includes_char in H. congruence.
Qed.

Lemma parseArguments_single_witness :
  _parseArguments (_evaluateExpression 10) " myCollection " constructor
  = (Return [myCollection], constructor).
Proof.
  assert (Hcomma : JsString.includes " myCollection " "," = false)
    by (vm_compute; reflexivity).
  assert (Hit : JsString.includes " myCollection " "{@it" = false)
    by (vm_compute; reflexivity).
  pose proof (parseArguments_single (_evaluateExpression 10) " myCollection "
                constructor Hcomma Hit) as H.
  vm_compute in H |- *. exact H.
Defined.

(** ** String literals *)

Lemma trimEnd_append_char s c :
  JsString.isWhiteSpace c = false ->
  JsString.trimEnd (s +:+ String c "") = s +:+ String c "".
Proof.
  intros Hc. induction s as [| d s IH].
  - rewrite append_empty_l. cbn. now rewrite Hc.
  - rewrite append_cons. cbn [JsString.trimEnd]. rewrite IH.
    pose proof (append_not_empty s c).
    now destruct (s +:+ String c "").
Qed.

Lemma trim_delimited q s :
  JsString.isWhiteSpace q = false ->
  JsString.trim (String q (s +:+ String q "")) = String q (s +:+ String q "").
Proof.
  intros Hq. unfold JsString.trim. cbn [JsString.trimStart]. rewrite Hq.
  now apply (trimEnd_append_char (String q s)).
Qed.

Lemma trim_first q rest :
  JsString.isWhiteSpace q = false ->
  String.eqb (JsString.trim (String q rest)) "" = false.
Proof.
  intros Hq. unfold JsString.trim. cbn [JsString.trimStart]. rewrite Hq.
  cbn [JsString.trimEnd]. destruct (JsString.trimEnd rest); [| reflexivity].
  now rewrite Hq.
Qed.

Lemma stdlib_substring_append s t :
  String.substring 0 (String.length s) (s +:+ t) = s.
Proof.
  induction s as [| c s IH]; [now destruct t |].
  rewrite append_cons. cbn [String.length String.substring]. now rewrite IH.
Qed.

Lemma substring_delimited q s :
  JsString.substring (String q (s +:+ String q "")) 1
    (Z.of_nat (String.length (String q (s +:+ String q ""))) - 1)
  = s.
Proof.
  unfold JsString.substring. cbv zeta.
  cbn [String.length]. rewrite length_append. cbn [String.length].
  unfold JsString.clamp.
  replace (Z.to_nat (Z.min (Z.max 1 0)
                       (Z.of_nat (S (String.length s + 1)))))
    with 1%nat by lia.
  replace (Z.to_nat
             (Z.min (Z.max (Z.of_nat (S (String.length s + 1)) - 1) 0)
                (Z.of_nat (S (String.length s + 1)))))
    with (S (String.length s)) by lia.
  replace (Nat.min 1 (S (String.length s))) with 1%nat by lia.
  replace (Nat.max 1 (S (String.length s)) - 1)%nat with (String.length s) by lia.
  cbn [String.substring]. apply stdlib_substring_append.
Qed.

Lemma prefix_append_char sub t c :
  ~ In c (list_ascii_of_string sub) ->
  String.prefix sub (t +:+ String c "") = String.prefix sub t.
Proof.
  revert t. induction sub as [| a sub IH]; intros t Hc.
  - now rewrite !prefix_empty.
  - destruct t as [| d t]; rewrite ?append_cons, ?append_empty_l;
      cbn [String.prefix].
    + destruct (ascii_dec a c) as [-> | _]; [| reflexivity].
      contradict Hc. now left.
    + destruct (ascii_dec a d); [| reflexivity].
      apply IH. intros H. apply Hc. now right.
Qed.

Lemma indexOf_go_append_char sub s c i j :
  sub <> "" ->
  ~ In c (list_ascii_of_string sub) ->
  0 <= i -> 0 <= j ->
  (0 <=? JsString.indexOf_go sub (s +:+ String c "") i)
  = (0 <=? JsString.indexOf_go sub s j).
Proof.
  intros Hsub Hc. revert i j. induction s as [| d s IH]; intros i j Hi Hj.
  - rewrite append_empty_l.
    change (JsString.indexOf_go sub (String c "") i)
      with (if String.prefix sub (String c "") then i
            else JsString.indexOf_go sub "" (i + 1)).
    change (JsString.indexOf_go sub "" (i + 1))
      with (if String.prefix sub "" then i + 1 else -1).
    change (JsString.indexOf_go sub "" j)
      with (if String.prefix sub "" then j else -1).
    pose proof (prefix_append_char sub "" c Hc) as P.
    rewrite append_empty_l in P. rewrite P.
    destruct sub; [now contradict Hsub | reflexivity].
  - rewrite append_cons.
    change (JsString.indexOf_go sub (String d (s +:+ String c "")) i)
      with (if String.prefix sub (String d (s +:+ String c "")) then i
            else JsString.indexOf_go sub (s +:+ String c "") (i + 1)).
    change (JsString.indexOf_go sub (String d s) j)
      with (if String.prefix sub (String d s) then j
            else JsString.indexOf_go sub s (j + 1)).
    rewrite <- (append_cons d s (String c "")).
    rewrite (prefix_append_char sub (String d s) c Hc).
    destruct (String.prefix sub (String d s)).
    + destruct (Z.leb_spec 0 i), (Z.leb_spec 0 j); auto; lia.
    + apply IH; lia.
Qed.

(** Between two quotes a text has the occurrences of the texts that
    hold no quote and no more. *)
Lemma includes_delimited q s sub a rest :
  sub = String a rest -> a <> q ->
  ~ In q (list_ascii_of_string sub) ->
  JsString.includes (String q (s +:+ String q "")) sub = JsString.includes s sub.
Proof.
  intros -> Ha Hq. unfold JsString.includes, JsString.indexOf.
  change (JsString.indexOf_go (String a rest) (String q (s +:+ String q "")) 0)
    with (if String.prefix (String a rest) (String q (s +:+ String q "")) then 0
          else JsString.indexOf_go (String a rest) (s +:+ String q "") (0 + 1)).
  cbn [String.prefix]. destruct (ascii_dec a q); [contradiction |].
  apply indexOf_go_append_char; [discriminate | exact Hq | lia | lia].
Qed.

(** What is left for the continuation of a match is the end of the
    text. *)
Lemma run_rest r :
  forall total s c k caps,
    Regex.run total r s c k = Some caps ->
    exists s' c' pre, k s' c' = Some caps /\ s = pre +:+ s'.
Proof.
  induction r as [| a | cls | r1 IH1 r2 IH2 | r1 IH1 r2 IH2 | r0 IH0
                  | n r0 IH0 | |];
    intros total s c k caps H.
  - exists s, c, "". auto.
  - destruct s as [| b s']; [discriminate H |]. cbn [Regex.run] in H.
    destruct (Ascii.eqb a b); [| discriminate H].
    exists s', c, (String b ""). auto.
  - destruct s as [| b s']; [discriminate H |]. cbn [Regex.run] in H.
    destruct (cls b); [| discriminate H].
    exists s', c, (String b ""). auto.
  - cbn [Regex.run] in H.
    destruct (IH1 _ _ _ _ _ H) as (s1 & c1 & p1 & H1 & ->).
    destruct (IH2 _ _ _ _ _ H1) as (s2 & c2 & p2 & H2 & ->).
    exists s2, c2, (p1 +:+ p2). split; [exact H2 |].
    symmetry. apply append_assoc.
  - cbn [Regex.run] in H. apply orElse_Some in H. destruct H as [H | H].
    + now apply IH1 in H.
    + now apply IH2 in H.
  - cbn [Regex.run] in H. revert H.
    generalize (String.length s) at 1. intros n. revert s c.
    induction n as [| n IHn]; intros s c H.
    + exists s, c, "". auto.
    + apply orElse_Some in H. destruct H as [H | H].
      * destruct (IH0 _ _ _ _ _ H) as (s1 & c1 & p1 & H1 & ->).
        destruct (String.length s1 <? String.length (p1 +:+ s1))%nat;
          [| discriminate H1].
        destruct (IHn _ _ H1) as (s2 & c2 & p2 & H2 & ->).
        exists s2, c2, (p1 +:+ p2). split; [exact H2 |].
        symmetry. apply append_assoc.
      * exists s, c, "". auto.
  - cbn [Regex.run] in H.
    destruct (IH0 _ _ _ _ _ H) as (s1 & c1 & p1 & H1 & ->).
    exists s1, ((n, Regex.consumed (p1 +:+ s1) s1) :: c1), p1. auto.
  - cbn [Regex.run] in H.
    destruct (String.length s =? total)%nat; [| discriminate H].
    exists s, c, "". auto.
  - destruct s; [| discriminate H]. exists "", c, "". auto.
Qed.

Lemma run_seq_rest r1 r2 total s c k caps :
  Regex.run total (Regex.Seq r1 r2) s c k = Some caps ->
  exists s' c' pre, Regex.run total r2 s' c' k = Some caps /\ s = pre +:+ s'.
Proof. intros H. cbn [Regex.run] in H. now apply run_rest in H. Qed.

(** A text that matches the string-comparison pattern starts with the
    quote and has an equals sign in it. *)
Lemma stringComparison_shape q e :
  Regex.test (Patterns.stringComparison q) e = true ->
  (exists rest, e = String q rest) /\ In "="%char (list_ascii_of_string e).
Proof.
  unfold Regex.test, Regex.exec, Patterns.stringComparison, Regex.Cat.
  cbn [fold_right].
  destruct (Regex.execFrom _ _ e) as [caps |] eqn:H; [intros _ | discriminate].
  apply execFrom_anchored in H; [| lia]. destruct H as [_ H].
  split.
  - destruct e as [| b rest]; [discriminate H |]. cbn [Regex.run] in H.
    destruct (Ascii.eqb_spec q b) as [-> | _]; [| discriminate H].
    now exists rest.
  - apply run_seq_rest in H. destruct H as (s1 & c1 & p1 & H & ->).
    apply run_seq_rest in H. destruct H as (s2 & c2 & p2 & H & ->).
    apply run_seq_rest in H. destruct H as (s3 & c3 & p3 & H & ->).
    apply run_seq_rest in H. destruct H as (s4 & c4 & p4 & H & ->).
    cbn [Regex.Lit Regex.run] in H.
    destruct s4 as [| b s4]; [discriminate H |].
    destruct (Ascii.eqb_spec "=" b) as [<- | _]; [| discriminate H].
    rewrite !chars_append. repeat (apply in_or_app; right). now left.
Qed.

Lemma isStringComparison_equals e :
  JsString.includes e "=" = false -> isStringComparison e = false.
Proof.
  intros H. unfold isStringComparison.
  destruct (Regex.test (Patterns.stringComparison doubleQuote) e) eqn:E1.
  { apply stringComparison_shape in E1. destruct E1 as [_ E1].
    apply includes_char in E1. congruence. }
  destruct (Regex.test (Patterns.stringComparison singleQuote) e) eqn:E2.
  { apply stringComparison_shape in E2. destruct E2 as [_ E2].
    apply includes_char in E2. congruence. }
  reflexivity.
Qed.

Lemma parenthesizedOperand_first q rest :
  Ascii.eqb "(" q = false ->
  Regex.test Patterns.parenthesizedOperand (String q rest) = false.
Proof.
  intros Hq. unfold Regex.test, Regex.exec, Patterns.parenthesizedOperand, Regex.Cat.
  cbn [fold_right].
  destruct (Regex.execFrom _ _ (String q rest)) as [caps |] eqn:H; [| reflexivity].
  apply execFrom_anchored in H; [| lia]. destruct H as [_ H].
  cbn [Regex.run] in H. rewrite Hq in H. discriminate H.
Qed.

Lemma parenthesizedLogical_first q rest :
  Ascii.eqb "(" q = false ->
  Regex.exec Patterns.parenthesizedLogical (String q rest) = None.
Proof.
  intros Hq. unfold Regex.exec, Patterns.parenthesizedLogical,
    Patterns.parenthesized, Regex.Cat.
  cbn [fold_right].
  destruct (Regex.execFrom _ _ (String q rest)) as [caps |] eqn:H; [| reflexivity].
  apply execFrom_anchored in H; [| lia]. destruct H as [_ H].
  cbn [Regex.run] in H. rewrite Hq in H. discriminate H.
Qed.

Lemma collectionCallStart_first q rest :
  Ascii.eqb "f" q = false -> Ascii.eqb "a" q = false ->
  Regex.test Patterns.collectionCallStart (String q rest) = false.
Proof.
  intros Hf Ha. unfold Regex.test, Regex.exec, Patterns.collectionCallStart,
    Patterns.collectionFunction, Regex.Cat.
  cbn [fold_right].
  destruct (Regex.execFrom _ _ (String q rest)) as [caps |] eqn:H; [| reflexivity].
  apply execFrom_anchored in H; [| lia]. destruct H as [_ H].
  cbn [Regex.run Regex.Lit] in H. rewrite Hf, Ha in H. discriminate H.
Qed.

Lemma evaluateExpression_delimited fuel q s st :
  q = doubleQuote \/ q = singleQuote ->
  JsString.includes s "@it" = false ->
  _evaluateExpression (S fuel) (String q (s +:+ String q "")) st
  = (Return (VString s), st).
Proof.
  intros Hq Hit.
  assert (Hws : JsString.isWhiteSpace q = false) by now destruct Hq as [-> | ->].
  assert (Hparen : Ascii.eqb "(" q = false) by now destruct Hq as [-> | ->].
  assert (Hends : JsString.endsWith (String q (s +:+ String q "")) (String q "") = true)
    by apply (endsWith_append (String q s) (String q "")).
  unfold_expression fuel (String q (s +:+ String q "")).
  unfold evaluateExpressionBody. cbv zeta.
  rewrite (trim_delimited q s Hws), substring_delimited.
  unfold itBlock, parenthesizedBlock. cbv zeta.
  rewrite (includes_delimited q s "@it" "@" "it") by
    (try reflexivity; destruct Hq as [-> | ->]; cbn; intuition discriminate).
  rewrite Hit, (parenthesizedOperand_first q _ Hparen),
    (parenthesizedLogical_first q _ Hparen).
  unfold JsString.startsWith.
  destruct Hq as [-> | ->]; unfold doubleQuote, singleQuote in *;
    rewrite Hends;
    cbn [String.eqb Ascii.eqb Bool.eqb andb orb];
    destruct (JsString.includes _ "(" && JsString.includes _ ")");
    cbn [String.prefix andb orb];
    repeat match goal with
           | |- context [ascii_dec ?a ?b] =>
               destruct (ascii_dec a b); try discriminate; try congruence
           end;
    rewrite ?prefix_empty; reflexivity.
Qed.

(** X18.  A text between two double quotes, or between two single
    quotes, that holds no equals sign, no semicolon and no [@it]
    evaluates to the string of what is between the quotes, taken as it
    is (a quote or a backslash inside is an ordinary character), and is
    displayed between double quotes. *)
Theorem string_literal_round_trip s st :
  JsString.includes s "=" = false ->
  JsString.includes s ";" = false ->
  JsString.includes s "@it" = false ->
  evaluate (quoted s) st = (Return (Success (quoted s)), st)
  /\ evaluate (String singleQuote (s +:+ String singleQuote "")) st
     = (Return (Success (quoted s)), st).
Proof.
  intros Heq Hsemi Hit.
  assert (G : forall q, q = doubleQuote \/ q = singleQuote ->
            evaluate (String q (s +:+ String q "")) st
            = (Return (Success (quoted s)), st)).
  { intros q Hq.
    assert (Hws : JsString.isWhiteSpace q = false) by now destruct Hq as [-> | ->].
    assert (Heq' : JsString.includes (String q (s +:+ String q "")) "=" = false).
    { rewrite (includes_delimited q s "=" "=" "") by
        (try reflexivity; destruct Hq as [-> | ->]; cbn; intuition discriminate).
      exact Heq. }
    assert (Hsemi' : JsString.includes (String q (s +:+ String q "")) ";" = false).
    { rewrite (includes_delimited q s ";" ";" "") by
        (try reflexivity; destruct Hq as [-> | ->]; cbn; intuition discriminate).
      exact Hsemi. }
    unfold evaluate, _evaluateStatement. cbv zeta.
    rewrite (trim_delimited q s Hws).
    rewrite (isStringComparison_equals _ Heq'), Hsemi'.
    rewrite collectionCallStart_first by now destruct Hq as [-> | ->].
    pose proof (not_assignment_trim _ Heq') as Hassign.
    rewrite (trim_delimited q s Hws) in Hassign. rewrite Hassign.
    unfold catch, bind. cbn [String.eqb].
    rewrite (evaluateExpression_delimited _ q s st Hq Hit).
    reflexivity. }
  split.
  - apply (G doubleQuote). now left.
  - apply (G singleQuote). now right.
Qed.

Lemma string_literal_round_trip_witness :
  evaluate (quoted "it's (5 > 3)") constructor
  = (Return (Success (quoted "it's (5 > 3)")), constructor).
Proof.
  apply (string_literal_round_trip "it's (5 > 3)" constructor);
    vm_compute; reflexivity.
Defined.

(** ** What [_splitExpression] returns *)

Lemma stdlib_substring_empty n m : String.substring n m "" = "".
Proof. now destruct n, m. Qed.

Lemma substring_from_start s i :
  0 <= i <= Z.of_nat (String.length s) ->
  JsString.substring s 0 i = String.substring 0 (Z.to_nat i) s.
Proof.
  intros H. unfold JsString.substring, JsString.clamp. cbv zeta.
  replace (Z.to_nat (Z.min (Z.max 0 0) (Z.of_nat (String.length s))))
    with 0%nat by lia.
  replace (Z.to_nat (Z.min (Z.max i 0) (Z.of_nat (String.length s))))
    with (Z.to_nat i) by lia.
  now rewrite Nat.min_0_l, Nat.max_0_l, Nat.sub_0_r.
Qed.

Lemma substringFrom_drop s i :
  0 <= i <= Z.of_nat (String.length s) ->
  JsString.substringFrom s i = JsString.drop (Z.to_nat i) s.
Proof.
  intros H. unfold JsString.substringFrom, JsString.clamp. f_equal. lia.
Qed.

Lemma splitScan_prefix operator rest i prev q parenDepth r :
  splitScan operator rest i prev q parenDepth = Some r ->
  i <= r
  /\ String.prefix operator (JsString.drop (Z.to_nat (r - i)) rest) = true.
Proof.
  revert i prev q parenDepth.
  induction rest as [| char rest IH]; intros i prev q parenDepth;
    cbn [splitScan]; [discriminate |]. cbv zeta.
  destruct (negb (fst (quoteStep char prev q))
            && (parenStep char (fst (quoteStep char prev q)) parenDepth =? 0)
            && String.prefix operator (String char rest)) eqn:E.
  - intros [= <-]. rewrite Z.sub_diag.
    apply andb_true_iff in E. destruct E as [_ E]. split; [lia | exact E].
  - intros H. apply IH in H. destruct H as [H1 H2]. split; [lia |].
    replace (Z.to_nat (r - i)) with (S (Z.to_nat (r - (i + 1)))) by lia.
    exact H2.
Qed.

Lemma split_go_not_empty sep s skip cur : JsString.split_go sep s skip cur <> [].
Proof.
  revert skip cur. induction s as [| c s IH]; intros skip cur;
    cbn [JsString.split_go]; [discriminate |].
  destruct skip; [| apply IH].
  destruct (String.prefix sep (String c s)); [discriminate | apply IH].
Qed.

Lemma join_cons sep x l :
  l <> [] -> JsString.join sep (x :: l) = x +:+ sep +:+ JsString.join sep l.
Proof. now destruct l. Qed.

Lemma ofRev_cons c cur :
  JsString.ofRev (c :: cur) = JsString.ofRev cur +:+ String c "".
Proof.
  unfold JsString.ofRev. cbn [rev].
  induction (rev cur) as [| d l IH]; [reflexivity |].
  cbn [app string_of_list_ascii]. rewrite append_cons. now rewrite IH.
Qed.

(** Joining the pieces of a split with the separator gives the text
    back. *)
Lemma join_split_go sep s skip cur :
  sep <> "" ->
  JsString.join sep (JsString.split_go sep s skip cur)
  = JsString.ofRev cur +:+ JsString.drop skip s.
Proof.
  intros Hsep. revert skip cur. induction s as [| c s IH]; intros skip cur.
  - cbn [JsString.split_go JsString.join]. now rewrite drop_empty, append_empty_r.
  - cbn [JsString.split_go]. destruct skip as [| k].
    + destruct (String.prefix sep (String c s)) eqn:E.
      * rewrite join_cons by apply split_go_not_empty. rewrite IH.
        destruct sep as [| a sep']; [now contradict Hsep |].
        cbn [String.prefix] in E.
        destruct (ascii_dec a c) as [-> | _]; [| discriminate E].
        cbn [String.length Nat.sub JsString.drop]. rewrite Nat.sub_0_r.
        change (JsString.ofRev []) with "". rewrite append_empty_l, append_cons.
        now rewrite <- (prefix_drop _ _ E).
      * rewrite IH, ofRev_cons, append_assoc. reflexivity.
    + rewrite IH. reflexivity.
Qed.

Lemma splitExpression_scan expr operator st l r st' :
  match splitScan operator expr 0 None (false, None) 0 with
  | Some i =>
      ret (JsString.trim (JsString.substring expr 0 i),
           JsString.trim
             (JsString.substringFrom expr (i + Z.of_nat (String.length operator))))
  | None =>
      if String.eqb operator "&&" || String.eqb operator "||" then
        match JsString.split expr operator with
        | [l; r] => ret (JsString.trim l, JsString.trim r)
        | _ => throw (operatorNotFound operator expr)
        end
      else throw (operatorNotFound operator expr)
  end st = (Return (l, r), st') ->
  st' = st
  /\ exists before after,
       expr = before +:+ operator +:+ after
       /\ l = JsString.trim before /\ r = JsString.trim after.
Proof.
  destruct (splitScan operator expr 0 None (false, None) 0) as [i |] eqn:Escan.
  - intros [= <- <- <-]. split; [reflexivity |].
    pose proof (splitScan_found _ _ _ _ _ _ _ Escan) as [H0 Hend].
    apply splitScan_prefix in Escan. destruct Escan as [_ Hp].
    rewrite Z.sub_0_r in *.
    exists (String.substring 0 (Z.to_nat i) expr),
           (JsString.drop (Z.to_nat i + String.length operator) expr).
    rewrite substring_from_start, substringFrom_drop by lia.
    replace (Z.to_nat (i + Z.of_nat (String.length operator)))
      with (Z.to_nat i + String.length operator)%nat by lia.
    split; [| split; reflexivity]. now apply split_at.
  - destruct (String.eqb operator "&&" || String.eqb operator "||") eqn:Eop;
      [| discriminate].
    destruct (JsString.split expr operator) as [| a [| b [| c rest]]] eqn:Esplit;
      try discriminate.
    intros [= <- <- <-]. split; [reflexivity |].
    exists a, b. split; [| split; reflexivity].
    assert (Hsep : operator <> "").
    { intros ->. discriminate Eop. }
    pose proof (join_split_go operator expr 0 [] Hsep) as J.
    fold (JsString.split expr operator) in J. rewrite Esplit in J.
    cbn [JsString.join JsString.drop] in J.
    change (JsString.ofRev []) with "" in J. rewrite append_empty_l in J.
    now symmetry.
Qed.

(** X20.  What [_splitExpression] returns are the two sides of an
    occurrence of the operator: the expression is some text, the
    operator and some text, and the two parts are those texts trimmed.
    This holds on each of its three ways (the search for [*] after the
    last closing parenthesis, the scan outside strings and parentheses,
    the [split] for [&&] and [||]); the session is not touched. *)
Theorem splitExpression_parts expr operator st l r st' :
  _splitExpression expr operator st = (Return (l, r), st') ->
  st' = st
  /\ exists before after,
       expr = before +:+ operator +:+ after
       /\ l = JsString.trim before /\ r = JsString.trim after.
Proof.
  unfold _splitExpression. cbv zeta.
  destruct (String.eqb operator "*" && JsString.includes expr "("
            && JsString.includes expr ")") eqn:Estar;
    [| apply splitExpression_scan].
  destruct (0 <? JsString.indexOfFrom expr "*"
                   (JsString.lastIndexOf expr ")")) eqn:Epos;
    [| apply splitExpression_scan].
  apply Z.ltb_lt in Epos. intros [= <- <- <-]. split; [reflexivity |].
  apply andb_true_iff in Estar. destruct Estar as [Estar _].
  apply andb_true_iff in Estar. destruct Estar as [Estar _].
  apply String.eqb_eq in Estar. subst operator.
  pose proof (indexOfFrom_found_end expr "*" _ Epos) as Hend.
  cbn [String.length] in Hend.
  set (m := JsString.indexOfFrom expr "*" (JsString.lastIndexOf expr ")")) in *.
  exists (String.substring 0 (Z.to_nat m) expr),
         (JsString.drop (Z.to_nat m + 1) expr).
  rewrite substring_from_start, substringFrom_drop by lia.
  replace (Z.to_nat (m + 1)) with (Z.to_nat m + 1)%nat by lia.
  split; [| split; reflexivity].
  apply (split_at "*"). subst m. unfold JsString.indexOfFrom in *.
  cbv zeta in *.
  set (k := JsString.clamp (String.length expr) (JsString.lastIndexOf expr ")")) in *.
  destruct (indexOf_go_found "*" (JsString.drop k expr) (Z.of_nat k))
    as (H1 & Hp & _); [lia |].
  rewrite drop_drop in Hp.
  replace (Z.to_nat (JsString.indexOf_go "*" (JsString.drop k expr) (Z.of_nat k)))
    with (k + Z.to_nat (JsString.indexOf_go "*" (JsString.drop k expr) (Z.of_nat k)
                        - Z.of_nat k))%nat by lia.
  exact Hp.
Qed.

Lemma splitExpression_parts_witness :
  constructor = constructor
  /\ exists before after,
       "2 + 3 * 4" = before +:+ "+" +:+ after
       /\ "2" = JsString.trim before /\ "3 * 4" = JsString.trim after.
Proof.
  apply (splitExpression_parts "2 + 3 * 4" "+" constructor "2" "3 * 4" constructor).
  vm_compute. reflexivity.
Defined.

(** ** The string-comparison case *)

(** A greedy run of a character class over a text made of the class,
    followed by something that is not, goes on with what follows. *)
Lemma run_star_class cls s rest total c k caps :
  (forall ch, In ch (list_ascii_of_string s) -> cls ch = true) ->
  match rest with
  | String ch _ => cls ch = false
  | EmptyString => True
  end ->
  k rest c = Some caps ->
  Regex.run total (Regex.Star (Regex.Class cls)) (s +:+ rest) c k = Some caps.
Proof.
  intros Hs Hrest Hk. cbn [Regex.run].
  remember (String.length (s +:+ rest)) as n eqn:En.
  assert (Hn : (String.length (s +:+ rest) <= n)%nat) by lia. clear En.
  revert n Hn. induction s as [| a s IH]; intros n Hn.
  - rewrite append_empty_l in *. destruct n as [| n]; [exact Hk |].
    destruct rest as [| ch rest]; cbn [Regex.run Regex.orElse]; [exact Hk |].
    rewrite Hrest. exact Hk.
  - rewrite append_cons in *. cbn [String.length] in Hn.
    destruct n as [| n]; [lia |].
    cbn [Regex.run]. rewrite (Hs a) by now left.
    cbn [String.length].
    replace (String.length (s +:+ rest) <? S (String.length (s +:+ rest)))%nat
      with true by (symmetry; apply Nat.ltb_lt; lia).
    rewrite IH; [reflexivity | | lia].
    intros ch Hch. apply Hs. now right.
Qed.

Lemma run_seq_star_class cls r2 s rest total c k caps :
  (forall ch, In ch (list_ascii_of_string s) -> cls ch = true) ->
  match rest with
  | String ch _ => cls ch = false
  | EmptyString => True
  end ->
  Regex.run total r2 rest c k = Some caps ->
  Regex.run total (Regex.Seq (Regex.Star (Regex.Class cls)) r2) (s +:+ rest) c k
  = Some caps.
Proof.
  intros Hs Hrest Hk.
  change (Regex.run total (Regex.Star (Regex.Class cls)) (s +:+ rest) c
            (fun s' c' => Regex.run total r2 s' c' k) = Some caps).
  now apply run_star_class.
Qed.

Lemma run_seq_bos_at total r2 s c k :
  String.length s = total ->
  Regex.run total (Regex.Seq Regex.Bos r2) s c k = Regex.run total r2 s c k.
Proof. intros <-. cbn [Regex.run]. now rewrite Nat.eqb_refl. Qed.

Lemma run_seq_chr total a r2 s c k :
  Regex.run total (Regex.Seq (Regex.Chr a) r2) (String a s) c k
  = Regex.run total r2 s c k.
Proof. cbn [Regex.run]. now rewrite Ascii.eqb_refl. Qed.

(** Two literals in the same quotes around [ == ] match the pattern of
    the special case. *)
Lemma stringComparison_matches q s t :
  q = doubleQuote \/ q = singleQuote ->
  ~ In q (list_ascii_of_string s) ->
  ~ In q (list_ascii_of_string t) ->
  Regex.test (Patterns.stringComparison q)
    (String q (s +:+ String q (" == " +:+ String q (t +:+ String q ""))))
  = true.
Proof.
  intros Hq Hs Ht.
  assert (Hcls : forall u, ~ In q (list_ascii_of_string u) ->
            forall ch, In ch (list_ascii_of_string u) ->
                       negb (Ascii.eqb ch q) = true).
  { intros u Hu ch Hch. destruct (Ascii.eqb_spec ch q) as [-> | _];
      [contradiction | reflexivity]. }
  unfold Regex.test, Regex.exec.
  set (e := String q (s +:+ String q (" == " +:+ String q (t +:+ String q "")))).
  assert (R : Regex.run (String.length e) (Patterns.stringComparison q) e []
                (fun _ c => Some c) = Some []).
  { unfold Patterns.stringComparison, Patterns.notChr, Regex.Cat, Regex.ws.
    cbn [fold_right Regex.Lit].
    rewrite run_seq_bos_at by reflexivity. subst e.
    rewrite run_seq_chr.
    apply run_seq_star_class; [now apply Hcls | now rewrite Ascii.eqb_refl |].
    rewrite run_seq_chr.
    change (" == " +:+ String q (t +:+ String q ""))
      with (" " +:+ String "=" (String "=" (" " +:+ String q (t +:+ String q "")))).
    apply run_seq_star_class;
      [intros ch [<- | []]; reflexivity | reflexivity |].
    match goal with
    | |- Regex.run ?total (Regex.Seq (Regex.Seq (Regex.Chr "=") _) ?r2)
           (String "=" (String "=" ?rest)) ?c ?k = _ =>
        change (Regex.run total r2 rest c k = Some [])
    end.
    apply run_seq_star_class;
      [intros ch [<- | []]; reflexivity
      | now destruct Hq as [-> | ->] |].
    rewrite run_seq_chr.
    apply run_seq_star_class; [now apply Hcls | now rewrite Ascii.eqb_refl |].
    rewrite run_seq_chr. reflexivity. }
  subst e. cbn [Regex.execFrom]. cbn [String.length] in R |- *.
  now rewrite R.
Qed.

(** [split] on a text whose first code unit does not begin the
    separator. *)
Lemma split_once before after :
  ~ In "="%char (list_ascii_of_string before) ->
  ~ In "="%char (list_ascii_of_string after) ->
  JsString.split (before +:+ "==" +:+ after) "==" = [before; after].
Proof.
  intros Hb Ha. unfold JsString.split.
  rewrite (split_go_skip "=" "=" before _ [] Hb), app_nil_r.
  change ("==" +:+ after) with (String "=" (String "=" after)).
  cbn [JsString.split_go String.prefix String.length Nat.sub].
  destruct (ascii_dec "=" "=") as [_ | N]; [| now contradict N].
  rewrite prefix_empty, ofRev_rev. f_equal.
  pose proof (split_go_skip "=" "=" after "" [] Ha) as E.
  rewrite append_empty_r, app_nil_r in E. rewrite E.
  cbn [JsString.split_go]. now rewrite ofRev_rev.
Qed.

Lemma trimEnd_append_space s : JsString.trimEnd (s +:+ " ") = JsString.trimEnd s.
Proof.
  induction s as [| c s IH]; [reflexivity |].
  rewrite append_cons. cbn [JsString.trimEnd]. now rewrite IH.
Qed.

(** X23.  Two literals in the same quotes around [ == ], whose contents
    hold neither the quote nor an equals sign, are compared by content
    in the special case of [evaluate]: the answer is "True" when the two
    contents are the same text and "False" when they are not, and the
    session is not touched. *)
Theorem string_comparison_by_content q s t st :
  q = doubleQuote \/ q = singleQuote ->
  ~ In q (list_ascii_of_string s) -> ~ In "="%char (list_ascii_of_string s) ->
  ~ In q (list_ascii_of_string t) -> ~ In "="%char (list_ascii_of_string t) ->
  evaluate (String q (s +:+ String q (" == " +:+ String q (t +:+ String q "")))) st
  = (Return (Success (if String.eqb s t then "True" else "False")), st).
Proof.
  intros Hq Hsq Hse Htq Hte.
  assert (Hws : JsString.isWhiteSpace q = false) by now destruct Hq as [-> | ->].
  assert (Hqe : q <> "="%char) by (destruct Hq as [-> | ->]; discriminate).
  pose proof (stringComparison_matches q s t Hq Hsq Htq) as Hmatch.
  set (e := String q (s +:+ String q (" == " +:+ String q (t +:+ String q "")))) in *.
  assert (Hcmp : isStringComparison e = true).
  { unfold isStringComparison. destruct Hq as [-> | ->]; rewrite Hmatch;
      [reflexivity | apply orb_true_r]. }
  assert (He : e = (String q (s +:+ String q "") +:+ " ") +:+ "=="
                   +:+ (" " +:+ String q (t +:+ String q ""))).
  { subst e. rewrite !append_cons. f_equal.
    rewrite !append_assoc. rewrite !append_cons. reflexivity. }
  assert (Hsplit : JsString.split e "=="
                   = [String q (s +:+ String q "") +:+ " ";
                      " " +:+ String q (t +:+ String q "")]).
  { rewrite He. apply split_once; intros H;
      rewrite ?append_cons, ?append_empty_l in H;
      cbn [list_ascii_of_string] in H;
      rewrite ?chars_append in H; cbn [list_ascii_of_string] in H;
      rewrite ?chars_append in H; cbn [list_ascii_of_string] in H;
      cbn [In] in H; rewrite ?in_app_iff in H; cbn [In] in H;
      clear - H Hse Hte Hqe; intuition (try discriminate; try congruence). }
  assert (Hblank : String.eqb (JsString.trim e) "" = false)
    by apply (trim_first q _ Hws).
  unfold evaluate. cbv zeta.
  rewrite Hblank, Hcmp, Hsplit.
  cbn [List.map List.nth]. unfold catch, ret, unquote.
  assert (T1 : JsString.trim (String q (s +:+ String q "") +:+ " ")
               = String q (s +:+ String q "")).
  { unfold JsString.trim. rewrite append_cons. cbn [JsString.trimStart].
    rewrite Hws. rewrite <- append_cons, trimEnd_append_space.
    apply (trimEnd_append_char (String q s) q Hws). }
  assert (T2 : JsString.trim (" " +:+ String q (t +:+ String q ""))
               = String q (t +:+ String q "")).
  { rewrite append_cons, append_empty_l. unfold JsString.trim.
    cbn [JsString.trimStart]. change (JsString.isWhiteSpace " ") with true.
    cbv iota. rewrite Hws.
    apply (trimEnd_append_char (String q t) q Hws). }
  rewrite T1, T2, !substring_delimited. reflexivity.
Qed.

Lemma string_comparison_by_content_witness :
  evaluate (quoted "a b" +:+ " == " +:+ quoted "a  b") constructor
  = (Return (Success "False"), constructor).
Proof.
  assert (Hq : doubleQuote = doubleQuote \/ doubleQuote = singleQuote)
    by now left.
  pose proof (string_comparison_by_content doubleQuote "a b" "a  b" constructor Hq)
    as H.
  apply H; cbn [list_ascii_of_string In]; intros G;
    repeat (destruct G as [G | G]; [discriminate G |]); exact G.
Defined.

(** ** [substring] *)

Lemma evaluateExpression_one fuel st :
  _evaluateExpression (S fuel) "1" st = (Return (VNumber (JsNumber.ofZ 1)), st).
Proof. unfold_expression fuel "1". run_symbolic. reflexivity. Qed.

Lemma evaluateExpression_three fuel st :
  _evaluateExpression (S fuel) "3" st = (Return (VNumber (JsNumber.ofZ 3)), st).
Proof. unfold_expression fuel "3". run_symbolic. reflexivity. Qed.

Lemma substring_one_three s :
  JsString.substring s (JsNumber.toIndex (JsNumber.ofZ 1) (String.length s))
    (JsNumber.toIndex (JsNumber.ofZ 3) (String.length s))
  = String.substring 1 2 s.
Proof.
  assert (E1 : forall n, JsNumber.toIndex (JsNumber.ofZ 1) n = Z.min 1 (Z.of_nat n)).
  { intros n. change (JsNumber.ofZ 1) with (S754_finite false 4503599627370496 (-52)).
    unfold JsNumber.toIndex.
    change (JsNumber.truncate (S754_finite false 4503599627370496 (-52))) with 1.
    lia. }
  assert (E3 : forall n, JsNumber.toIndex (JsNumber.ofZ 3) n = Z.min 3 (Z.of_nat n)).
  { intros n. change (JsNumber.ofZ 3) with (S754_finite false 6755399441055744 (-51)).
    unfold JsNumber.toIndex.
    change (JsNumber.truncate (S754_finite false 6755399441055744 (-51))) with 3.
    lia. }
  rewrite E1, E3.
  destruct s as [| a [| b [| c s]]]; try reflexivity.
  unfold JsString.substring, JsString.clamp. cbv zeta.
  cbn [String.length].
  replace (Z.to_nat (Z.min (Z.max (Z.min 1 (Z.of_nat (S (S (S (String.length s)))))) 0)
                       (Z.of_nat (S (S (S (String.length s)))))))
    with 1%nat by lia.
  replace (Z.to_nat (Z.min (Z.max (Z.min 3 (Z.of_nat (S (S (S (String.length s)))))) 0)
                       (Z.of_nat (S (S (S (String.length s)))))))
    with 3%nat by lia.
  reflexivity.
Qed.

(** X24.  [substring] takes a string and two numbers, and fails with
    "substring() invalid arguments" on anything else; indices past the
    end of the string are not an error: [substring(a, 1, 3)] is the code
    units of [a] at the indices 1 and 2, as many of them as there are. *)
Theorem substring_clamps st x :
  environment st !! "a" = Some x ->
  evaluate "substring(a, 1, 3)" st
  = (Return
       match x with
       | VString s => Success (quoted (String.substring 1 2 s))
       | _ => Failure "Error evaluating expression: substring() invalid arguments"
       end, st).
Proof.
  intros Ha. run_entry Ha Ha.
  rewrite evaluateExpression_one, evaluateExpression_three.
  destruct x as [| n | s | b | ref items | p | builtin]; try reflexivity.
  change (callFunction "substring"
            [VString s; VNumber (JsNumber.ofZ 1); VNumber (JsNumber.ofZ 3)] st)
    with (Return
            (VString
               (JsString.substring s
                  (JsNumber.toIndex (JsNumber.ofZ 1) (String.length s))
                  (JsNumber.toIndex (JsNumber.ofZ 3) (String.length s)))), st).
  cbv iota beta. now rewrite substring_one_three.
Qed.

Lemma substring_clamps_witness :
  evaluate "substring(a, 1, 3)" (mkState {[ "a" := VString "hi" ]} 0)
  = (Return (Success (quoted "i")), mkState {[ "a" := VString "hi" ]} 0).
Proof.
  assert (Ha : environment (mkState {[ "a" := VString "hi" ]} 0) !! "a"
               = Some (VString "hi")) by (vm_compute; reflexivity).
  pose proof (substring_clamps _ _ Ha) as H.
  vm_compute in H |- *. exact H.
Defined.
